(** * Mozility Tracker: the capture-and-synchronisation engine of [App.js]

    A shallow embedding of the engine that lives inside the React
    component of [src/App.js]:

    - the three SQLite tables created by [initDatabase]
      ([locations], [sync_queue], [app_logs]) and the SQL statements the
      component issues against them;
    - the asynchronous functions [logToDatabase], [initDatabase],
      [saveLocation], [syncData], [loadStats], [loadLocations],
      [clearDatabase], [testLocation], the [getStats] of the first version
      of the component and the two background tasks, written as
      resumable tasks: every awaited call of the source is one atomic
      action of a task, so that the same definition can be run to
      completion or interleaved with other tasks;
    - the render scope of the component: the functions of one render close
      over the values [database] and [isOnline] that [useState] returned in
      that render, whereas [setDatabase] and [setIsOnline] write the state
      cell read by the next render.

    Conventions.  JavaScript numbers that hold coordinates are IEEE binary64
    floats ([PrimFloat.float]); row ids and timestamps are integers ([Z]).
    A value that is [null] or [undefined] on the JavaScript side is [None];
    a NaN bound to a statement is stored as NULL, as SQLite does.
    The [created_at] columns (wall-clock defaults), the console output, the
    permission dialogs and the start and stop of tracking are not
    modelled. *)

From Stdlib Require Import ZArith List String Ascii Bool Lia.
From Stdlib Require Import Sorted Permutation.
From Stdlib Require Import DecimalString DecimalZ.
From Stdlib Require Import PrimFloat.
From Stdlib Require SpecFloat FloatOps FloatAxioms.
Import ListNotations.

Set Implicit Arguments.
Set Warnings "-inexact-float".

Local Open Scope string_scope.
Local Open Scope Z_scope.

(* ================================================================== *)
(** * Texts built by template literals *)

(** A template literal such as
    [`Location saved: ${lat.toFixed(6)}, ${lon.toFixed(6)}`] is kept as
    the list of its fragments; the rendering of a number by the host
    ([toFixed], [String]) stays symbolic. *)
Inductive frag : Type :=
| Str (s : string)
| Fixed6 (x : float)
| Num (n : Z).

Definition text := list frag.

(** A thrown JavaScript [Error]; only [error.message] is ever read. *)
Record js_error : Type := Error { message : string }.

(* ================================================================== *)
(** * The SQLite file [tracker.db] *)

Module Locations.
(** One row of [locations] (schema in [initDatabase]). *)
Record row : Type := Row {
  id : Z;
  latitude : float;
  longitude : float;
  accuracy : option float;
  altitude : option float;
  speed : option float;
  heading : option float;
  timestamp : Z;
  synced : Z
}.
End Locations.

Module SyncQueue.
(** One row of [sync_queue]. *)
Record row : Type := Row {
  id : Z;
  table_name : string;
  record_id : Z;
  operation : string
}.
End SyncQueue.

Module AppLogs.
(** One row of [app_logs]. *)
Record row : Type := Row {
  id : Z;
  message : text;
  level : string
}.
End AppLogs.

(** The tables of the file, rows in rowid order, and the [sqlite_sequence]
    counters that [AUTOINCREMENT] keeps for each of them. *)
Record tables : Type := Tables {
  locations : list Locations.row;
  sync_queue : list SyncQueue.row;
  app_logs : list AppLogs.row;
  seq_locations : Z;
  seq_sync_queue : Z;
  seq_app_logs : Z
}.

Definition empty_tables : tables := Tables [] [] [] 0 0 0.

(** A value bound to a [?] placeholder. *)
Inductive sqlvalue : Type :=
| SqlNull
| SqlInteger (z : Z)
| SqlReal (x : float)
| SqlText (s : string).

Module Sql.

(** The outcome of one statement: an error, or a result and the new
    tables. *)
Definition result (X : Type) : Type := (js_error + X * tables)%type.

Definition max_rowid (ids : list Z) : Z := fold_right Z.max 0 ids.

(** [INTEGER PRIMARY KEY AUTOINCREMENT]: one more than the largest rowid
    the table has ever held. *)
Definition next_rowid (seq : Z) (ids : list Z) : Z :=
  Z.max seq (max_rowid ids) + 1.

Definition not_null_failed (column : string) : js_error :=
  Error ("NOT NULL constraint failed: " ++ column).

(** How a JavaScript number reaches a REAL column: a missing value is
    NULL, and SQLite stores a NaN as NULL too; every other number,
    the infinities included, is stored as it is. *)
Definition bind_real (x : option float) : option float :=
  match x with
  | Some v => if PrimFloat.is_nan v then None else Some v
  | None => None
  end.

(** [INSERT INTO locations (latitude, longitude, accuracy, altitude,
    speed, heading, timestamp, synced) VALUES (?, ?, ?, ?, ?, ?, ?, ?)].
    The result is [lastInsertRowId]. *)
Definition insert_location
    (lat lon acc alt spd hdg : option float) (ts : option Z) (syn : Z)
    (t : tables) : result Z :=
  match bind_real lat with
  | None => inl (not_null_failed "locations.latitude")
  | Some lat' =>
    match bind_real lon with
    | None => inl (not_null_failed "locations.longitude")
    | Some lon' =>
      match ts with
      | None => inl (not_null_failed "locations.timestamp")
      | Some ts' =>
        let i := next_rowid (seq_locations t)
                            (map Locations.id (locations t)) in
        inr (i, Tables
                  (locations t ++
                     [Locations.Row i lat' lon' (bind_real acc)
                        (bind_real alt) (bind_real spd) (bind_real hdg)
                        ts' syn])
                  (sync_queue t) (app_logs t)
                  i (seq_sync_queue t) (seq_app_logs t))
      end
    end
  end.

(** [INSERT INTO sync_queue (table_name, record_id, operation)
    VALUES (?, ?, ?)]. *)
Definition insert_sync_queue
    (tn : string) (rid : Z) (op : string) (t : tables) : result Z :=
  let i := next_rowid (seq_sync_queue t)
                      (map SyncQueue.id (sync_queue t)) in
  inr (i, Tables (locations t)
                 (sync_queue t ++ [SyncQueue.Row i tn rid op])
                 (app_logs t)
                 (seq_locations t) i (seq_app_logs t)).

(** [INSERT INTO app_logs (message, level) VALUES (?, ?)]. *)
Definition insert_app_log
    (msg : text) (lvl : string) (t : tables) : result Z :=
  let i := next_rowid (seq_app_logs t) (map AppLogs.id (app_logs t)) in
  inr (i, Tables (locations t) (sync_queue t)
                 (app_logs t ++ [AppLogs.Row i msg lvl])
                 (seq_locations t) (seq_sync_queue t) i).

(** [ORDER BY]: a stable insertion sort; [le a b] says that [a] may
    come before [b].  SQLite leaves the order of ties open; the model
    keeps them in rowid order. *)
Section OrderBy.
Variable A : Type.
Variable le : A -> A -> bool.

Fixpoint insert_sorted (x : A) (l : list A) : list A :=
  match l with
  | [] => [x]
  | y :: l' => if le x y then x :: y :: l' else y :: insert_sorted x l'
  end.

Definition order_by (l : list A) : list A :=
  fold_right (fun x acc => insert_sorted x acc) [] l.
End OrderBy.

Definition timestamp_asc (a b : Locations.row) : bool :=
  Locations.timestamp a <=? Locations.timestamp b.

Definition timestamp_desc (a b : Locations.row) : bool :=
  Locations.timestamp b <=? Locations.timestamp a.

Definition is_unsynced (r : Locations.row) : bool :=
  Locations.synced r =? 0.

Definition is_synced (r : Locations.row) : bool :=
  Locations.synced r =? 1.

(** [SELECT * FROM locations WHERE synced = 0 ORDER BY timestamp ASC
    LIMIT n]; the source has [n = 100]. *)
Definition select_unsynced (n : nat) (t : tables) : list Locations.row :=
  firstn n (order_by timestamp_asc (filter is_unsynced (locations t))).

(** [SELECT * FROM locations ORDER BY timestamp DESC LIMIT 20]. *)
Definition select_recent (t : tables) : list Locations.row :=
  firstn 20 (order_by timestamp_desc (locations t)).

Definition mem (i : Z) (ids : list Z) : bool := existsb (Z.eqb i) ids.

Definition set_synced (r : Locations.row) : Locations.row :=
  Locations.Row (Locations.id r) (Locations.latitude r)
    (Locations.longitude r) (Locations.accuracy r) (Locations.altitude r)
    (Locations.speed r) (Locations.heading r) (Locations.timestamp r) 1.

(** [UPDATE locations SET synced = 1 WHERE id IN (i1,...,in)], the id
    list spliced into the statement text. *)
Definition update_synced (ids : list Z) (t : tables) : tables :=
  Tables (map (fun r => if mem (Locations.id r) ids
                        then set_synced r else r) (locations t))
         (sync_queue t) (app_logs t)
         (seq_locations t) (seq_sync_queue t) (seq_app_logs t).

(** NUMERIC affinity applied to a bound value before it is compared
    with an INTEGER column: a text that is a well-formed integer literal
    becomes that integer, any other text stays a text.  (Only texts made
    of digits, a sign and commas reach this function; real literals and
    surrounding blanks are left out.) *)
Definition numeric_affinity (v : sqlvalue) : sqlvalue :=
  match v with
  | SqlText s =>
      match NilZero.int_of_string s with
      | Some d => SqlInteger (Z.of_int d)
      | None => SqlText s
      end
  | _ => v
  end.

(** [col = +v] for an INTEGER column holding [c]: an integer equals
    only an equal integer; a text or NULL never equals it. *)
Definition integer_column_eq (c : Z) (v : sqlvalue) : bool :=
  match numeric_affinity v with
  | SqlInteger z => c =? z
  | _ => false
  end.

(** [DELETE FROM sync_queue WHERE table_name = ? AND record_id IN (?)]:
    the list after [IN] has the single element [v]. *)
Definition delete_sync_queue
    (tn : string) (v : sqlvalue) (t : tables) : tables :=
  Tables (locations t)
         (filter (fun q => negb (String.eqb (SyncQueue.table_name q) tn
                                 && integer_column_eq
                                      (SyncQueue.record_id q) v))
                 (sync_queue t))
         (app_logs t)
         (seq_locations t) (seq_sync_queue t) (seq_app_logs t).

(** [DELETE FROM locations; DELETE FROM sync_queue; DELETE FROM
    app_logs;].  The [sqlite_sequence] counters survive. *)
Definition delete_all (t : tables) : tables :=
  Tables [] [] [] (seq_locations t) (seq_sync_queue t) (seq_app_logs t).

(** [SUM(CASE WHEN c THEN 1 ELSE 0 END)]: NULL over no rows. *)
Definition sum_case (c : Locations.row -> bool) (l : list Locations.row)
  : option Z :=
  match l with
  | [] => None
  | _ => Some (Z.of_nat (List.length (filter c l)))
  end.

End Sql.

(** The row of [loadStats]: [{total, synced, pending}]. *)
Record stats_row : Type := Stats {
  total : Z;
  synced : option Z;
  pending : option Z
}.

Module SqlStats.
(** [SELECT COUNT( * ) as total, SUM(CASE WHEN synced = 1 ...) as synced,
    SUM(CASE WHEN synced = 0 ...) as pending FROM locations]: always
    one row. *)
Definition select_stats (t : tables) : list stats_row :=
  [Stats (Z.of_nat (List.length (locations t)))
         (Sql.sum_case Sql.is_synced (locations t))
         (Sql.sum_case Sql.is_unsynced (locations t))].
End SqlStats.

(* ================================================================== *)
(** * The world the component runs in *)

(** The value [SQLite.openDatabaseAsync("tracker.db")] resolves to. *)
Inductive handle : Type := TrackerDb.

(** One call of [Alert.alert(title, message)]. *)
Record alert : Type := Alert { alert_title : string; alert_message : text }.

(** [file] is the content of [tracker.db] ([None]: the schema has not been
    created yet) and [net_isConnected] the connectivity [NetInfo] reports;
    the [state_] fields are the [useState] cells of the component. *)
Record world : Type := World {
  file : option tables;
  net_isConnected : bool;
  state_database : option handle;
  state_isOnline : bool;
  state_stats : stats_row;
  state_locations : list Locations.row;
  alerts : list alert
}.

(** The constants a render binds and its functions close over:
    [const [database, setDatabase] = useState(null)] and
    [const [isOnline, setIsOnline] = useState(true)]. *)
Record scope : Type := Scope {
  database : option handle;
  isOnline : bool
}.

Definition render (w : world) : scope :=
  Scope (state_database w) (state_isOnline w).

(** The scope of the first render, the one the mount effect
    ([useEffect(..., [])]) closes over. *)
Definition first_render : scope := Scope None true.

(** The world at mount, over a given file. *)
Definition mount_world (f : option tables) (connected : bool) : world :=
  World f connected None true (Stats 0 (Some 0) (Some 0)) [] [].

Definition with_file (f : option tables) (w : world) : world :=
  World f (net_isConnected w) (state_database w) (state_isOnline w)
        (state_stats w) (state_locations w) (alerts w).

Definition setDatabase (db : handle) (w : world) : world :=
  World (file w) (net_isConnected w) (Some db) (state_isOnline w)
        (state_stats w) (state_locations w) (alerts w).

Definition setIsOnline (b : bool) (w : world) : world :=
  World (file w) (net_isConnected w) (state_database w) b
        (state_stats w) (state_locations w) (alerts w).

Definition setStats (s : stats_row) (w : world) : world :=
  World (file w) (net_isConnected w) (state_database w) (state_isOnline w)
        s (state_locations w) (alerts w).

Definition setLocations (l : list Locations.row) (w : world) : world :=
  World (file w) (net_isConnected w) (state_database w) (state_isOnline w)
        (state_stats w) l (alerts w).

Definition push_alert (a : alert) (w : world) : world :=
  World (file w) (net_isConnected w) (state_database w) (state_isOnline w)
        (state_stats w) (state_locations w) (alerts w ++ [a]).

Definition set_connected (b : bool) (w : world) : world :=
  World (file w) b (state_database w) (state_isOnline w)
        (state_stats w) (state_locations w) (alerts w).

(* ================================================================== *)
(** * Asynchronous functions as resumable tasks *)

(** How a promise settles. *)
Inductive completion (A : Type) : Type :=
| Resolved (a : A)
| Rejected (e : js_error).

Arguments Rejected {A} e.

(** One atomic action on the world. *)
Definition action (X : Type) : Type := world -> completion X * world.

(** An [async] function body: it has settled, or it performs an action
    and continues with what the action settled to. *)
Inductive task (A : Type) : Type :=
| Return (r : completion A)
| Act (X : Type) (a : action X) (k : completion X -> task A).

Arguments Act {A X} a k.

Definition ret {A} (a : A) : task A := Return (Resolved a).
Definition throw {A} (e : js_error) : task A := Return (Rejected e).

Fixpoint bind {A B} (t : task A) (f : A -> task B) : task B :=
  match t with
  | Return (Resolved a) => f a
  | Return (Rejected e) => Return (Rejected e)
  | Act a k => Act a (fun r => bind (k r) f)
  end.

(** [try { t } catch (error) { h error }]. *)
Fixpoint try_catch {A} (t : task A) (h : js_error -> task A) : task A :=
  match t with
  | Return (Resolved a) => Return (Resolved a)
  | Return (Rejected e) => h e
  | Act a k => Act a (fun r => try_catch (k r) h)
  end.

(** [await p]: the action runs, a rejection is thrown. *)
Definition await {X} (a : action X) : task X := Act a (fun r => Return r).

(** A synchronous effect between two awaits. *)
Definition effect (f : world -> world) : task unit :=
  Act (fun w => (Resolved tt, f w)) (fun r => Return r).

Declare Scope task_scope.
Delimit Scope task_scope with task.
Notation "x <- t ;; k" := (bind t (fun x => k))
  (at level 61, t at next level, right associativity) : task_scope.
Notation "t ;; k" := (bind t (fun _ => k))
  (at level 61, right associativity) : task_scope.

(** Running a task to completion, with nothing interleaved. *)
Fixpoint run {A} (t : task A) (w : world) : completion A * world :=
  match t with
  | Return r => (r, w)
  | Act a k => let (r, w') := a w in run (k r) w'
  end.

(** One step of a task: its next action. *)
Definition resume {A} (t : task A) (w : world) : task A * world :=
  match t with
  | Return r => (Return r, w)
  | Act a k => let (r, w') := a w in (k r, w')
  end.

Definition settled {A} (t : task A) : bool :=
  match t with
  | Return _ => true
  | Act _ _ => false
  end.

(* ================================================================== *)
(** * The expo-sqlite calls *)

Definition no_such_table (name : string) : js_error :=
  Error ("no such table: " ++ name).

(** [SQLite.openDatabaseAsync("tracker.db")]: opens the file, creating it
    without any table when it is missing. *)
Definition openDatabaseAsync : action handle :=
  fun w => (Resolved TrackerDb, w).

(** [db.runAsync(sql, params)] for a statement on table [name]. *)
Definition runAsync {X} (db : handle) (name : string)
    (stmt : tables -> Sql.result X) : action X :=
  fun w =>
    match file w with
    | None => (Rejected (no_such_table name), w)
    | Some t =>
        match stmt t with
        | inl e => (Rejected e, w)
        | inr (x, t') => (Resolved x, with_file (Some t') w)
        end
    end.

(** A statement that changes rows and cannot fail on an existing table. *)
Definition changes (f : tables -> tables) (t : tables) : Sql.result unit :=
  inr (tt, f t).

(** [db.execAsync(sql)] for a script that starts on table [name]. *)
Definition execAsync (db : handle) (name : string)
    (script : tables -> Sql.result unit) : action unit :=
  runAsync db name script.

(** [db.getAllAsync(sql)] for a query on table [name]. *)
Definition getAllAsync {X} (db : handle) (name : string)
    (query : tables -> list X) : action (list X) :=
  fun w =>
    match file w with
    | None => (Rejected (no_such_table name), w)
    | Some t => (Resolved (query t), w)
    end.

(** [db.execAsync] of the three [CREATE TABLE IF NOT EXISTS] statements of
    [initDatabase]. *)
Definition execAsync_create_tables (db : handle) : action unit :=
  fun w =>
    match file w with
    | None => (Resolved tt, with_file (Some empty_tables) w)
    | Some _ => (Resolved tt, w)
    end.

(** [NetInfo.fetch()]. *)
Definition NetInfo_fetch : action bool :=
  fun w => (Resolved (net_isConnected w), w).

(** [String(n)] of an integer, and [ids.join(",")]. *)
Definition string_of_Z (z : Z) : string :=
  NilZero.string_of_int (Z.to_int z).

Definition join (sep : string) (ids : list Z) : string :=
  String.concat sep (map string_of_Z ids).

(* ================================================================== *)
(** * The component's functions *)

Local Open Scope task_scope.

(** What the location source delivers: [{coords: {...}, timestamp}]. *)
Record Coords : Type := {
  latitude : option float;
  longitude : option float;
  accuracy : option float;
  altitude : option float;
  speed : option float;
  heading : option float
}.

Record LocationObject : Type := {
  coords : Coords;
  timestamp : option Z
}.

Definition info : string := "info".

(** [logToDatabase(message, level = "info")], App.js 187-199. *)
Definition logToDatabase (sc : scope) (msg : text) (lvl : string)
  : task unit :=
  match database sc with
  | None => ret tt
  | Some db =>
      try_catch
        (_ <- await (runAsync db "app_logs" (Sql.insert_app_log msg lvl)) ;;
         ret tt)
        (fun _ => ret tt)
  end.

(** [initDatabase], App.js 55-96.  [logToDatabase] is the one of the same
    render: it reads the captured [database], not the handle just opened. *)
Definition initDatabase (sc : scope) : task unit :=
  try_catch
    (db <- await openDatabaseAsync ;;
     effect (setDatabase db) ;;
     await (execAsync_create_tables db) ;;
     logToDatabase sc [Str "Database initialized successfully"] info)
    (fun _ => ret tt).

(** [loadLocations], App.js 99-111. *)
Definition loadLocations (sc : scope) : task unit :=
  match database sc with
  | None => ret tt
  | Some db =>
      try_catch
        (locs <- await (getAllAsync db "locations" Sql.select_recent) ;;
         effect (setLocations locs))
        (fun _ => ret tt)
  end.

(** [loadStats], App.js 114-132. *)
Definition loadStats (sc : scope) : task unit :=
  match database sc with
  | None => ret tt
  | Some db =>
      try_catch
        (statsData <-
           await (getAllAsync db "locations" SqlStats.select_stats) ;;
         match statsData with
         | s :: _ => effect (setStats s)
         | [] => ret tt
         end)
        (fun _ => ret tt)
  end.

(** [x.toFixed(6)]; a [TypeError] on [undefined]. *)
Definition toFixed6 (x : option float) : task frag :=
  match x with
  | Some v => ret (Fixed6 v)
  | None => throw (Error "undefined is not an object")
  end.

(** [saveLocation], App.js 315-350. *)
Definition saveLocation (sc : scope) (location : LocationObject)
  : task unit :=
  match database sc with
  | None => ret tt
  | Some db =>
      try_catch
        (lastInsertRowId <-
           await (runAsync db "locations"
                    (Sql.insert_location
                       (latitude (coords location))
                       (longitude (coords location))
                       (accuracy (coords location))
                       (altitude (coords location))
                       (speed (coords location))
                       (heading (coords location))
                       (timestamp location)
                       0)) ;;
         await (runAsync db "sync_queue"
                  (Sql.insert_sync_queue "locations" lastInsertRowId
                                         "INSERT")) ;;
         lat <- toFixed6 (latitude (coords location)) ;;
         lon <- toFixed6 (longitude (coords location)) ;;
         logToDatabase sc [Str "Location saved: "; lat; Str ", "; lon] info)
        (fun error =>
           logToDatabase sc
             [Str ("Failed to save location: " ++ message error)] "error")
  end.

(** The batch bound of [syncData]: [LIMIT 100]. *)
Definition batch_limit : nat := 100.

(** [syncData], App.js 353-395.  Between reading the batch and marking it
    nothing is sent anywhere: the source simulates a successful sync. *)
Definition syncData (sc : scope) : task unit :=
  match database sc with
  | None => ret tt
  | Some db =>
      if negb (isOnline sc) then ret tt
      else
        try_catch
          (unsyncedLocations <-
             await (getAllAsync db "locations"
                      (Sql.select_unsynced batch_limit)) ;;
           match unsyncedLocations with
           | [] =>
               logToDatabase sc [Str "No data to sync"] info ;;
               effect (push_alert (Alert "Sync" [Str "No data to sync"]))
           | _ :: _ =>
               let locationIds := map Locations.id unsyncedLocations in
               await (runAsync db "locations"
                        (changes (Sql.update_synced locationIds))) ;;
               await (runAsync db "sync_queue"
                        (changes (Sql.delete_sync_queue "locations"
                                    (SqlText (join "," locationIds))))) ;;
               let msg :=
                 [Str "Synced ";
                  Num (Z.of_nat (List.length unsyncedLocations));
                  Str " locations"] in
               logToDatabase sc msg info ;;
               effect (push_alert (Alert "Sync Successful" msg)) ;;
               loadLocations sc ;;
               loadStats sc
           end)
          (fun error =>
             logToDatabase sc [Str ("Sync failed: " ++ message error)]
                           "error" ;;
             effect (push_alert (Alert "Sync Failed"
                                   [Str (message error)])))
  end.

(** The two buttons of the confirmation dialog of [clearDatabase]. *)
Inductive button : Type := Cancel | Clear.

(** [clearDatabase], App.js 398-429, with the button the user picks in
    the dialog; the deletion is the [onPress] of "Clear". *)
Definition clearDatabase (sc : scope) (choice : button) : task unit :=
  match database sc with
  | None => ret tt
  | Some db =>
      effect (push_alert
                (Alert "Clear Database"
                   [Str "Are you sure you want to delete all location data?"])) ;;
      match choice with
      | Cancel => ret tt
      | Clear =>
          try_catch
            (await (execAsync db "locations" (changes Sql.delete_all)) ;;
             logToDatabase sc [Str "Database cleared"] info ;;
             loadLocations sc ;;
             loadStats sc ;;
             effect (push_alert
                       (Alert "Success"
                          [Str "Database cleared successfully"])))
            (fun _ =>
               effect (push_alert
                         (Alert "Error" [Str "Failed to clear database"])))
      end
  end.

(** The task registered under [LOCATION_TASK_NAME], App.js 693-734: it is
    outside the component, opens its own handle and has no [try]. *)
Definition backgroundLocationTask
    (locations : option (list LocationObject)) (error : option js_error)
  : task unit :=
  match error with
  | Some _ => ret tt
  | None =>
      match locations with
      | Some (location :: _) =>
          db <- await openDatabaseAsync ;;
          await (runAsync db "locations"
                   (Sql.insert_location
                      (latitude (coords location))
                      (longitude (coords location))
                      (accuracy (coords location))
                      (altitude (coords location))
                      (speed (coords location))
                      (heading (coords location))
                      (timestamp location)
                      0)) ;;
          _ <- await NetInfo_fetch ;;
          ret tt
      | _ => ret tt
      end
  end.

Inductive BackgroundFetchResult : Type := NewData | NoData.

(** The task registered under [SYNC_TASK_NAME], App.js 737-748: it opens
    the file and returns; the sync logic is a comment. *)
Definition backgroundSyncTask : task BackgroundFetchResult :=
  isConnected <- await NetInfo_fetch ;;
  if (isConnected : bool) then
    _ <- await openDatabaseAsync ;;
    ret NewData
  else ret NoData.

(** What [getStats] answers without a store: [{total: 0, synced: 0,
    pending: 0}]. *)
Definition zero_stats : stats_row := Stats 0 (Some 0) (Some 0).

(** [getStats] of the first version of the component (the file whose
    render has no table), lines 262-279: the statistics are returned, not
    put into a state cell.  [stats[0]] of an empty array is [undefined]. *)
Definition getStats (sc : scope) : task (option stats_row) :=
  match database sc with
  | None => ret (Some zero_stats)
  | Some db =>
      try_catch
        (stats <- await (getAllAsync db "locations" SqlStats.select_stats) ;;
         ret (hd_error stats))
        (fun _ => ret (Some zero_stats))
  end.

(** The fix [testLocation] makes up, from the two values [Math.random()]
    returns and the value of [Date.now()]. *)
Definition mockLocation (random1 random2 : float) (now : Z)
  : LocationObject :=
  Build_LocationObject
    (Build_Coords
       (Some (PrimFloat.add 28.6139
                (PrimFloat.mul (PrimFloat.sub random1 0.5) 0.01)))
       (Some (PrimFloat.add 77.209
                (PrimFloat.mul (PrimFloat.sub random2 0.5) 0.01)))
       (Some 10%float) (Some 200%float) (Some 5%float) (Some 90%float))
    (Some now).

(** [testLocation], App.js 288-312. *)
Definition testLocation (sc : scope) (random1 random2 : float) (now : Z)
  : task unit :=
  match database sc with
  | None => ret tt
  | Some _ =>
      try_catch
        (saveLocation sc (mockLocation random1 random2 now) ;;
         loadLocations sc ;;
         loadStats sc ;;
         effect (push_alert
                   (Alert "Test" [Str "Test location added successfully"])))
        (fun _ => ret tt)
  end.

(* ================================================================== *)
(** * Interleaved execution *)

(** The component between two events: the world and the asynchronous
    calls that have been started, in the order they were started.  A call
    that has settled stays in place as a [Return]. *)
Record system : Type := System {
  sys_world : world;
  calls : list (task unit)
}.

(** Calling an [async] function without awaiting it.  A call that
    returns before its first [await] leaves nothing behind. *)
Definition spawn (t : task unit) (s : system) : system :=
  if settled t then s else System (sys_world s) (calls s ++ [t]).

(** The calls that have not settled yet. *)
Definition in_flight (s : system) : list (task unit) :=
  filter (fun t => negb (settled t)) (calls s).

(** The listener [setupNetworkListener] registers at mount, App.js
    175-184: [setIsOnline(state.isConnected)], then [syncData()] when
    connected.  [syncData] is the function of the first render. *)
Definition networkListener (isConnected : bool) (s : system) : system :=
  let s' := System (setIsOnline isConnected (sys_world s)) (calls s) in
  if isConnected then spawn (syncData first_render) s' else s'.

(** "Sync Now": [onPress={syncData}], [disabled={!isOnline}], both of the
    current render. *)
Definition pressSyncNow (s : system) : system :=
  let sc := render (sys_world s) in
  if isOnline sc then spawn (syncData sc) s else s.

Fixpoint resume_nth (i : nat) (l : list (task unit)) (w : world)
  : list (task unit) * world :=
  match l, i with
  | [], _ => ([], w)
  | t :: l', O => let (t', w') := resume t w in (t' :: l', w')
  | t :: l', S i' => let (l'', w') := resume_nth i' l' w in (t :: l'', w')
  end.

(** The operations of the engine, each with the scope of the render
    whose function is called (the background task has none). *)
Inductive operation : Type :=
| SaveLocation (sc : scope) (location : LocationObject)
| BackgroundLocation (locations : option (list LocationObject))
                     (error : option js_error)
| SyncData (sc : scope)
| LoadStats (sc : scope)
| LoadLocations (sc : scope)
| LogToDatabase (sc : scope) (msg : text) (lvl : string)
| InitDatabase (sc : scope)
| ClearDatabase (sc : scope) (choice : button).

Definition perform (o : operation) : task unit :=
  match o with
  | SaveLocation sc location => saveLocation sc location
  | BackgroundLocation locations error =>
      backgroundLocationTask locations error
  | SyncData sc => syncData sc
  | LoadStats sc => loadStats sc
  | LoadLocations sc => loadLocations sc
  | LogToDatabase sc msg lvl => logToDatabase sc msg lvl
  | InitDatabase sc => initDatabase sc
  | ClearDatabase sc choice => clearDatabase sc choice
  end.

(** The operation is a purge that goes through: the handle is set and
    the user confirms. *)
Definition purges (o : operation) : bool :=
  match o with
  | ClearDatabase sc Clear =>
      match database sc with Some _ => true | None => false end
  | _ => false
  end.

(** Operations one after the other, each run to completion. *)
Definition perform_all (ops : list operation) (w : world) : world :=
  fold_left (fun acc o => snd (run (perform o) acc)) ops w.

(** What can happen next: one of the three sync triggers, the start of
    an operation, or the next action of the [i]-th started call. *)
Inductive event : Type :=
| ManualRequest
| Connectivity (isConnected : bool)
| PeriodicWake
| Call (o : operation)
| Resume (i : nat).

Definition step (e : event) (s : system) : system :=
  match e with
  | ManualRequest => pressSyncNow s
  | Connectivity c =>
      networkListener c
        (System (set_connected c (sys_world s)) (calls s))
  | PeriodicWake => spawn (backgroundSyncTask ;; ret tt) s
  | Call o => spawn (perform o) s
  | Resume i =>
      let (l, w) := resume_nth i (calls s) (sys_world s) in System w l
  end.

Definition purge_free (e : event) : bool :=
  match e with
  | Call o => negb (purges o)
  | _ => true
  end.

Definition exec (es : list event) (s : system) : system :=
  fold_left (fun acc e => step e acc) es s.

(** The messages of the audit log, oldest first. *)
Definition logged (w : world) : list text :=
  match file w with
  | None => []
  | Some t => map AppLogs.message (app_logs t)
  end.

Unset Implicit Arguments.

(* ================================================================== *)
(** * The store contract and derived notions *)

(** Running an operation for its effect on the world. *)
Definition after {A} (t : task A) (w : world) : world := snd (run t w).

(** [markSynced(ids)] of the store contract is the [UPDATE] statement of
    [syncData], App.js 373-375. *)
Definition markSynced (ids : list Z) (t : tables) : tables :=
  Sql.update_synced ids t.

(** [listPending(limit)] of the store contract is the [SELECT] of
    [syncData], App.js 357-360. *)
Definition listPending (limit : nat) (t : tables) : list Locations.row :=
  Sql.select_unsynced limit t.

Definition oldest_first (a b : Locations.row) : Prop :=
  Locations.timestamp a <= Locations.timestamp b.

(** The rows of [locations] in a world. *)
Definition samples (w : world) : list Locations.row :=
  match file w with
  | Some t => locations t
  | None => []
  end.

(** The rows of [sync_queue] in a world. *)
Definition outbox (w : world) : list SyncQueue.row :=
  match file w with
  | Some t => sync_queue t
  | None => []
  end.

(** The ids of the batch [syncData] would read now. *)
Definition batch_ids (w : world) : list Z :=
  match file w with
  | Some t => map Locations.id (Sql.select_unsynced batch_limit t)
  | None => []
  end.

(** The row [saveLocation] appends to [locations] for a fix on tables
    [t], and the entry it appends to [sync_queue]. *)
Definition new_location (lat lon : float) (ts : Z) (location : LocationObject)
    (t : tables) : Locations.row :=
  Locations.Row
    (Sql.next_rowid (seq_locations t) (map Locations.id (locations t)))
    lat lon
    (Sql.bind_real (accuracy (coords location)))
    (Sql.bind_real (altitude (coords location)))
    (Sql.bind_real (speed (coords location)))
    (Sql.bind_real (heading (coords location))) ts 0.

Definition new_entry (t : tables) : SyncQueue.row :=
  SyncQueue.Row
    (Sql.next_rowid (seq_sync_queue t) (map SyncQueue.id (sync_queue t)))
    "locations"
    (Sql.next_rowid (seq_locations t) (map Locations.id (locations t)))
    "INSERT".

(** The file holds row [r], as it is. *)
Definition keeps (r : Locations.row) (w : world) : Prop :=
  exists t, file w = Some t /\ In r (locations t).

(** [safe P t]: every action [t] can ever perform keeps [P]. *)
Inductive safe (P : world -> Prop) {A : Type} : task A -> Prop :=
| safe_Return (r : completion A) : safe P (Return r)
| safe_Act (X : Type) (a : action X) (k : completion X -> task A) :
    (forall w, P w -> P (snd (a w))) ->
    (forall r, safe P (k r)) ->
    safe P (Act a k).

Definition comma : ascii := ","%char.

Fixpoint has_comma (s : string) : bool :=
  match s with
  | EmptyString => false
  | String c s' => Ascii.eqb c comma || has_comma s'
  end.

(** Entry [q] refers to sample [r]. *)
Definition references (r : Locations.row) (q : SyncQueue.row) : bool :=
  String.eqb (SyncQueue.table_name q) "locations"
  && (SyncQueue.record_id q =? Locations.id r).

Definition entries_for (r : Locations.row) (t : tables)
  : list SyncQueue.row :=
  filter (references r) (sync_queue t).

(** Every pending sample has exactly one queue entry that refers to it. *)
Definition paired (t : tables) : Prop :=
  forall r, In r (locations t) -> Locations.synced r = 0 ->
            List.length (entries_for r t) = 1%nat.

(** The largest rowid [locations] has held. *)
Definition high_water (t : tables) : Z :=
  Z.max (seq_locations t) (Sql.max_rowid (map Locations.id (locations t))).

(** [paired], with what keeps it: ids are unique and no entry refers to
    an id that has not been given out yet. *)
Definition well_paired (t : tables) : Prop :=
  paired t /\
  NoDup (map Locations.id (locations t)) /\
  (forall q, In q (sync_queue t) -> SyncQueue.record_id q <= high_water t).

(** The changes an operation of the component makes to samples and
    queue. *)
Inductive store_change (t t' : tables) : Prop :=
| Unchanged :
    locations t' = locations t -> sync_queue t' = sync_queue t ->
    seq_locations t' = seq_locations t -> store_change t t'
| Inserted (row : Locations.row) :
    Locations.id row = high_water t + 1 ->
    locations t' = (locations t ++ [row])%list ->
    sync_queue t' = (sync_queue t ++ [new_entry t])%list ->
    seq_locations t' = high_water t + 1 -> store_change t t'
| Marked (ids : list Z) :
    locations t' = locations (Sql.update_synced ids t) ->
    sync_queue t'
    = sync_queue (Sql.delete_sync_queue "locations"
                    (SqlText (join "," ids)) t) ->
    seq_locations t' = seq_locations t -> store_change t t'
| Cleared :
    locations t' = [] -> sync_queue t' = [] ->
    seq_locations t' = seq_locations t -> store_change t t'.

(** The operations of the component: all but the background task. *)
Definition of_component (o : operation) : bool :=
  match o with
  | BackgroundLocation _ _ => false
  | _ => true
  end.

(** A property of the tables, as a property of the world: the schema
    exists and the tables have it. *)
Definition on_file (Q : tables -> Prop) (w : world) : Prop :=
  exists t, file w = Some t /\ Q t.

(** Statement [stmt] keeps [Q] whenever it succeeds. *)
Definition stable (Q : tables -> Prop) {X : Type}
    (stmt : tables -> Sql.result X) : Prop :=
  forall t x t', stmt t = inr (x, t') -> Q t -> Q t'.

(** Every statement the engine writes with, the purge apart, keeps [Q]. *)
Definition kept_by_writes (Q : tables -> Prop) : Prop :=
  (forall lat lon acc alt spd hdg ts,
      stable Q (Sql.insert_location lat lon acc alt spd hdg ts 0)) /\
  (forall tn rid op, stable Q (Sql.insert_sync_queue tn rid op)) /\
  (forall msg lvl, stable Q (Sql.insert_app_log msg lvl)) /\
  (forall ids, stable Q (changes (Sql.update_synced ids))) /\
  (forall tn v, stable Q (changes (Sql.delete_sync_queue tn v))).

Definition kept_by_purge (Q : tables -> Prop) : Prop :=
  stable Q (changes Sql.delete_all).

(** The events whose started operations are all [allowed]. *)
Definition event_allowed (allowed : operation -> bool) (e : event) : bool :=
  match e with
  | Call o => allowed o
  | _ => true
  end.

Definition not_purge (o : operation) : bool := negb (purges o).

Definition any_operation (o : operation) : bool := true.

(** What happens by itself: connectivity changes, periodic wakes, and the
    progress of what they started. *)
Definition automatic (e : event) : bool :=
  match e with
  | Connectivity _ | PeriodicWake | Resume _ => true
  | ManualRequest | Call _ => false
  end.

(** Every [synced] flag is 0 or 1. *)
Definition flags_binary (t : tables) : Prop :=
  forall r, In r (locations t) ->
            Locations.synced r = 0 \/ Locations.synced r = 1.

(** A sample without its flag. *)
Definition unflagged (r : Locations.row) : Locations.row :=
  Locations.Row (Locations.id r) (Locations.latitude r)
    (Locations.longitude r) (Locations.accuracy r) (Locations.altitude r)
    (Locations.speed r) (Locations.heading r) (Locations.timestamp r) 0.

(** [l'] is [l] with rows added at the end. *)
Definition extends {A : Type} (l l' : list A) : Prop :=
  exists added, l' = (l ++ added)%list.

(** How many samples are pending. *)
Definition pending_count (t : tables) : nat :=
  List.length (filter Sql.is_unsynced (locations t)).

(** No id of [locations] exceeds the counter, and no two rows share one. *)
Definition ids_issued (t : tables) : Prop :=
  (forall r, In r (locations t) -> Locations.id r <= seq_locations t) /\
  NoDup (map Locations.id (locations t)).

(** [t'] comes after [t0]: the counter has not gone back, and a row of
    [t'] whose id had been given out in [t0] is a row of [t0], its flag
    apart. *)
Definition succeeds (t0 t' : tables) : Prop :=
  seq_locations t0 <= seq_locations t' /\
  ids_issued t' /\
  (forall r', In r' (locations t') ->
              Locations.id r' <= seq_locations t0 ->
              exists r, In r (locations t0) /\ unflagged r' = unflagged r).

Definition newest_first (a b : Locations.row) : Prop :=
  Locations.timestamp b <= Locations.timestamp a.

(** [w'] is [w] but for what is known of the connectivity. *)
Definition connectivity_apart (w w' : world) : Prop :=
  file w' = file w /\
  state_database w' = state_database w /\
  state_stats w' = state_stats w /\
  state_locations w' = state_locations w /\
  alerts w' = alerts w.

(** The statistics row of tables [t]. *)
Definition stats_of (t : tables) : stats_row :=
  Stats (Z.of_nat (List.length (locations t)))
        (Sql.sum_case Sql.is_synced (locations t))
        (Sql.sum_case Sql.is_unsynced (locations t)).

(** The tables after [saveLocation] has stored a fix with latitude [lat],
    longitude [lon] and timestamp [ts]: the sample, its queue entry and
    the log entry. *)
Definition saved (location : LocationObject) (lat lon : float) (ts : Z)
    (t : tables) : tables :=
  Tables (locations t ++ [new_location lat lon ts location t])
         (sync_queue t ++ [new_entry t])
         (app_logs t ++
            [AppLogs.Row
               (Sql.next_rowid (seq_app_logs t) (map AppLogs.id (app_logs t)))
               [Str "Location saved: "; Fixed6 lat; Str ", "; Fixed6 lon]
               "info"])
         (Sql.next_rowid (seq_locations t) (map Locations.id (locations t)))
         (Sql.next_rowid (seq_sync_queue t)
            (map SyncQueue.id (sync_queue t)))
         (Sql.next_rowid (seq_app_logs t) (map AppLogs.id (app_logs t))).

(** A fix that has a latitude and a longitude that are numbers (present
    and not NaN) and a timestamp. *)
Definition is_complete (location : LocationObject) : bool :=
  match Sql.bind_real (latitude (coords location)),
        Sql.bind_real (longitude (coords location)),
        timestamp location with
  | Some _, Some _, Some _ => true
  | _, _, _ => false
  end.

(** A binary64 value, seen through its specification, that is finite;
    one that is finite and not zero. *)
Definition is_finite_SF (x : SpecFloat.spec_float) : bool :=
  match x with
  | SpecFloat.S754_zero _ | SpecFloat.S754_finite _ _ _ => true
  | _ => false
  end.

Definition is_nonzero_SF (x : SpecFloat.spec_float) : bool :=
  match x with
  | SpecFloat.S754_finite _ _ _ => true
  | _ => false
  end.

(** The tables after a sync has read the batch [b] on [t]: the batch
    marked, the [DELETE] done, the sync logged. *)
Definition synced_batch (b : list Locations.row) (t : tables) : tables :=
  Tables
    (locations (Sql.update_synced (map Locations.id b) t))
    (sync_queue (Sql.delete_sync_queue "locations"
                   (SqlText (join "," (map Locations.id b))) t))
    (app_logs t ++
       [AppLogs.Row
          (Sql.next_rowid (seq_app_logs t) (map AppLogs.id (app_logs t)))
          [Str "Synced "; Num (Z.of_nat (List.length b)); Str " locations"]
          "info"])
    (seq_locations t) (seq_sync_queue t)
    (Sql.next_rowid (seq_app_logs t) (map AppLogs.id (app_logs t))).

(** The queue entries that refer to a pending sample. *)
Definition live_entries (t : tables) : list SyncQueue.row :=
  filter (fun q => existsb (fun r => Sql.is_unsynced r && references r q)
                           (locations t))
         (sync_queue t).

(** The numbers of a statistics row fit together: synced and pending make
    up the total; over no rows both sums are NULL. *)
Definition adds_up (row : stats_row) : Prop :=
  match synced row, pending row with
  | Some s, Some p => 0 <= s /\ 0 <= p /\ s + p = total row
  | None, None => total row = 0
  | _, _ => False
  end.

(** The log and the samples of [t'] continue those of [t]. *)
Definition log_continues (t t' : tables) : Prop :=
  extends (app_logs t) (app_logs t').

Definition samples_continue (t t' : tables) : Prop :=
  extends (map unflagged (locations t)) (map unflagged (locations t')).

(* ================================================================== *)
(** * Sample data *)

(** A fix with the given coordinates and capture time, the optional
    readings absent. *)
Definition fix_at (lat lon : float) (ts : Z) : LocationObject :=
  Build_LocationObject
    (Build_Coords (Some lat) (Some lon) None None None None) (Some ts).

(** The world once [initDatabase] has run and the component has rendered
    again: the schema exists and [database] is set. *)
Definition ready_world : world :=
  setDatabase TrackerDb (mount_world (Some empty_tables) true).

Definition ready : scope := render ready_world.

(** A store with one synced and one pending sample. *)
Definition one_synced_one_pending : tables :=
  Tables [Locations.Row 1 28.1 77.2 None None None None 10 1;
          Locations.Row 2 28.2 77.3 None None None None 20 0]
         [SyncQueue.Row 2 "locations" 2 "INSERT"] [] 2 2 0.

Definition three_samples : world :=
  perform_all [SaveLocation ready (fix_at 28.1 77.2 1);
               SaveLocation ready (fix_at 28.2 77.3 2);
               SaveLocation ready (fix_at 28.3 77.4 3)]
              ready_world.

(** A store with one pending sample, handle set, online. *)
Definition one_pending : world :=
  after (saveLocation ready (fix_at 28.1 77.2 1)) ready_world.

(** The two started calls take turns, [n] actions each. *)
Definition take_turns (n : nat) : list event :=
  List.concat (repeat [Resume 0; Resume 1] n).

Arguments join : simpl never.
Arguments Sql.select_unsynced : simpl never.
Arguments Sql.select_recent : simpl never.
Arguments Sql.next_rowid : simpl never.

(** Unfolding one awaited call or effect of a running task, given what
    the file holds. *)
Ltac run_action :=
  unfold await, effect, execAsync, runAsync, getAllAsync, changes,
         execAsync_create_tables, openDatabaseAsync, NetInfo_fetch; simpl.

(** Closing the conjuncts of a concrete scenario by evaluation. *)
Ltac conjuncts := repeat match goal with |- _ /\ _ => split end.
Ltac evaluate := conjuncts; vm_compute; reflexivity.

(* ================================================================== *)
(** * Running a task *)

Lemma run_bind {A B} (t : task A) (f : A -> task B) (w : world) :
  run (bind t f) w =
  match run t w with
  | (Resolved a, w') => run (f a) w'
  | (Rejected e, w') => (Rejected e, w')
  end.
Proof.
  revert w. induction t as [[a | e] | X a k IH]; intros w; simpl.
  - reflexivity.
  - reflexivity.
  - destruct (a w) as [r w']. apply IH.
Qed.

Lemma run_try_catch {A} (t : task A) (h : js_error -> task A) (w : world) :
  run (try_catch t h) w =
  match run t w with
  | (Resolved a, w') => (Resolved a, w')
  | (Rejected e, w') => run (h e) w'
  end.
Proof.
  revert w. induction t as [[a | e] | X a k IH]; intros w; simpl.
  - reflexivity.
  - reflexivity.
  - destruct (a w) as [r w']. apply IH.
Qed.

Lemma run_await {X} (a : action X) (w : world) : run (await a) w = a w.
Proof. unfold await. simpl. destruct (a w); reflexivity. Qed.

Lemma run_effect (f : world -> world) (w : world) :
  run (effect f) w = (Resolved tt, f w).
Proof. reflexivity. Qed.

Lemma runAsync_ok {X} (db : handle) (name : string)
      (stmt : tables -> Sql.result X) (w : world) (t t' : tables) (x : X) :
  file w = Some t -> stmt t = inr (x, t') ->
  runAsync db name stmt w = (Resolved x, with_file (Some t') w).
Proof. intros F E. unfold runAsync. rewrite F, E. reflexivity. Qed.

Lemma runAsync_error {X} (db : handle) (name : string)
      (stmt : tables -> Sql.result X) (w : world) (t : tables)
      (e : js_error) :
  file w = Some t -> stmt t = inl e ->
  runAsync db name stmt w = (Rejected e, w).
Proof. intros F E. unfold runAsync. rewrite F, E. reflexivity. Qed.

(* ================================================================== *)
(** * The store handle is unset *)

Lemma logToDatabase_unset (sc : scope) (msg : text) (lvl : string) :
  database sc = None -> logToDatabase sc msg lvl = ret tt.
Proof. intros H. unfold logToDatabase. rewrite H. reflexivity. Qed.

(** C5, as the code has it: [saveLocation] called while the captured store
    handle is unset returns normally, [undefined] and no error, and leaves
    the whole world as it was: no row, no queue entry, no log entry, no
    alert.  The fix is dropped silently. *)
Theorem saveLocation_unset_handle_drops_fix :
  forall (sc : scope) (location : LocationObject) (w : world),
    database sc = None ->
    run (saveLocation sc location) w = (Resolved tt, w).
Proof.
  intros sc location w H. unfold saveLocation. rewrite H. reflexivity.
Qed.

Lemma saveLocation_unset_handle_drops_fix_witness :
  database first_render = None /\
  run (saveLocation first_render (fix_at 28.1 77.2 1))
      (mount_world (Some empty_tables) true)
  = (Resolved tt, mount_world (Some empty_tables) true).
Proof.
  split; [reflexivity |].
  apply (saveLocation_unset_handle_drops_fix first_render
           (fix_at 28.1 77.2 1) (mount_world (Some empty_tables) true)).
  reflexivity.
Defined.

(** C5 as stated fails: before initialisation the call does not reject
    with any error, it resolves, and the store holds nothing afterwards. *)
Lemma saveLocation_not_ready_is_silent :
  database first_render = None /\
  (forall e : js_error,
      fst (run (saveLocation first_render (fix_at 28.1 77.2 1))
               (mount_world (Some empty_tables) true))
      <> Rejected e) /\
  file (after (saveLocation first_render (fix_at 28.1 77.2 1))
              (mount_world (Some empty_tables) true))
  = Some empty_tables /\
  alerts (after (saveLocation first_render (fix_at 28.1 77.2 1))
                (mount_world (Some empty_tables) true)) = [].
Proof.
  repeat split; try reflexivity.
  intros e. simpl. discriminate.
Qed.

(** C10: [logToDatabase] with an unset captured handle resolves and
    changes nothing; and [initDatabase], which the mount effect runs in the
    scope of the first render, creates the schema and sets the [database]
    state but leaves the audit log as it found it: "Database initialized
    successfully" is not recorded. *)
Theorem logToDatabase_unset_handle_noop :
  forall (sc : scope) (msg : text) (lvl : string) (w : world),
    database sc = None ->
    run (logToDatabase sc msg lvl) w = (Resolved tt, w) /\
    fst (run (initDatabase sc) w) = Resolved tt /\
    logged (after (initDatabase sc) w) = logged w /\
    state_database (after (initDatabase sc) w) = Some TrackerDb /\
    file (after (initDatabase sc) w)
    = Some (match file w with Some t => t | None => empty_tables end).
Proof.
  intros sc msg lvl w H.
  split.
  - rewrite (logToDatabase_unset sc msg lvl H). reflexivity.
  - unfold after, initDatabase.
    rewrite (logToDatabase_unset sc _ _ H).
    unfold logged. simpl. unfold execAsync_create_tables. simpl.
    destruct (file w) as [t |] eqn:F; simpl; rewrite ?F; auto.
Qed.

Lemma logToDatabase_unset_handle_noop_witness :
  database first_render = None /\
  logged (after (initDatabase first_render) (mount_world None true)) = [] /\
  file (after (initDatabase first_render) (mount_world None true))
  = Some empty_tables.
Proof.
  split; [reflexivity |].
  destruct (logToDatabase_unset_handle_noop first_render
              [Str "Database initialized successfully"] info
              (mount_world None true) eq_refl)
    as (_ & _ & L & _ & F).
  split; [exact L | exact F].
Defined.

(* ================================================================== *)
(** * Marking a batch *)

Lemma set_synced_idem (r : Locations.row) :
  Sql.set_synced (Sql.set_synced r) = Sql.set_synced r.
Proof. reflexivity. Qed.

Lemma set_synced_id (r : Locations.row) :
  Sql.set_synced r = r <-> Locations.synced r = 1.
Proof.
  destruct r as [i la lo ac al sp he ts sy]; unfold Sql.set_synced; simpl.
  split; intros H.
  - injection H as H. symmetry. exact H.
  - subst sy. reflexivity.
Qed.

Lemma mem_app (i : Z) (l1 l2 : list Z) :
  Sql.mem i (l1 ++ l2) = Sql.mem i l1 || Sql.mem i l2.
Proof. unfold Sql.mem. apply existsb_app. Qed.

Lemma mem_In (i : Z) (l : list Z) : Sql.mem i l = true <-> In i l.
Proof.
  unfold Sql.mem. rewrite existsb_exists. split.
  - intros (x & Hx & E). apply Z.eqb_eq in E. subst x. exact Hx.
  - intros H. exists i. split; [exact H | apply Z.eqb_refl].
Qed.

Lemma tables_eq_locations (l : list Locations.row) (t : tables) :
  l = locations t ->
  Tables l (sync_queue t) (app_logs t)
         (seq_locations t) (seq_sync_queue t) (seq_app_logs t) = t.
Proof. intros ->. destruct t; reflexivity. Qed.

(** C7: marking is idempotent.  Marking the same ids twice gives what
    marking them once gives; marking two id lists one after the other,
    whatever they share, gives what marking their concatenation once gives
    and does not depend on the order of the two calls; marking ids whose
    rows are all synced already changes nothing; and on an existing schema
    the statement never fails. *)
Theorem markSynced_idempotent :
  forall (ids ids' : list Z) (t : tables),
    markSynced ids (markSynced ids t) = markSynced ids t /\
    markSynced ids' (markSynced ids t) = markSynced (ids ++ ids') t /\
    markSynced ids' (markSynced ids t) = markSynced ids (markSynced ids' t) /\
    ((forall r, In r (locations t) ->
                Sql.mem (Locations.id r) ids = true ->
                Locations.synced r = 1) ->
     markSynced ids t = t) /\
    (forall (db : handle) (w : world),
        file w = Some t ->
        runAsync db "locations" (changes (Sql.update_synced ids)) w
        = (Resolved tt, with_file (Some (markSynced ids t)) w)).
Proof.
  intros ids ids' t.
  assert (two : forall a b,
             markSynced b (markSynced a t) = markSynced (a ++ b) t).
  { intros a b. unfold markSynced, Sql.update_synced. simpl. f_equal.
    rewrite map_map. apply map_ext. intros r. rewrite mem_app.
    destruct (Sql.mem (Locations.id r) a) eqn:Ha; simpl.
    - destruct (Sql.mem (Locations.id r) b); reflexivity.
    - reflexivity. }
  assert (same : forall a b,
             (forall i, Sql.mem i a = Sql.mem i b) ->
             markSynced a t = markSynced b t).
  { intros a b H. unfold markSynced, Sql.update_synced. f_equal.
    apply map_ext. intros r. rewrite H. reflexivity. }
  repeat split.
  - rewrite two. apply same. intros i. rewrite mem_app.
    destruct (Sql.mem i ids); reflexivity.
  - apply two.
  - rewrite !two. apply same. intros i. rewrite !mem_app. apply orb_comm.
  - intros H. unfold markSynced, Sql.update_synced.
    apply tables_eq_locations.
    rewrite <- (map_id (locations t)) at 2. apply map_ext_in. intros r Hr.
    destruct (Sql.mem (Locations.id r) ids) eqn:M; [| reflexivity].
    apply set_synced_id. apply H; assumption.
  - intros db w F. unfold runAsync, changes. rewrite F. reflexivity.
Qed.

Lemma markSynced_idempotent_witness :
  markSynced [1] one_synced_one_pending = one_synced_one_pending /\
  markSynced [2; 1] (markSynced [1; 2] one_synced_one_pending)
  = markSynced ([1; 2] ++ [2; 1]) one_synced_one_pending.
Proof.
  destruct (markSynced_idempotent [1] [2; 1] one_synced_one_pending)
    as (_ & _ & _ & N & _).
  destruct (markSynced_idempotent [1; 2] [2; 1] one_synced_one_pending)
    as (_ & U & _).
  split; [| exact U].
  apply N. intros r Hr M. simpl in Hr.
  destruct Hr as [<- | [<- | []]].
  - reflexivity.
  - discriminate M.
Defined.

(* ================================================================== *)
(** * Reading the pending batch *)

Lemma insert_sorted_perm {A} (le : A -> A -> bool) (x : A) (l : list A) :
  Permutation (Sql.insert_sorted le x l) (x :: l).
Proof.
  induction l as [| y l IH]; simpl.
  - apply Permutation_refl.
  - destruct (le x y).
    + apply Permutation_refl.
    + eapply perm_trans; [apply perm_skip, IH | apply perm_swap].
Qed.

Lemma order_by_perm {A} (le : A -> A -> bool) (l : list A) :
  Permutation (Sql.order_by le l) l.
Proof.
  induction l as [| x l IH]; simpl.
  - apply perm_nil.
  - eapply perm_trans; [apply insert_sorted_perm | apply perm_skip, IH].
Qed.

Lemma insert_sorted_asc (x : Locations.row) (l : list Locations.row) :
  StronglySorted oldest_first l ->
  StronglySorted oldest_first (Sql.insert_sorted Sql.timestamp_asc x l).
Proof.
  induction 1 as [| y l S IH F]; simpl.
  - repeat constructor.
  - unfold Sql.timestamp_asc at 1.
    destruct (Z.leb_spec (Locations.timestamp x) (Locations.timestamp y))
      as [L | L].
    + constructor.
      * constructor; assumption.
      * constructor; [exact L |].
        eapply Forall_impl; [| exact F].
        intros z Hz. unfold oldest_first in *. lia.
    + constructor; [exact IH |].
      eapply Permutation_Forall.
      * apply Permutation_sym, insert_sorted_perm.
      * constructor; [unfold oldest_first; lia | exact F].
Qed.

Lemma order_by_asc (l : list Locations.row) :
  StronglySorted oldest_first (Sql.order_by Sql.timestamp_asc l).
Proof.
  induction l as [| x l IH]; simpl.
  - constructor.
  - apply insert_sorted_asc, IH.
Qed.

Lemma StronglySorted_app_inv {A} (R : A -> A -> Prop) (l1 l2 : list A) :
  StronglySorted R (l1 ++ l2) ->
  StronglySorted R l1 /\
  (forall x y, In x l1 -> In y l2 -> R x y).
Proof.
  induction l1 as [| a l1 IH]; simpl; intros S.
  - split; [constructor | intros x y []].
  - inversion S as [| a' l' S' F]; subst.
    destruct (IH S') as [S1 C]. split.
    + constructor; [exact S1 |].
      rewrite Forall_forall in *. intros z Hz. apply F, in_or_app. now left.
    + intros x y [<- | Hx] Hy.
      * rewrite Forall_forall in F. apply F, in_or_app. now right.
      * apply C; assumption.
Qed.

(** What [logToDatabase] does to the file when the handle is set. *)
Lemma logToDatabase_run (sc : scope) (db : handle) (msg : text)
      (lvl : string) (w : world) (t : tables) :
  database sc = Some db -> file w = Some t ->
  run (logToDatabase sc msg lvl) w =
  (Resolved tt,
   with_file
     (Some (Tables (locations t) (sync_queue t)
              (app_logs t ++
                 [AppLogs.Row (Sql.next_rowid (seq_app_logs t)
                                 (map AppLogs.id (app_logs t))) msg lvl])
              (seq_locations t) (seq_sync_queue t)
              (Sql.next_rowid (seq_app_logs t)
                 (map AppLogs.id (app_logs t))))) w).
Proof.
  intros D F. unfold logToDatabase. rewrite D. run_action.
  rewrite F. reflexivity.
Qed.

Lemma logToDatabase_resolves (sc : scope) (msg : text) (lvl : string)
      (w : world) :
  fst (run (logToDatabase sc msg lvl) w) = Resolved tt.
Proof.
  unfold logToDatabase. destruct (database sc) as [db |]; [| reflexivity].
  run_action. destruct (file w); reflexivity.
Qed.

(** [logToDatabase] touches nothing but [app_logs] and its counter. *)
Lemma logToDatabase_frame (sc : scope) (msg : text) (lvl : string)
      (w : world) :
  let w' := snd (run (logToDatabase sc msg lvl) w) in
  option_map locations (file w') = option_map locations (file w) /\
  option_map sync_queue (file w') = option_map sync_queue (file w) /\
  option_map seq_locations (file w') = option_map seq_locations (file w) /\
  option_map seq_sync_queue (file w') = option_map seq_sync_queue (file w) /\
  state_database w' = state_database w /\
  state_isOnline w' = state_isOnline w /\
  alerts w' = alerts w.
Proof.
  unfold logToDatabase. destruct (database sc) as [db |]; simpl; [| tauto].
  run_action. destruct (file w) as [t |] eqn:F; simpl; rewrite ?F; simpl; tauto.
Qed.

Lemma loadLocations_file (sc : scope) (w : world) :
  fst (run (loadLocations sc) w) = Resolved tt /\
  file (snd (run (loadLocations sc) w)) = file w /\
  alerts (snd (run (loadLocations sc) w)) = alerts w.
Proof.
  unfold loadLocations. destruct (database sc) as [db |]; simpl; [| tauto].
  run_action. destruct (file w) as [t |] eqn:F; simpl; rewrite ?F; tauto.
Qed.

Lemma loadStats_file (sc : scope) (w : world) :
  fst (run (loadStats sc) w) = Resolved tt /\
  file (snd (run (loadStats sc) w)) = file w /\
  alerts (snd (run (loadStats sc) w)) = alerts w.
Proof.
  unfold loadStats. destruct (database sc) as [db |]; simpl; [| tauto].
  run_action. destruct (file w) as [t |] eqn:F; simpl; rewrite ?F; tauto.
Qed.

(** The tables [syncData] leaves behind when it runs on [t] with the
    handle set and online. *)
Lemma syncData_file (sc : scope) (db : handle) (w : world) (t : tables) :
  database sc = Some db -> isOnline sc = true -> file w = Some t ->
  exists t',
    file (after (syncData sc) w) = Some t' /\
    locations t'
    = locations (Sql.update_synced
                   (map Locations.id (Sql.select_unsynced batch_limit t)) t) /\
    seq_locations t' = seq_locations t /\
    sync_queue t'
    = match Sql.select_unsynced batch_limit t with
      | [] => sync_queue t
      | b => sync_queue
               (Sql.delete_sync_queue "locations"
                  (SqlText (join "," (map Locations.id b))) t)
      end.
Proof.
  intros D O F. unfold after, syncData. rewrite D, O. simpl negb. cbv iota.
  rewrite run_try_catch, run_bind, run_await.
  unfold getAllAsync at 1. rewrite F. cbv beta iota.
  destruct (Sql.select_unsynced batch_limit t) as [| r b] eqn:B.
  - rewrite run_bind, (logToDatabase_run sc db _ _ w t D F), run_effect.
    eexists. split; [reflexivity |]. simpl. repeat split.
    rewrite <- (map_id (locations t)) at 1. apply map_ext. reflexivity.
  - cbv zeta. set (ids := map Locations.id (r :: b)).
    rewrite run_bind, run_await. unfold runAsync at 1, changes at 1.
    rewrite F. cbv beta iota.
    rewrite run_bind, run_await. unfold runAsync at 1, changes at 1.
    simpl file. cbv beta iota.
    rewrite run_bind.
    erewrite logToDatabase_run; [| exact D | reflexivity].
    simpl. rewrite run_bind.
    match goal with
    | |- context [run (loadLocations sc) ?w0] =>
        destruct (loadLocations_file sc w0) as (R1 & F1 & _);
        destruct (run (loadLocations sc) w0) as [r1 w1]
    end.
    simpl in R1, F1. subst r1.
    destruct (loadStats_file sc w1) as (R2 & F2 & _).
    destruct (run (loadStats sc) w1) as [r2 w2].
    simpl in R2, F2. subst r2. simpl. rewrite F2, F1.
    eexists. split; [reflexivity |]. simpl. repeat split.
Qed.

(** C8: the batch [syncData] reads.  It is sorted by capture time, oldest
    first; it holds at most [limit] rows, as many as there are pending rows
    when those are fewer; together with the rows left out it is exactly
    the pending rows of the table, and every row left out was captured no
    earlier than every row of the batch.  With the handle set and online,
    the rows [syncData] marks are those of the batch of limit 100. *)
Theorem listPending_oldest_pending_first :
  forall (limit : nat) (t : tables) (sc : scope) (db : handle) (w : world),
    database sc = Some db -> isOnline sc = true -> file w = Some t ->
    StronglySorted oldest_first (listPending limit t) /\
    List.length (listPending limit t)
    = Nat.min limit (List.length (filter Sql.is_unsynced (locations t))) /\
    (forall r, In r (listPending limit t) ->
               In r (locations t) /\ Locations.synced r = 0) /\
    (exists rest,
        Permutation (listPending limit t ++ rest)%list
                    (filter Sql.is_unsynced (locations t)) /\
        (forall x y, In x (listPending limit t) -> In y rest ->
                     oldest_first x y) /\
        (rest <> [] -> List.length (listPending limit t) = limit)) /\
    (exists t',
        file (after (syncData sc) w) = Some t' /\
        locations t'
        = locations
            (markSynced (map Locations.id (listPending 100 t)) t)).
Proof.
  intros limit t sc db w HD HO HF. unfold listPending, Sql.select_unsynced.
  set (p := filter Sql.is_unsynced (locations t)).
  set (s := Sql.order_by Sql.timestamp_asc p).
  assert (Ps : Permutation s p) by apply order_by_perm.
  assert (Ss : StronglySorted oldest_first s) by apply order_by_asc.
  assert (D : (firstn limit s ++ skipn limit s)%list = s)
    by apply firstn_skipn.
  rewrite <- D in Ss. apply StronglySorted_app_inv in Ss.
  destruct Ss as [S1 C].
  split; [exact S1 |].
  split.
  { rewrite length_firstn. rewrite (Permutation_length Ps). reflexivity. }
  split.
  { intros r Hr.
    assert (Hp : In r p).
    { eapply Permutation_in; [exact Ps |].
      rewrite <- D. apply in_or_app. now left. }
    unfold p in Hp. apply filter_In in Hp. destruct Hp as [Hl Hu].
    split; [exact Hl |]. unfold Sql.is_unsynced in Hu.
    apply Z.eqb_eq. exact Hu. }
  split.
  { exists (skipn limit s). split; [rewrite D; exact Ps |].
    split; [exact C |].
    intros NE. rewrite length_firstn.
    destruct (Nat.le_gt_cases (List.length s) limit) as [L | L].
    - exfalso. apply NE. apply skipn_all2. exact L.
    - apply Nat.min_l. apply Nat.lt_le_incl. exact L. }
  destruct (syncData_file sc db w t HD HO HF) as (t' & F' & L' & _).
  exists t'. split; [exact F' | exact L'].
Qed.

Lemma listPending_oldest_pending_first_witness :
  database ready = Some TrackerDb /\
  isOnline ready = true /\
  file (with_file (Some one_synced_one_pending) ready_world)
  = Some one_synced_one_pending /\
  List.length (listPending 100 one_synced_one_pending) = 1%nat.
Proof.
  destruct (listPending_oldest_pending_first
              100 one_synced_one_pending ready TrackerDb
              (with_file (Some one_synced_one_pending) ready_world)
              eq_refl eq_refl eq_refl) as (_ & L & _).
  split; [reflexivity |]. split; [reflexivity |]. split; [reflexivity |].
  exact L.
Defined.

(* ================================================================== *)
(** * Properties every action of a task preserves *)

Section Safe.
Variable P : world -> Prop.

Lemma safe_bind {A B} (t : task A) (f : A -> task B) :
  safe P t -> (forall a, safe P (f a)) -> safe P (bind t f).
Proof.
  intros St Sf. induction St as [[a | e] | X a k Ha Hk IH]; simpl.
  - apply Sf.
  - constructor.
  - constructor; [exact Ha | exact IH].
Qed.

Lemma safe_try_catch {A} (t : task A) (h : js_error -> task A) :
  safe P t -> (forall e, safe P (h e)) -> safe P (try_catch t h).
Proof.
  intros St Sh. induction St as [[a | e] | X a k Ha Hk IH]; simpl.
  - constructor.
  - apply Sh.
  - constructor; [exact Ha | exact IH].
Qed.

Lemma safe_await {X} (a : action X) :
  (forall w, P w -> P (snd (a w))) -> safe P (await a).
Proof. intros H. constructor; [exact H | intros r; constructor]. Qed.

Lemma safe_effect (f : world -> world) :
  (forall w, P w -> P (f w)) -> safe P (effect f).
Proof. intros H. constructor; [exact H | intros r; constructor]. Qed.

Lemma safe_run {A} (t : task A) (w : world) :
  safe P t -> P w -> P (snd (run t w)).
Proof.
  intros St. revert w. induction St as [r | X a k Ha Hk IH]; intros w Pw.
  - exact Pw.
  - simpl. specialize (Ha w Pw). destruct (a w) as [r w']. apply IH, Ha.
Qed.

Lemma safe_resume {A} (t : task A) (w : world) :
  safe P t -> P w -> safe P (fst (resume t w)) /\ P (snd (resume t w)).
Proof.
  intros St Pw. destruct St as [r | X a k Ha Hk]; simpl.
  - split; [constructor | exact Pw].
  - specialize (Ha w Pw). destruct (a w) as [r w']. split; [apply Hk | exact Ha].
Qed.

Lemma safe_resume_nth (i : nat) (l : list (task unit)) (w : world) :
  Forall (safe P) l -> P w ->
  Forall (safe P) (fst (resume_nth i l w)) /\ P (snd (resume_nth i l w)).
Proof.
  intros Sl. revert i w. induction Sl as [| t l St Sl IH]; intros i w Pw.
  - destruct i; simpl; auto.
  - destruct i as [| i]; simpl.
    + destruct (safe_resume t w St Pw) as [S' P'].
      destruct (resume t w) as [t' w']. simpl in *. auto.
    + destruct (IH i w Pw) as [S' P'].
      destruct (resume_nth i l w) as [l' w']. simpl in *. auto.
Qed.

Lemma safe_spawn (t : task unit) (s : system) :
  safe P t -> Forall (safe P) (calls s) -> P (sys_world s) ->
  Forall (safe P) (calls (spawn t s)) /\ P (sys_world (spawn t s)).
Proof.
  intros St Sl Pw. unfold spawn. destruct (settled t); simpl; [auto |].
  split; [| exact Pw]. apply Forall_app. auto.
Qed.

End Safe.

(* ================================================================== *)
(** * A synced row stays synced *)

Section Monotonic.
Variable r : Locations.row.
Hypothesis r_synced : Locations.synced r = 1.

Lemma holds_same_file (w w' : world) :
  file w' = file w -> (keeps r) w -> (keeps r) w'.
Proof. intros E (t & F & I). exists t. rewrite E. auto. Qed.

Lemma holds_runAsync {X} (db : handle) (name : string)
      (stmt : tables -> Sql.result X) :
  (forall t x t', stmt t = inr (x, t') ->
                  In r (locations t) -> In r (locations t')) ->
  forall w, (keeps r) w -> (keeps r) (snd (runAsync db name stmt w)).
Proof.
  intros H w (t & F & I). unfold runAsync. rewrite F.
  destruct (stmt t) as [e | [x t']] eqn:E; simpl.
  - exists t. auto.
  - exists t'. split; [reflexivity | eapply H; eauto].
Qed.

Lemma holds_getAllAsync {X} (db : handle) (name : string)
      (q : tables -> list X) :
  forall w, (keeps r) w -> (keeps r) (snd (getAllAsync db name q w)).
Proof.
  intros w H. unfold getAllAsync. destruct (file w); exact H.
Qed.

Lemma holds_create_tables (db : handle) :
  forall w, (keeps r) w -> (keeps r) (snd (execAsync_create_tables db w)).
Proof.
  intros w (t & F & I). unfold execAsync_create_tables. rewrite F.
  exists t. auto.
Qed.

Lemma insert_location_keeps lat lon acc alt spd hdg ts syn t x t' :
  Sql.insert_location lat lon acc alt spd hdg ts syn t = inr (x, t') ->
  In r (locations t) -> In r (locations t').
Proof.
  unfold Sql.insert_location.
  destruct (Sql.bind_real lat); [| discriminate].
  destruct (Sql.bind_real lon); [| discriminate].
  destruct ts; [| discriminate]. intros E I. injection E as _ <-.
  simpl. apply in_or_app. now left.
Qed.

Lemma update_synced_keeps ids t :
  In r (locations t) -> In r (locations (Sql.update_synced ids t)).
Proof.
  intros I. simpl. apply in_map_iff. exists r. split; [| exact I].
  destruct (Sql.mem (Locations.id r) ids); [| reflexivity].
  apply set_synced_id, r_synced.
Qed.

Lemma safe_logToDatabase sc msg lvl : safe (keeps r) (logToDatabase sc msg lvl).
Proof.
  unfold logToDatabase. destruct (database sc) as [db |]; [| constructor].
  apply safe_try_catch; [| constructor].
  apply safe_bind; [| constructor]. apply safe_await.
  apply holds_runAsync. unfold Sql.insert_app_log.
  intros t x t' E I. injection E as _ <-. exact I.
Qed.

Lemma safe_loadLocations sc : safe (keeps r) (loadLocations sc).
Proof.
  unfold loadLocations. destruct (database sc) as [db |]; [| constructor].
  apply safe_try_catch; [| constructor].
  apply safe_bind; [apply safe_await, holds_getAllAsync |].
  intros locs. apply safe_effect. intros w. now apply holds_same_file.
Qed.

Lemma safe_loadStats sc : safe (keeps r) (loadStats sc).
Proof.
  unfold loadStats. destruct (database sc) as [db |]; [| constructor].
  apply safe_try_catch; [| constructor].
  apply safe_bind; [apply safe_await, holds_getAllAsync |].
  intros [| s l]; [constructor |].
  apply safe_effect. intros w. now apply holds_same_file.
Qed.

Lemma safe_initDatabase sc : safe (keeps r) (initDatabase sc).
Proof.
  unfold initDatabase. apply safe_try_catch; [| constructor].
  apply safe_bind.
  { apply safe_await. intros w H. exact H. }
  intros db. apply safe_bind.
  { apply safe_effect. intros w. now apply holds_same_file. }
  intros _. apply safe_bind; [apply safe_await, holds_create_tables |].
  intros _. apply safe_logToDatabase.
Qed.

Lemma safe_toFixed6 x : safe (keeps r) (toFixed6 x).
Proof. destruct x; constructor. Qed.

Lemma safe_saveLocation sc location : safe (keeps r) (saveLocation sc location).
Proof.
  unfold saveLocation. destruct (database sc) as [db |]; [| constructor].
  apply safe_try_catch; [| intros e; apply safe_logToDatabase].
  apply safe_bind.
  { apply safe_await, holds_runAsync. apply insert_location_keeps. }
  intros i. apply safe_bind.
  { apply safe_await, holds_runAsync. unfold Sql.insert_sync_queue.
    intros t x t' E I. injection E as _ <-. exact I. }
  intros _. apply safe_bind; [apply safe_toFixed6 |].
  intros lat. apply safe_bind; [apply safe_toFixed6 |].
  intros lon. apply safe_logToDatabase.
Qed.

Lemma safe_push_alert a : safe (keeps r) (effect (push_alert a)).
Proof. apply safe_effect. intros w. now apply holds_same_file. Qed.

Lemma safe_syncData sc : safe (keeps r) (syncData sc).
Proof.
  unfold syncData. destruct (database sc) as [db |]; [| constructor].
  destruct (isOnline sc); simpl negb; cbv iota; [| constructor].
  apply safe_try_catch.
  - apply safe_bind; [apply safe_await, holds_getAllAsync |].
    intros [| x b].
    + apply safe_bind; [apply safe_logToDatabase |].
      intros _. apply safe_push_alert.
    + cbv zeta. apply safe_bind.
      { apply safe_await, holds_runAsync. unfold changes.
        intros t u t' E I. injection E as _ <-.
        now apply update_synced_keeps. }
      intros _. apply safe_bind.
      { apply safe_await, holds_runAsync. unfold changes.
        intros t u t' E I. injection E as _ <-. exact I. }
      intros _. apply safe_bind; [apply safe_logToDatabase |].
      intros _. apply safe_bind; [apply safe_push_alert |].
      intros _. apply safe_bind; [apply safe_loadLocations |].
      intros _. apply safe_loadStats.
  - intros e. apply safe_bind; [apply safe_logToDatabase |].
    intros _. apply safe_push_alert.
Qed.

Lemma safe_backgroundLocationTask locs err :
  safe (keeps r) (backgroundLocationTask locs err).
Proof.
  unfold backgroundLocationTask. destruct err; [constructor |].
  destruct locs as [[| location l] |]; [apply safe_Return | | apply safe_Return].
  apply safe_bind; [apply safe_await; intros w H; exact H |].
  intros db. apply safe_bind.
  { apply safe_await, holds_runAsync. apply insert_location_keeps. }
  intros _. apply safe_bind; [| constructor].
  apply safe_await. intros w H. exact H.
Qed.

Lemma safe_backgroundSyncTask : safe (keeps r) (backgroundSyncTask ;; ret tt).
Proof.
  unfold backgroundSyncTask. apply safe_bind; [| constructor].
  apply safe_bind; [apply safe_await; intros w H; exact H |].
  intros [|]; [| constructor].
  apply safe_bind; [apply safe_await; intros w H; exact H | constructor].
Qed.

Lemma safe_perform o : purges o = false -> safe (keeps r) (perform o).
Proof.
  destruct o as [sc l | ls e | sc | sc | sc | sc m v | sc | sc c]; simpl; intros NP.
  - apply safe_saveLocation.
  - apply safe_backgroundLocationTask.
  - apply safe_syncData.
  - apply safe_loadStats.
  - apply safe_loadLocations.
  - apply safe_logToDatabase.
  - apply safe_initDatabase.
  - unfold clearDatabase. destruct (database sc) as [db |]; [| constructor].
    destruct c; [| discriminate NP].
    apply safe_bind; [apply safe_push_alert | constructor].
Qed.

Lemma holds_perform_all ops :
  forallb (fun o => negb (purges o)) ops = true ->
  forall w, (keeps r) w -> (keeps r) (perform_all ops w).
Proof.
  induction ops as [| o ops IH]; simpl; intros NP w H; [exact H |].
  apply andb_true_iff in NP. destruct NP as [No Nops].
  apply IH; [exact Nops |]. apply safe_run; [| exact H].
  apply safe_perform. now apply negb_true_iff.
Qed.

Lemma holds_step e s :
  purge_free e = true ->
  Forall (safe (keeps r)) (calls s) /\ (keeps r) (sys_world s) ->
  Forall (safe (keeps r)) (calls (step e s)) /\ (keeps r) (sys_world (step e s)).
Proof.
  intros NP [Sl H]. destruct e as [| c | | o | i]; cbv beta iota delta [step].
  - unfold pressSyncNow. destruct (isOnline (render (sys_world s))); [| auto].
    apply safe_spawn; auto using safe_syncData.
  - unfold networkListener. simpl.
    assert (H' : (keeps r) (setIsOnline c (set_connected c (sys_world s))))
      by (eapply holds_same_file; [| exact H]; reflexivity).
    destruct c; [| simpl; auto].
    apply safe_spawn; simpl; auto using safe_syncData.
  - apply safe_spawn; auto using safe_backgroundSyncTask.
  - apply safe_spawn; auto. apply safe_perform.
    simpl in NP. now apply negb_true_iff.
  - destruct (safe_resume_nth (keeps r) i (calls s) (sys_world s) Sl H) as [S' H'].
    destruct (resume_nth i (calls s) (sys_world s)) as [l w]. simpl in *. auto.
Qed.

Lemma holds_exec es :
  forallb purge_free es = true ->
  forall s,
    Forall (safe (keeps r)) (calls s) /\ (keeps r) (sys_world s) ->
    Forall (safe (keeps r)) (calls (exec es s)) /\ (keeps r) (sys_world (exec es s)).
Proof.
  unfold exec. induction es as [| e es IH]; simpl; intros NP s H; [exact H |].
  apply andb_true_iff in NP. destruct NP as [Ne Nes].
  apply IH; [exact Nes |]. apply holds_step; assumption.
Qed.

End Monotonic.

(** C6: a sample that is synced stays synced.  Whatever operations other
    than a purge are performed, one after the other or started and
    interleaved action by action in any order (sync triggers included), a
    row of [locations] whose [synced] is 1 is still in the table, unchanged,
    afterwards: nothing resets the flag. *)
Theorem synced_never_reverts :
  forall (r : Locations.row) (t : tables) (w : world),
    file w = Some t ->
    In r (locations t) ->
    Locations.synced r = 1 ->
    (forall ops : list operation,
        forallb (fun o => negb (purges o)) ops = true ->
        exists t', file (perform_all ops w) = Some t' /\
                   In r (locations t')) /\
    (forall es : list event,
        forallb purge_free es = true ->
        exists t', file (sys_world (exec es (System w []))) = Some t' /\
                   In r (locations t')).
Proof.
  intros r t w F I S.
  assert (H : keeps r w) by (exists t; auto).
  split.
  - intros ops NP. exact (holds_perform_all r S ops NP w H).
  - intros es NP.
    destruct (holds_exec r S es NP (System w [])) as [_ H']; [| exact H'].
    split; [constructor | exact H].
Qed.

Lemma synced_never_reverts_witness :
  file (with_file (Some one_synced_one_pending) ready_world)
  = Some one_synced_one_pending /\
  Locations.synced (Locations.Row 1 28.1 77.2 None None None None 10 1) = 1 /\
  exists t',
    file (perform_all [SaveLocation ready (fix_at 28.3 77.4 30);
                       SyncData ready; LoadStats ready]
            (with_file (Some one_synced_one_pending) ready_world))
    = Some t' /\
    In (Locations.Row 1 28.1 77.2 None None None None 10 1) (locations t').
Proof.
  split; [reflexivity |]. split; [reflexivity |].
  destruct (synced_never_reverts
              (Locations.Row 1 28.1 77.2 None None None None 10 1)
              one_synced_one_pending
              (with_file (Some one_synced_one_pending) ready_world)
              eq_refl (or_introl eq_refl) eq_refl) as [A _].
  exact (A [SaveLocation ready (fix_at 28.3 77.4 30);
            SyncData ready; LoadStats ready] eq_refl).
Defined.

(* ================================================================== *)
(** * Inserting a fix *)

Lemma bind_real_Some (x : option float) (v : float) :
  Sql.bind_real x = Some v <-> x = Some v /\ PrimFloat.is_nan v = false.
Proof.
  unfold Sql.bind_real. destruct x as [u |].
  - destruct (PrimFloat.is_nan u) eqn:N; split.
    + discriminate.
    + intros [E N']. injection E as ->. congruence.
    + intros E. injection E as <-. auto.
    + intros [E _]. exact E.
  - split; [discriminate | intros [E _]; discriminate E].
Qed.


Lemma saveLocation_accepts (sc : scope) (db : handle)
      (location : LocationObject) (w : world) (t : tables)
      (lat lon : float) (ts : Z) :
  database sc = Some db -> file w = Some t ->
  Sql.bind_real (latitude (coords location)) = Some lat ->
  Sql.bind_real (longitude (coords location)) = Some lon ->
  timestamp location = Some ts ->
  fst (run (saveLocation sc location) w) = Resolved tt /\
  exists t',
    file (after (saveLocation sc location) w) = Some t' /\
    locations t' = (locations t ++ [new_location lat lon ts location t])%list /\
    sync_queue t' = (sync_queue t ++ [new_entry t])%list /\
    seq_locations t'
    = Sql.next_rowid (seq_locations t) (map Locations.id (locations t)).
Proof.
  intros D F Hlat Hlon Hts. unfold after, saveLocation. rewrite D.
  rewrite run_try_catch, run_bind, run_await.
  erewrite runAsync_ok;
    [| exact F
     | unfold Sql.insert_location; rewrite Hlat, Hlon, Hts; reflexivity].
  cbv beta iota.
  rewrite run_bind, run_await.
  erewrite runAsync_ok; [| reflexivity | reflexivity].
  cbv beta iota.
  apply bind_real_Some in Hlat. apply bind_real_Some in Hlon.
  rewrite (proj1 Hlat), (proj1 Hlon). unfold toFixed6.
  rewrite run_bind. simpl (run (ret _) _). cbv beta iota.
  rewrite run_bind. simpl (run (ret _) _). cbv beta iota.
  erewrite logToDatabase_run; [| exact D | reflexivity].
  simpl. split; [reflexivity |].
  eexists. split; [reflexivity |]. simpl. repeat split.
Qed.





(* ================================================================== *)
(** * Purge *)

Lemma clearDatabase_run (sc : scope) (db : handle) (w : world) (t : tables) :
  database sc = Some db -> file w = Some t ->
  fst (run (clearDatabase sc Clear) w) = Resolved tt /\
  file (after (clearDatabase sc Clear) w)
  = Some (Tables [] []
            [AppLogs.Row (Sql.next_rowid (seq_app_logs t) [])
                         [Str "Database cleared"] "info"]
            (seq_locations t) (seq_sync_queue t)
            (Sql.next_rowid (seq_app_logs t) [])).
Proof.
  intros D F. unfold after, clearDatabase. rewrite D.
  rewrite run_bind, run_effect. cbv beta iota.
  rewrite run_try_catch, run_bind, run_await. unfold execAsync.
  erewrite runAsync_ok; [| exact F | reflexivity].
  cbv beta iota. rewrite run_bind.
  erewrite logToDatabase_run; [| exact D | reflexivity].
  cbv beta iota. rewrite run_bind.
  match goal with
  | |- context [run (loadLocations sc) ?w0] =>
      destruct (loadLocations_file sc w0) as (R1 & F1 & _);
      destruct (run (loadLocations sc) w0) as [r1 w1]
  end.
  simpl in R1, F1. subst r1. cbv beta iota. rewrite run_bind.
  destruct (loadStats_file sc w1) as (R2 & F2 & _).
  destruct (run (loadStats sc) w1) as [r2 w2].
  simpl in R2, F2. subst r2. cbv beta iota. rewrite run_effect. simpl.
  rewrite F2, F1. split; reflexivity.
Qed.

(** C9, as the code has it.  Once the user has confirmed, [clearDatabase]
    empties [locations] and [sync_queue]; [app_logs] is emptied too, and
    then receives the entry "Database cleared" that the purge itself logs,
    so the audit log holds exactly that one entry afterwards.  If the user
    cancels, the file is left as it was. *)
Theorem clearDatabase_leaves_one_log_entry :
  forall (sc : scope) (db : handle) (w : world) (t : tables),
    database sc = Some db -> file w = Some t ->
    fst (run (clearDatabase sc Clear) w) = Resolved tt /\
    samples (after (clearDatabase sc Clear) w) = [] /\
    outbox (after (clearDatabase sc Clear) w) = [] /\
    logged (after (clearDatabase sc Clear) w) = [[Str "Database cleared"]] /\
    (exists i, option_map app_logs (file (after (clearDatabase sc Clear) w))
               = Some [AppLogs.Row i [Str "Database cleared"] "info"]) /\
    file (after (clearDatabase sc Cancel) w) = file w.
Proof.
  intros sc db w t D F.
  destruct (clearDatabase_run sc db w t D F) as [R E].
  unfold samples, outbox, logged. rewrite E. simpl.
  repeat split; try assumption.
  - eexists. reflexivity.
  - unfold after, clearDatabase. rewrite D. reflexivity.
Qed.

Lemma clearDatabase_leaves_one_log_entry_witness :
  database ready = Some TrackerDb /\
  file (with_file (Some one_synced_one_pending) ready_world)
  = Some one_synced_one_pending /\
  samples (after (clearDatabase ready Clear)
             (with_file (Some one_synced_one_pending) ready_world)) = [] /\
  logged (after (clearDatabase ready Clear)
            (with_file (Some one_synced_one_pending) ready_world))
  = [[Str "Database cleared"]].
Proof.
  split; [reflexivity |]. split; [reflexivity |].
  destruct (clearDatabase_leaves_one_log_entry
              ready TrackerDb
              (with_file (Some one_synced_one_pending) ready_world)
              one_synced_one_pending eq_refl eq_refl)
    as (_ & S & _ & L & _).
  split; [exact S | exact L].
Defined.

(** C9 as stated fails: after the purge of the three-sample store the
    audit log is not empty, it holds the record of the purge. *)
Lemma clearDatabase_audit_log_not_empty :
  samples (after (clearDatabase ready Clear) three_samples) = [] /\
  outbox (after (clearDatabase ready Clear) three_samples) = [] /\
  logged (after (clearDatabase ready Clear) three_samples)
  = [[Str "Database cleared"]] /\
  logged (after (clearDatabase ready Clear) three_samples) <> [].
Proof.
  conjuncts; try (vm_compute; reflexivity).
  vm_compute. discriminate.
Qed.

(* ================================================================== *)
(** * Sync triggers *)

Lemma syncData_starts (sc : scope) (db : handle) :
  database sc = Some db -> isOnline sc = true ->
  settled (syncData sc) = false.
Proof. intros D O. unfold syncData. rewrite D, O. reflexivity. Qed.

Lemma syncData_returns_at_once (sc : scope) :
  database sc = None \/ isOnline sc = false ->
  syncData sc = ret tt.
Proof.
  intros [D | O]; unfold syncData.
  - rewrite D. reflexivity.
  - rewrite O. destruct (database sc); reflexivity.
Qed.

Lemma pressSyncNow_starts (s : system) (db : handle) :
  state_database (sys_world s) = Some db ->
  state_isOnline (sys_world s) = true ->
  pressSyncNow s
  = System (sys_world s)
           (calls s ++ [syncData (render (sys_world s))]).
Proof.
  intros D O. unfold pressSyncNow. simpl isOnline. rewrite O.
  unfold spawn. rewrite (syncData_starts _ db); [reflexivity | exact D | exact O].
Qed.

Lemma in_flight_app (w : world) (l l' : list (task unit)) :
  in_flight (System w (l ++ l'))
  = (in_flight (System w l) ++ in_flight (System w l'))%list.
Proof. unfold in_flight. simpl. apply filter_app. Qed.

Lemma manual_requests_start (n : nat) :
  forall (s : system) (db : handle),
    state_database (sys_world s) = Some db ->
    state_isOnline (sys_world s) = true ->
    exec (repeat ManualRequest n) s
    = System (sys_world s)
             (calls s ++ repeat (syncData (render (sys_world s))) n).
Proof.
  induction n as [| n IH]; intros s db D O.
  - simpl. rewrite app_nil_r. destruct s; reflexivity.
  - change (exec (repeat ManualRequest (S n)) s)
      with (exec (repeat ManualRequest n) (pressSyncNow s)).
    rewrite (pressSyncNow_starts s db D O).
    rewrite (IH _ db); simpl; [| exact D | exact O].
    rewrite <- app_assoc. reflexivity.
Qed.

Lemma syncData_run (sc : scope) (db : handle) (w : world) (t : tables)
      (r : Locations.row) (b : list Locations.row) :
  database sc = Some db -> isOnline sc = true -> file w = Some t ->
  Sql.select_unsynced batch_limit t = r :: b ->
  run (syncData sc) w
  = (Resolved tt,
     setStats (stats_of (synced_batch (r :: b) t))
       (setLocations (Sql.select_recent (synced_batch (r :: b) t))
          (push_alert
             (Alert "Sync Successful"
                [Str "Synced "; Num (Z.of_nat (List.length (r :: b)));
                 Str " locations"])
             (with_file (Some (synced_batch (r :: b) t)) w)))).
Proof.
  intros D O F B. unfold syncData. rewrite D, O. simpl negb. cbv iota.
  rewrite run_try_catch, run_bind, run_await.
  unfold getAllAsync. rewrite F, B.
  unfold logToDatabase, loadLocations, loadStats. rewrite D.
  destruct w as [f n d o st l a]. simpl in F. subst f. reflexivity.
Qed.

Lemma syncData_run_none (sc : scope) (db : handle) (w : world)
      (t : tables) :
  database sc = Some db -> isOnline sc = true -> file w = Some t ->
  Sql.select_unsynced batch_limit t = [] ->
  run (syncData sc) w
  = (Resolved tt,
     push_alert (Alert "Sync" [Str "No data to sync"])
       (with_file
          (Some (Tables (locations t) (sync_queue t)
                   (app_logs t ++
                      [AppLogs.Row
                         (Sql.next_rowid (seq_app_logs t)
                            (map AppLogs.id (app_logs t)))
                         [Str "No data to sync"] "info"])
                   (seq_locations t) (seq_sync_queue t)
                   (Sql.next_rowid (seq_app_logs t)
                      (map AppLogs.id (app_logs t)))))
          w)).
Proof.
  intros D O F B. unfold syncData. rewrite D, O. simpl negb. cbv iota.
  rewrite run_try_catch, run_bind, run_await.
  unfold getAllAsync. rewrite F, B. cbv beta iota.
  rewrite run_bind, (logToDatabase_run sc db _ _ w t D F), run_effect.
  reflexivity.
Qed.

(** What one sync body does when it runs on a file with the schema. *)
Lemma syncData_body (sc : scope) (db : handle) (w : world) (t : tables) :
  database sc = Some db -> isOnline sc = true -> file w = Some t ->
  fst (run (syncData sc) w) = Resolved tt /\
  samples (after (syncData sc) w)
  = locations (markSynced (map Locations.id (listPending 100 t)) t) /\
  logged (after (syncData sc) w)
  = (logged w ++
       [match listPending 100 t with
        | [] => [Str "No data to sync"]
        | b => [Str "Synced "; Num (Z.of_nat (List.length b));
                Str " locations"]
        end])%list.
Proof.
  intros D O F. unfold after, listPending, markSynced.
  change 100%nat with batch_limit.
  destruct (Sql.select_unsynced batch_limit t) as [| r b] eqn:B.
  - rewrite (syncData_run_none sc db w t D O F B).
    unfold samples, logged. rewrite F. simpl.
    split; [reflexivity |]. split; [| now rewrite map_app].
    rewrite <- (map_id (locations t)) at 1. apply map_ext. reflexivity.
  - rewrite (syncData_run sc db w t r b D O F B).
    unfold samples, logged. rewrite F. simpl.
    split; [reflexivity |]. split; [reflexivity | now rewrite map_app].
Qed.

(** C1, as the code has it.  There is no in-flight guard.  With the handle
    set and online, each of [n] manual requests starts a sync body of its
    own, whatever is already in flight: the [n] bodies are in flight
    together with the calls that were, and none of them changes the world
    by being started.  None is a no-op: run without interruption on a file
    with the schema, a started body returns normally, marks the batch
    [listPending 100] of the samples pending then and appends one entry
    to the audit log, "Synced k locations" for a batch of [k], "No data
    to sync" when nothing is pending then.  A manual request starts nothing
    only when the handle is unset or the component is offline. *)
Theorem sync_triggers_not_single_flight :
  forall (n : nat) (s : system) (db : handle),
    state_database (sys_world s) = Some db ->
    state_isOnline (sys_world s) = true ->
    exec (repeat ManualRequest n) s
    = System (sys_world s)
             (calls s ++ repeat (syncData (render (sys_world s))) n) /\
    settled (syncData (render (sys_world s))) = false /\
    List.length (in_flight (exec (repeat ManualRequest n) s))
    = (List.length (in_flight s) + n)%nat /\
    (forall (w' : world) (t' : tables),
        file w' = Some t' ->
        fst (run (syncData (render (sys_world s))) w') = Resolved tt /\
        samples (after (syncData (render (sys_world s))) w')
        = locations
            (markSynced (map Locations.id (listPending 100 t')) t') /\
        logged (after (syncData (render (sys_world s))) w')
        = (logged w' ++
             [match listPending 100 t' with
              | [] => [Str "No data to sync"]
              | b => [Str "Synced "; Num (Z.of_nat (List.length b));
                      Str " locations"]
              end])%list) /\
    (forall s' : system,
        state_database (sys_world s') = None \/
        state_isOnline (sys_world s') = false ->
        step ManualRequest s' = s').
Proof.
  intros n s db D O.
  assert (St : settled (syncData (render (sys_world s))) = false)
    by (apply (syncData_starts _ db); [exact D | exact O]).
  split; [apply (manual_requests_start n s db D O) |].
  split; [exact St |].
  split.
  { rewrite (manual_requests_start n s db D O), in_flight_app.
    rewrite length_app. destruct s as [w l]. simpl. f_equal.
    unfold in_flight. simpl calls. simpl in St.
    induction n as [| n IH]; simpl; [reflexivity |].
    rewrite St. simpl. now rewrite IH. }
  split.
  { intros w' t' F'.
    apply (syncData_body (render (sys_world s)) db w' t');
      [exact D | exact O | exact F']. }
  intros s' H. simpl. unfold pressSyncNow.
  destruct (isOnline (render (sys_world s'))) eqn:O'; [| reflexivity].
  rewrite syncData_returns_at_once; [reflexivity |].
  destruct H as [H | H]; [now left |].
  simpl in O'. congruence.
Qed.

Lemma sync_triggers_not_single_flight_witness :
  state_database one_pending = Some TrackerDb /\
  state_isOnline one_pending = true /\
  List.length
    (in_flight (exec (repeat ManualRequest 2) (System one_pending [])))
  = 2%nat /\
  logged (after (syncData (render one_pending)) ready_world)
  = [[Str "No data to sync"]].
Proof.
  split; [reflexivity |]. split; [reflexivity |].
  destruct (sync_triggers_not_single_flight
              2 (System one_pending []) TrackerDb eq_refl eq_refl)
    as (_ & _ & L & B & _).
  split; [exact L |].
  exact (proj2 (proj2 (B ready_world empty_tables eq_refl))).
Defined.

(** C1 as stated fails.  With one pending sample, a second manual request
    made while the first sync is in flight is not a no-op: two sync bodies
    are in flight together, and when both have run, taking turns, each has
    read the same batch and logged "Synced 1 locations". *)
Lemma two_manual_requests_both_sync :
  samples one_pending
  = [Locations.Row 1 28.1 77.2 None None None None 1 0] /\
  List.length (in_flight (exec [ManualRequest] (System one_pending [])))
  = 1%nat /\
  List.length
    (in_flight (exec [ManualRequest; ManualRequest] (System one_pending [])))
  = 2%nat /\
  in_flight (exec ([ManualRequest; ManualRequest] ++ take_turns 9)
                  (System one_pending []))
  = [] /\
  logged (sys_world (exec ([ManualRequest; ManualRequest] ++ take_turns 9)
                          (System one_pending [])))
  = [[Str "Location saved: "; Fixed6 28.1; Str ", "; Fixed6 77.2];
     [Str "Synced "; Num 1; Str " locations"];
     [Str "Synced "; Num 1; Str " locations"]].
Proof.
  conjuncts; try (vm_compute; reflexivity).
Qed.

(* ================================================================== *)
(** * What the [DELETE] of [syncData] matches *)

Lemma has_comma_append (s1 s2 : string) :
  has_comma (s1 ++ s2) = has_comma s1 || has_comma s2.
Proof.
  induction s1 as [| c s1 IH]; simpl; [reflexivity |].
  rewrite IH. apply orb_assoc.
Qed.

Lemma string_of_uint_no_comma (d : Decimal.uint) :
  has_comma (NilEmpty.string_of_uint d) = false.
Proof. induction d; simpl; auto. Qed.

Lemma string_of_int_no_comma (d : Decimal.signed_int) :
  has_comma (NilZero.string_of_int d) = false.
Proof.
  destruct d as [u | u]; simpl;
    destruct u; simpl; auto using string_of_uint_no_comma.
Qed.

Lemma to_int_not_nil (z : Z) :
  Z.to_int z <> Decimal.Pos Decimal.Nil /\
  Z.to_int z <> Decimal.Neg Decimal.Nil.
Proof.
  destruct z as [| p | p]; simpl; split; try discriminate.
  - intros E. injection E as E.
    pose proof (DecimalPos.Unsigned.to_uint_nonnil p) as N. contradiction.
  - intros E. injection E as E.
    pose proof (DecimalPos.Unsigned.to_uint_nonnil p) as N. contradiction.
Qed.

(** A text that reads as an integer literal is turned into that integer:
    the text of one id is read back as the id. *)
Lemma numeric_affinity_one_id (z : Z) :
  Sql.numeric_affinity (SqlText (string_of_Z z)) = SqlInteger z.
Proof.
  unfold Sql.numeric_affinity, string_of_Z.
  destruct (to_int_not_nil z) as [P N].
  rewrite (NilZero.isi (Z.to_int z) P N). now rewrite DecimalZ.of_to.
Qed.

(** The text of two ids or more has a comma and stays a text. *)
Lemma numeric_affinity_joined (i j : Z) (l : list Z) :
  Sql.numeric_affinity (SqlText (join "," (i :: j :: l)))
  = SqlText (join "," (i :: j :: l)).
Proof.
  unfold Sql.numeric_affinity.
  destruct (NilZero.int_of_string (join "," (i :: j :: l))) as [d |] eqn:E;
    [| reflexivity].
  apply NilZero.sis in E.
  assert (C : has_comma (join "," (i :: j :: l)) = true).
  { unfold join. simpl String.concat. rewrite has_comma_append. simpl.
    apply orb_true_r. }
  rewrite <- E, string_of_int_no_comma in C. discriminate C.
Qed.

(** The [DELETE] removes an entry only if the batch is the single id the
    entry refers to. *)
Lemma integer_column_eq_join (c : Z) (ids : list Z) :
  Sql.integer_column_eq c (SqlText (join "," ids)) = true <-> ids = [c].
Proof.
  unfold Sql.integer_column_eq. destruct ids as [| i [| j l]].
  - simpl. split; discriminate.
  - change (join "," [i]) with (string_of_Z i).
    rewrite numeric_affinity_one_id. rewrite Z.eqb_eq.
    split; [intros -> | intros E; injection E as ->]; reflexivity.
  - rewrite numeric_affinity_joined. split; discriminate.
Qed.

(** With two ids or more in the batch the [DELETE] removes nothing; with
    one id it removes the entries of that id. *)
Lemma delete_sync_queue_batch (ids : list Z) (t : tables) :
  sync_queue (Sql.delete_sync_queue "locations"
                (SqlText (join "," ids)) t)
  = match ids with
    | [i] => filter (fun q => negb (String.eqb (SyncQueue.table_name q)
                                               "locations"
                                    && (SyncQueue.record_id q =? i)))
                    (sync_queue t)
    | _ => sync_queue t
    end.
Proof.
  simpl.
  assert (none : forall l,
             (forall c, Sql.integer_column_eq c (SqlText (join "," l))
                        = false) ->
             filter (fun q => negb (String.eqb (SyncQueue.table_name q)
                                               "locations"
                                    && Sql.integer_column_eq
                                         (SyncQueue.record_id q)
                                         (SqlText (join "," l))))
                    (sync_queue t) = sync_queue t).
  { intros l H. rewrite <- (filter_ext (fun _ => true)).
    - induction (sync_queue t) as [| q l' IH]; simpl; [| rewrite IH];
        reflexivity.
    - intros q. rewrite H, andb_false_r. reflexivity. }
  destruct ids as [| i [| j l]].
  - apply none. intros c.
    destruct (Sql.integer_column_eq c (SqlText (join "," []))) eqn:E;
      [| reflexivity].
    apply integer_column_eq_join in E. discriminate E.
  - apply filter_ext. intros q. f_equal. f_equal.
    destruct (Sql.integer_column_eq (SyncQueue.record_id q)
                (SqlText (join "," [i]))) eqn:E.
    + apply integer_column_eq_join in E. injection E as <-.
      symmetry. apply Z.eqb_refl.
    + symmetry. apply Z.eqb_neq. intros H.
      assert (T : Sql.integer_column_eq i (SqlText (join "," [i])) = true)
        by now apply integer_column_eq_join.
      rewrite H in E. congruence.
  - apply none. intros c.
    destruct (Sql.integer_column_eq c (SqlText (join "," (i :: j :: l))))
      eqn:E; [| reflexivity].
    apply integer_column_eq_join in E. discriminate E.
Qed.

(* ================================================================== *)
(** * The scenario of three samples *)

(** C2, evaluated.  After the three inserts the statistics are
    [{total: 3, synced: 0, pending: 3}] and after one sync
    [{total: 3, synced: 3, pending: 0}], as claimed.  But the sync leaves
    all three entries in [sync_queue]: the batch is the ids 1, 2, 3, the
    [DELETE] compares [record_id] with the single text ["1,2,3"], which
    is no integer literal and equals no integer.  The same holds for
    every batch of two ids or more. *)
Theorem three_samples_sync_leaves_outbox :
  state_stats (after (loadStats ready) three_samples)
  = Stats 3 (Some 0) (Some 3) /\
  state_stats (after (syncData ready) three_samples)
  = Stats 3 (Some 3) (Some 0) /\
  batch_ids three_samples = [1; 2; 3] /\
  join "," [1; 2; 3] = "1,2,3" /\
  Sql.numeric_affinity (SqlText "1,2,3") = SqlText "1,2,3" /\
  outbox (after (syncData ready) three_samples)
  = [SyncQueue.Row 1 "locations" 1 "INSERT";
     SyncQueue.Row 2 "locations" 2 "INSERT";
     SyncQueue.Row 3 "locations" 3 "INSERT"] /\
  (forall (i j : Z) (l : list Z) (t : tables),
      sync_queue (Sql.delete_sync_queue "locations"
                    (SqlText (join "," (i :: j :: l))) t)
      = sync_queue t).
Proof.
  conjuncts; try (vm_compute; reflexivity).
  intros i j l t. apply delete_sync_queue_batch.
Qed.

(* ================================================================== *)
(** * Pending samples and their queue entries *)

Lemma max_rowid_ge (i : Z) (l : list Z) : In i l -> i <= Sql.max_rowid l.
Proof.
  induction l as [| x l IH]; simpl; [intros [] |].
  intros [-> | H]; [lia |]. specialize (IH H). lia.
Qed.

Lemma max_rowid_nonneg (l : list Z) : 0 <= Sql.max_rowid l.
Proof. induction l as [| x l IH]; simpl; lia. Qed.

Lemma max_rowid_app (l l' : list Z) :
  Sql.max_rowid (l ++ l') = Z.max (Sql.max_rowid l) (Sql.max_rowid l').
Proof.
  induction l as [| x l IH]; simpl.
  - pose proof (max_rowid_nonneg l'). lia.
  - rewrite IH. lia.
Qed.

Lemma filter_none {A} (f : A -> bool) (l : list A) :
  (forall x, In x l -> f x = false) -> filter f l = [].
Proof.
  induction l as [| x l IH]; simpl; intros H; [reflexivity |].
  rewrite (H x (or_introl eq_refl)). apply IH. intros y Hy. apply H. now right.
Qed.

Lemma filter_filter_keep {A} (f keep : A -> bool) (l : list A) :
  (forall x, In x l -> f x = true -> keep x = true) ->
  filter f (filter keep l) = filter f l.
Proof.
  induction l as [| x l IH]; simpl; intros H; [reflexivity |].
  assert (IH' : filter f (filter keep l) = filter f l)
    by (apply IH; intros y Hy; apply H; now right).
  destruct (keep x) eqn:K; simpl.
  - now rewrite IH'.
  - destruct (f x) eqn:Fx; [| exact IH'].
    rewrite (H x (or_introl eq_refl) Fx) in K. discriminate K.
Qed.

Lemma update_synced_ids (ids : list Z) (t : tables) :
  map Locations.id (locations (Sql.update_synced ids t))
  = map Locations.id (locations t).
Proof.
  simpl. rewrite map_map. apply map_ext. intros r.
  destruct (Sql.mem (Locations.id r) ids); reflexivity.
Qed.

Lemma update_synced_pending (ids : list Z) (t : tables) (r : Locations.row) :
  In r (locations (Sql.update_synced ids t)) -> Locations.synced r = 0 ->
  In r (locations t) /\ ~ In (Locations.id r) ids.
Proof.
  simpl. rewrite in_map_iff. intros (r0 & E & I) S.
  destruct (Sql.mem (Locations.id r0) ids) eqn:M.
  - subst r. discriminate S.
  - subst r0. split; [exact I |]. rewrite <- mem_In. congruence.
Qed.

Lemma well_paired_change (t t' : tables) :
  store_change t t' -> well_paired t -> well_paired t'.
Proof.
  intros C (P & N & B).
  destruct C as [L Q S | row I L Q S | ids L Q S | L Q S].
  - unfold well_paired, paired, entries_for, high_water.
    rewrite L, Q, S. auto.
  - assert (fresh : forall q, In q (sync_queue t) ->
                              SyncQueue.record_id q <> high_water t + 1).
    { intros q Hq. specialize (B q Hq). lia. }
    assert (old : forall r, In r (locations t) ->
                            Locations.id r <> high_water t + 1).
    { intros r Hr.
      assert (Locations.id r <= Sql.max_rowid (map Locations.id (locations t)))
        by (apply max_rowid_ge, in_map, Hr).
      unfold high_water. lia. }
    assert (H' : high_water t' = high_water t + 1).
    { unfold high_water at 1. rewrite S, L, map_app, max_rowid_app. simpl.
      rewrite I. unfold high_water.
      pose proof (max_rowid_nonneg (map Locations.id (locations t))). lia. }
    split; [| split].
    + intros r Hr Sr. unfold entries_for. rewrite Q, filter_app, length_app.
      rewrite L in Hr. apply in_app_or in Hr. destruct Hr as [Hr | [<- | []]].
      * specialize (P r Hr Sr). unfold entries_for in P. rewrite P.
        simpl. unfold references at 1. simpl.
        replace (Sql.next_rowid (seq_locations t)
                   (map Locations.id (locations t)) =? Locations.id r)
          with false; [reflexivity |].
        symmetry. apply Z.eqb_neq. specialize (old r Hr).
        unfold Sql.next_rowid. unfold high_water in old. lia.
      * rewrite filter_none.
        -- simpl. unfold references. simpl. rewrite I.
           unfold Sql.next_rowid, high_water. rewrite Z.eqb_refl. reflexivity.
        -- intros q Hq. unfold references. rewrite I.
           replace (SyncQueue.record_id q =? high_water t + 1) with false;
             [apply andb_false_r |].
           symmetry. apply Z.eqb_neq. now apply fresh.
    + rewrite L, map_app. simpl. apply NoDup_app; [exact N | | ].
      * constructor; [intros [] | constructor].
      * intros i Hi [E | []]. apply in_map_iff in Hi.
        destruct Hi as (r & <- & Hr). apply (old r Hr). congruence.
    + intros q Hq. rewrite H'. rewrite Q in Hq. apply in_app_or in Hq.
      destruct Hq as [Hq | [<- | []]].
      * specialize (B q Hq). lia.
      * simpl. unfold Sql.next_rowid, high_water. lia.
  - assert (H' : high_water t' = high_water t).
    { unfold high_water. rewrite S, L, update_synced_ids. reflexivity. }
    split; [| split].
    + intros r Hr Sr. rewrite L in Hr.
      destruct (update_synced_pending ids t r Hr Sr) as [Hr' NI].
      unfold entries_for. rewrite Q. simpl. rewrite filter_filter_keep.
      * apply (P r Hr' Sr).
      * intros q _ R. unfold references in R.
        apply andb_true_iff in R. destruct R as [_ R].
        apply Z.eqb_eq in R.
        destruct (Sql.integer_column_eq (SyncQueue.record_id q)
                    (SqlText (join "," ids))) eqn:E;
          [| rewrite andb_false_r; reflexivity].
        apply integer_column_eq_join in E. exfalso. apply NI.
        rewrite E, R. now left.
    + rewrite L, update_synced_ids. exact N.
    + intros q Hq. rewrite H'. apply B. rewrite Q in Hq. simpl in Hq.
      apply filter_In in Hq. tauto.
  - split; [| split].
    + intros r Hr. rewrite L in Hr. destruct Hr.
    + rewrite L. constructor.
    + intros q Hq. rewrite Q in Hq. destruct Hq.
Qed.

Lemma frame_unchanged (w w' : world) (t : tables) :
  file w = Some t ->
  option_map locations (file w') = option_map locations (file w) ->
  option_map sync_queue (file w') = option_map sync_queue (file w) ->
  option_map seq_locations (file w') = option_map seq_locations (file w) ->
  exists t', file w' = Some t' /\ store_change t t'.
Proof.
  intros F L Q S. rewrite F in L, Q, S.
  destruct (file w') as [t' |]; [| discriminate L].
  simpl in L, Q, S. injection L as L. injection Q as Q. injection S as S.
  exists t'. split; [reflexivity | now apply Unchanged].
Qed.

Lemma same_file_unchanged (w w' : world) (t : tables) :
  file w = Some t -> file w' = file w ->
  exists t', file w' = Some t' /\ store_change t t'.
Proof.
  intros F E. apply (frame_unchanged w w' t F); now rewrite E.
Qed.

Lemma logToDatabase_change (sc : scope) (msg : text) (lvl : string)
      (w : world) (t : tables) :
  file w = Some t ->
  exists t', file (after (logToDatabase sc msg lvl) w) = Some t' /\
             store_change t t'.
Proof.
  intros F. destruct (logToDatabase_frame sc msg lvl w) as (L & Q & S & _).
  apply (frame_unchanged w _ t F); [exact L | exact Q | exact S].
Qed.

Lemma saveLocation_change (sc : scope) (location : LocationObject)
      (w : world) (t : tables) :
  file w = Some t ->
  exists t', file (after (saveLocation sc location) w) = Some t' /\
             store_change t t'.
Proof.
  intros F. destruct (database sc) as [db |] eqn:D.
  2: { apply (same_file_unchanged w _ t F). unfold after, saveLocation.
       rewrite D. reflexivity. }
  destruct (Sql.insert_location
              (latitude (coords location)) (longitude (coords location))
              (accuracy (coords location)) (altitude (coords location))
              (speed (coords location)) (heading (coords location))
              (timestamp location) 0 t) as [e | [i t1]] eqn:E.
  - unfold after, saveLocation. rewrite D.
    rewrite run_try_catch, run_bind, run_await.
    erewrite runAsync_error; [| exact F | exact E]. cbv beta iota.
    apply (logToDatabase_change sc _ _ w t F).
  - unfold Sql.insert_location in E.
    destruct (Sql.bind_real (latitude (coords location)))
      as [lat |] eqn:Hlat; [| discriminate E].
    destruct (Sql.bind_real (longitude (coords location)))
      as [lon |] eqn:Hlon; [| discriminate E].
    destruct (timestamp location) as [ts |] eqn:Hts; [| discriminate E].
    destruct (saveLocation_accepts sc db location w t lat lon ts
                D F Hlat Hlon Hts) as (_ & t' & F' & L & Q & S).
    exists t'. split; [exact F' |].
    apply (Inserted t t' (new_location lat lon ts location t));
      try assumption; reflexivity.
Qed.

Lemma syncData_change (sc : scope) (w : world) (t : tables) :
  file w = Some t ->
  exists t', file (after (syncData sc) w) = Some t' /\ store_change t t'.
Proof.
  intros F. destruct (database sc) as [db |] eqn:D.
  2: { apply (same_file_unchanged w _ t F). unfold after.
       rewrite syncData_returns_at_once; [reflexivity | now left]. }
  destruct (isOnline sc) eqn:O.
  2: { apply (same_file_unchanged w _ t F). unfold after.
       rewrite syncData_returns_at_once; [reflexivity | now right]. }
  destruct (syncData_file sc db w t D O F) as (t' & F' & L & S & Q).
  exists t'. split; [exact F' |].
  apply (Marked t t' (map Locations.id (Sql.select_unsynced batch_limit t)));
    [exact L | | exact S].
  rewrite Q. destruct (Sql.select_unsynced batch_limit t) as [| r b].
  - rewrite delete_sync_queue_batch. reflexivity.
  - reflexivity.
Qed.

Lemma initDatabase_change (sc : scope) (w : world) (t : tables) :
  file w = Some t ->
  exists t', file (after (initDatabase sc) w) = Some t' /\ store_change t t'.
Proof.
  intros F. unfold after, initDatabase.
  rewrite run_try_catch, run_bind, run_await. unfold openDatabaseAsync.
  cbv beta iota. rewrite run_bind, run_effect. cbv beta iota.
  rewrite run_bind, run_await. unfold execAsync_create_tables.
  simpl file. rewrite F. cbv beta iota.
  pose proof (logToDatabase_resolves sc
                [Str "Database initialized successfully"] info
                (setDatabase TrackerDb w)) as R.
  destruct (logToDatabase_change sc
              [Str "Database initialized successfully"] info
              (setDatabase TrackerDb w) t F) as (t' & F' & C).
  unfold after in F'.
  destruct (run (logToDatabase sc [Str "Database initialized successfully"]
                   info) (setDatabase TrackerDb w)) as [c w'].
  simpl in R. subst c. exists t'. auto.
Qed.

Lemma clearDatabase_change (sc : scope) (choice : button)
      (w : world) (t : tables) :
  file w = Some t ->
  exists t', file (after (clearDatabase sc choice) w) = Some t' /\
             store_change t t'.
Proof.
  intros F. destruct (database sc) as [db |] eqn:D.
  2: { apply (same_file_unchanged w _ t F). unfold after, clearDatabase.
       rewrite D. reflexivity. }
  destruct choice.
  - apply (same_file_unchanged w _ t F). unfold after, clearDatabase.
    rewrite D. reflexivity.
  - destruct (clearDatabase_run sc db w t D F) as [_ E].
    eexists. split; [exact E |]. now apply Cleared.
Qed.

Lemma perform_change (o : operation) (w : world) (t : tables) :
  of_component o = true -> file w = Some t ->
  exists t', file (after (perform o) w) = Some t' /\ store_change t t'.
Proof.
  destruct o as [sc l | ls e | sc | sc | sc | sc m v | sc | sc c];
    simpl; intros Co F; try discriminate Co.
  - now apply saveLocation_change.
  - now apply syncData_change.
  - apply (same_file_unchanged w _ t F). apply loadStats_file.
  - apply (same_file_unchanged w _ t F). apply loadLocations_file.
  - now apply logToDatabase_change.
  - now apply initDatabase_change.
  - now apply clearDatabase_change.
Qed.

(** The pairing holds in every state the component reaches by completed
    operations of its own: inserts through [saveLocation], syncs, purges,
    statistics.  The background task is not among them. *)
Lemma component_keeps_pairing (ops : list operation) :
  forallb of_component ops = true ->
  forall (w : world) (t : tables),
    file w = Some t -> well_paired t ->
    exists t', file (perform_all ops w) = Some t' /\ well_paired t'.
Proof.
  induction ops as [| o ops IH]; simpl; intros Co w t F G.
  - exists t. auto.
  - apply andb_true_iff in Co. destruct Co as [Co Cops].
    destruct (perform_change o w t Co F) as (t1 & F1 & C).
    apply (IH Cops _ t1 F1). now apply (well_paired_change t t1).
Qed.

Lemma empty_tables_well_paired : well_paired empty_tables.
Proof.
  split; [| split].
  - intros r [].
  - constructor.
  - intros q [].
Qed.

(** Between the two inserts of [saveLocation] the sample is in the store
    and its entry is not yet in the queue. *)
Lemma saveLocation_between_inserts :
  samples (sys_world (exec [Call (SaveLocation ready (fix_at 28.1 77.2 1));
                            Resume 0]
                           (System ready_world [])))
  = [Locations.Row 1 28.1 77.2 None None None None 1 0] /\
  outbox (sys_world (exec [Call (SaveLocation ready (fix_at 28.1 77.2 1));
                           Resume 0]
                          (System ready_world [])))
  = [].
Proof. evaluate. Qed.

(* ================================================================== *)
(** * The background location task *)

(** C3, evaluated.  A fix delivered to the background location task on an
    empty, initialised store, where the pairing holds, is inserted as a
    pending row and no entry is put into [sync_queue]: one pending sample,
    no outbox entry, and the pairing is broken.  [saveLocation], given the
    same fix, adds the entry. *)
Theorem backgroundLocationTask_does_not_enqueue :
  file ready_world = Some empty_tables /\
  well_paired empty_tables /\
  fst (run (backgroundLocationTask (Some [fix_at 28.1 77.2 1]) None)
           ready_world) = Resolved tt /\
  samples (after (backgroundLocationTask (Some [fix_at 28.1 77.2 1]) None)
                 ready_world)
  = [Locations.Row 1 28.1 77.2 None None None None 1 0] /\
  outbox (after (backgroundLocationTask (Some [fix_at 28.1 77.2 1]) None)
                ready_world)
  = [] /\
  (forall t',
      file (after (backgroundLocationTask (Some [fix_at 28.1 77.2 1]) None)
                  ready_world) = Some t' ->
      ~ paired t') /\
  outbox (after (saveLocation ready (fix_at 28.1 77.2 1)) ready_world)
  = [SyncQueue.Row 1 "locations" 1 "INSERT"].
Proof.
  split; [reflexivity |].
  split; [apply empty_tables_well_paired |].
  conjuncts; try (vm_compute; reflexivity).
  intros t' E P. vm_compute in E. injection E as <-.
  specialize (P (Locations.Row 1 28.1 77.2 None None None None 1 0)
                (or_introl eq_refl) eq_refl).
  vm_compute in P. discriminate P.
Qed.

(* ================================================================== *)
(** * Invariants of the file under any schedule *)

Lemma safe_perform_all (P : world -> Prop) (allowed : operation -> bool) :
  (forall o, allowed o = true -> safe P (perform o)) ->
  forall ops, forallb allowed ops = true ->
  forall w, P w -> P (perform_all ops w).
Proof.
  intros Sp ops. induction ops as [| o ops IH]; simpl; intros A w H.
  - exact H.
  - apply andb_true_iff in A. destruct A as [Ao Aops].
    apply IH; [exact Aops |]. apply safe_run; [apply Sp, Ao | exact H].
Qed.

Lemma safe_step (P : world -> Prop) (allowed : operation -> bool) :
  (forall o, allowed o = true -> safe P (perform o)) ->
  (forall sc, safe P (syncData sc)) ->
  safe P (backgroundSyncTask ;; ret tt) ->
  (forall c w, P w -> P (setIsOnline c (set_connected c w))) ->
  forall e s,
    event_allowed allowed e = true ->
    Forall (safe P) (calls s) -> P (sys_world s) ->
    Forall (safe P) (calls (step e s)) /\ P (sys_world (step e s)).
Proof.
  intros Sp Ss Sb Sn e s A Sl H.
  destruct e as [| c | | o | i]; cbv beta iota delta [step].
  - unfold pressSyncNow.
    destruct (isOnline (render (sys_world s))); [| auto].
    apply safe_spawn; auto.
  - unfold networkListener. simpl sys_world. simpl calls.
    specialize (Sn c (sys_world s) H).
    destruct c; [| simpl; auto].
    apply safe_spawn; simpl; auto.
  - apply safe_spawn; auto.
  - apply safe_spawn; auto.
  - destruct (safe_resume_nth P i (calls s) (sys_world s) Sl H) as [S' H'].
    destruct (resume_nth i (calls s) (sys_world s)) as [l w].
    simpl in *. auto.
Qed.

Lemma safe_exec (P : world -> Prop) (allowed : operation -> bool) :
  (forall o, allowed o = true -> safe P (perform o)) ->
  (forall sc, safe P (syncData sc)) ->
  safe P (backgroundSyncTask ;; ret tt) ->
  (forall c w, P w -> P (setIsOnline c (set_connected c w))) ->
  forall es, forallb (event_allowed allowed) es = true ->
  forall s,
    Forall (safe P) (calls s) -> P (sys_world s) ->
    Forall (safe P) (calls (exec es s)) /\ P (sys_world (exec es s)).
Proof.
  intros Sp Ss Sb Sn es. unfold exec.
  induction es as [| e es IH]; simpl; intros A s Sl H; [auto |].
  apply andb_true_iff in A. destruct A as [Ae Aes].
  destruct (safe_step P allowed Sp Ss Sb Sn e s Ae Sl H) as [Sl' H'].
  apply IH; assumption.
Qed.

Section OnFile.
Variable Q : tables -> Prop.
Hypothesis writes : kept_by_writes Q.

Lemma on_file_same (w w' : world) :
  file w' = file w -> on_file Q w -> on_file Q w'.
Proof. intros E (t & F & H). exists t. rewrite E. auto. Qed.

Lemma on_file_runAsync {X} (db : handle) (name : string)
      (stmt : tables -> Sql.result X) :
  stable Q stmt ->
  forall w, on_file Q w -> on_file Q (snd (runAsync db name stmt w)).
Proof.
  intros St w (t & F & H). unfold runAsync. rewrite F.
  destruct (stmt t) as [e | [x t']] eqn:E; simpl.
  - exists t. auto.
  - exists t'. split; [reflexivity | eapply St; eauto].
Qed.

Lemma on_file_getAllAsync {X} (db : handle) (name : string)
      (q : tables -> list X) :
  forall w, on_file Q w -> on_file Q (snd (getAllAsync db name q w)).
Proof. intros w H. unfold getAllAsync. destruct (file w); exact H. Qed.

Lemma on_file_create_tables (db : handle) :
  forall w, on_file Q w -> on_file Q (snd (execAsync_create_tables db w)).
Proof.
  intros w (t & F & H). unfold execAsync_create_tables. rewrite F.
  exists t. auto.
Qed.

Lemma on_file_effect (f : world -> world) :
  (forall w, file (f w) = file w) -> safe (on_file Q) (effect f).
Proof.
  intros E. apply safe_effect. intros w. apply on_file_same, E.
Qed.

Lemma file_logToDatabase sc msg lvl : safe (on_file Q) (logToDatabase sc msg lvl).
Proof.
  unfold logToDatabase. destruct (database sc) as [db |]; [| constructor].
  apply safe_try_catch; [| constructor].
  apply safe_bind; [| constructor].
  apply safe_await, on_file_runAsync, writes.
Qed.

Lemma file_loadLocations sc : safe (on_file Q) (loadLocations sc).
Proof.
  unfold loadLocations. destruct (database sc) as [db |]; [| constructor].
  apply safe_try_catch; [| constructor].
  apply safe_bind; [apply safe_await, on_file_getAllAsync |].
  intros locs. now apply on_file_effect.
Qed.

Lemma file_loadStats sc : safe (on_file Q) (loadStats sc).
Proof.
  unfold loadStats. destruct (database sc) as [db |]; [| constructor].
  apply safe_try_catch; [| constructor].
  apply safe_bind; [apply safe_await, on_file_getAllAsync |].
  intros [| s l]; [constructor | now apply on_file_effect].
Qed.

Lemma file_getStats sc : safe (on_file Q) (getStats sc).
Proof.
  unfold getStats. destruct (database sc) as [db |]; [| constructor].
  apply safe_try_catch; [| constructor].
  apply safe_bind; [apply safe_await, on_file_getAllAsync | constructor].
Qed.

Lemma file_initDatabase sc : safe (on_file Q) (initDatabase sc).
Proof.
  unfold initDatabase. apply safe_try_catch; [| constructor].
  apply safe_bind; [apply safe_await; intros w H; exact H |].
  intros db. apply safe_bind; [now apply on_file_effect |].
  intros _. apply safe_bind; [apply safe_await, on_file_create_tables |].
  intros _. apply file_logToDatabase.
Qed.

Lemma file_saveLocation sc location : safe (on_file Q) (saveLocation sc location).
Proof.
  unfold saveLocation. destruct (database sc) as [db |]; [| constructor].
  apply safe_try_catch; [| intros e; apply file_logToDatabase].
  apply safe_bind; [apply safe_await, on_file_runAsync, writes |].
  intros i. apply safe_bind; [apply safe_await, on_file_runAsync, writes |].
  intros _. apply safe_bind; [destruct (latitude (coords location)); constructor |].
  intros lat.
  apply safe_bind; [destruct (longitude (coords location)); constructor |].
  intros lon. apply file_logToDatabase.
Qed.

Lemma file_syncData sc : safe (on_file Q) (syncData sc).
Proof.
  unfold syncData. destruct (database sc) as [db |]; [| constructor].
  destruct (isOnline sc); simpl negb; cbv iota; [| constructor].
  apply safe_try_catch.
  - apply safe_bind; [apply safe_await, on_file_getAllAsync |].
    intros [| x b].
    + apply safe_bind; [apply file_logToDatabase |].
      intros _. now apply on_file_effect.
    + cbv zeta.
      apply safe_bind; [apply safe_await, on_file_runAsync, writes |].
      intros _.
      apply safe_bind; [apply safe_await, on_file_runAsync, writes |].
      intros _. apply safe_bind; [apply file_logToDatabase |].
      intros _. apply safe_bind; [now apply on_file_effect |].
      intros _. apply safe_bind; [apply file_loadLocations |].
      intros _. apply file_loadStats.
  - intros e. apply safe_bind; [apply file_logToDatabase |].
    intros _. now apply on_file_effect.
Qed.

Lemma file_backgroundLocationTask locs err :
  safe (on_file Q) (backgroundLocationTask locs err).
Proof.
  unfold backgroundLocationTask. destruct err; [constructor |].
  destruct locs as [[| location l] |];
    [apply safe_Return | | apply safe_Return].
  apply safe_bind; [apply safe_await; intros w H; exact H |].
  intros db.
  apply safe_bind; [apply safe_await, on_file_runAsync, writes |].
  intros _. apply safe_bind; [| constructor].
  apply safe_await. intros w H. exact H.
Qed.

Lemma file_backgroundSyncTask : safe (on_file Q) (backgroundSyncTask ;; ret tt).
Proof.
  unfold backgroundSyncTask. apply safe_bind; [| constructor].
  apply safe_bind; [apply safe_await; intros w H; exact H |].
  intros [|]; [| constructor].
  apply safe_bind; [apply safe_await; intros w H; exact H | constructor].
Qed.

Lemma file_testLocation sc r1 r2 now : safe (on_file Q) (testLocation sc r1 r2 now).
Proof.
  unfold testLocation. destruct (database sc) as [db |]; [| constructor].
  apply safe_try_catch; [| constructor].
  apply safe_bind; [apply file_saveLocation |].
  intros _. apply safe_bind; [apply file_loadLocations |].
  intros _. apply safe_bind; [apply file_loadStats |].
  intros _. now apply on_file_effect.
Qed.

Lemma file_clearDatabase sc choice :
  kept_by_purge Q \/ purges (ClearDatabase sc choice) = false ->
  safe (on_file Q) (clearDatabase sc choice).
Proof.
  intros H. unfold clearDatabase.
  destruct (database sc) as [db |] eqn:D; [| constructor].
  apply safe_bind; [now apply on_file_effect |].
  intros _. destruct choice; [constructor |].
  destruct H as [Pu | NP]; [| simpl in NP; rewrite D in NP; discriminate NP].
  apply safe_try_catch; [| intros e; now apply on_file_effect].
  apply safe_bind; [apply safe_await, on_file_runAsync, Pu |].
  intros _. apply safe_bind; [apply file_logToDatabase |].
  intros _. apply safe_bind; [apply file_loadLocations |].
  intros _. apply safe_bind; [apply file_loadStats |].
  intros _. now apply on_file_effect.
Qed.

Lemma file_perform (o : operation) :
  kept_by_purge Q \/ purges o = false -> safe (on_file Q) (perform o).
Proof.
  destruct o as [sc l | ls e | sc | sc | sc | sc m v | sc | sc c];
    simpl perform; intros H.
  - apply file_saveLocation.
  - apply file_backgroundLocationTask.
  - apply file_syncData.
  - apply file_loadStats.
  - apply file_loadLocations.
  - apply file_logToDatabase.
  - apply file_initDatabase.
  - now apply file_clearDatabase.
Qed.

(** Whatever the writes keep holds after every sequence of completed
    operations and in every state of every interleaving, the purge
    excluded unless it keeps the property too. *)
Lemma on_file_always (allowed : operation -> bool) (w : world) :
  (forall o, allowed o = true -> kept_by_purge Q \/ purges o = false) ->
  on_file Q w ->
  (forall ops, forallb allowed ops = true -> on_file Q (perform_all ops w)) /\
  (forall es, forallb (event_allowed allowed) es = true ->
              on_file Q (sys_world (exec es (System w [])))).
Proof.
  intros A H. split.
  - intros ops Aops. apply (safe_perform_all (on_file Q) allowed); auto.
    intros o Ao. apply file_perform, A, Ao.
  - intros es Aes.
    destruct (safe_exec (on_file Q) allowed
                (fun o Ao => file_perform o (A o Ao))
                file_syncData file_backgroundSyncTask
                (fun c w0 =>
                   on_file_same w0 (setIsOnline c (set_connected c w0))
                                eq_refl)
                es Aes (System w []) (Forall_nil _) H) as [_ R].
    exact R.
Qed.

End OnFile.

(* ================================================================== *)
(** * Statistics *)

Lemma loadStats_run (sc : scope) (db : handle) (w : world) (t : tables) :
  database sc = Some db -> file w = Some t ->
  run (loadStats sc) w
  = (Resolved tt,
     setStats (Stats (Z.of_nat (List.length (locations t)))
                     (Sql.sum_case Sql.is_synced (locations t))
                     (Sql.sum_case Sql.is_unsynced (locations t))) w).
Proof.
  intros D F. unfold loadStats. rewrite D.
  rewrite run_try_catch, run_bind, run_await.
  unfold getAllAsync. rewrite F. reflexivity.
Qed.

Lemma getStats_run (sc : scope) (db : handle) (w : world) (t : tables) :
  database sc = Some db -> file w = Some t ->
  run (getStats sc) w
  = (Resolved (Some (Stats (Z.of_nat (List.length (locations t)))
                           (Sql.sum_case Sql.is_synced (locations t))
                           (Sql.sum_case Sql.is_unsynced (locations t)))),
     w).
Proof.
  intros D F. unfold getStats. rewrite D.
  rewrite run_try_catch, run_bind, run_await.
  unfold getAllAsync. rewrite F. reflexivity.
Qed.

Lemma flags_count (l : list Locations.row) :
  (forall r, In r l -> Locations.synced r = 0 \/ Locations.synced r = 1) ->
  (List.length (filter Sql.is_synced l)
   + List.length (filter Sql.is_unsynced l))%nat = List.length l.
Proof.
  induction l as [| r l IH]; intros H; [reflexivity |].
  assert (IH' := IH (fun x Hx => H x (or_intror Hx))).
  simpl. unfold Sql.is_synced at 1, Sql.is_unsynced at 1.
  destruct (H r (or_introl eq_refl)) as [E | E]; rewrite E; simpl; lia.
Qed.

Lemma flags_binary_adds_up (t : tables) :
  flags_binary t ->
  adds_up (Stats (Z.of_nat (List.length (locations t)))
                 (Sql.sum_case Sql.is_synced (locations t))
                 (Sql.sum_case Sql.is_unsynced (locations t))).
Proof.
  intros H. pose proof (flags_count (locations t) H) as C.
  destruct (locations t) as [| r l].
  - reflexivity.
  - cbv beta iota delta [adds_up Sql.sum_case synced pending total]. lia.
Qed.

Lemma flags_binary_kept :
  kept_by_writes flags_binary /\ kept_by_purge flags_binary.
Proof.
  unfold kept_by_writes, kept_by_purge, stable, changes, flags_binary.
  repeat split.
  - intros lat lon acc alt spd hdg ts t x t' E H r Hr.
    unfold Sql.insert_location in E.
    destruct (Sql.bind_real lat); [| discriminate].
    destruct (Sql.bind_real lon); [| discriminate].
    destruct ts; [| discriminate]. injection E as _ <-. simpl in Hr.
    apply in_app_or in Hr. destruct Hr as [Hr | [<- | []]]; auto.
  - intros tn rid op t x t' E H. injection E as _ <-. exact H.
  - intros msg lvl t x t' E H. injection E as _ <-. exact H.
  - intros ids t x t' E H r Hr. injection E as _ <-. simpl in Hr.
    apply in_map_iff in Hr. destruct Hr as (r0 & <- & Hr0).
    destruct (Sql.mem (Locations.id r0) ids); auto.
  - intros tn v t x t' E H. injection E as _ <-. exact H.
  - intros t x t' E H r Hr. injection E as _ <-. destruct Hr.
Qed.

(** X1: the displayed statistics always add up.  From a store whose flags
    are 0 or 1, whatever operations are performed (the purge and the
    background task included), one after the other or interleaved in any
    order, what [loadStats] then puts on screen and what [getStats]
    returns has synced + pending = total, or total 0 with both sums NULL
    when the table is empty. *)
Theorem displayed_stats_add_up :
  forall (w : world) (t : tables) (sc : scope) (db : handle),
    file w = Some t -> flags_binary t -> database sc = Some db ->
    (forall ops : list operation,
        adds_up (state_stats (after (loadStats sc) (perform_all ops w))) /\
        exists row,
          fst (run (getStats sc) (perform_all ops w)) = Resolved (Some row) /\
          adds_up row) /\
    (forall es : list event,
        adds_up (state_stats
                   (after (loadStats sc)
                          (sys_world (exec es (System w [])))))).
Proof.
  intros w t sc db F B D.
  destruct flags_binary_kept as [Wr Pu].
  assert (H : on_file flags_binary w) by (exists t; auto).
  destruct (on_file_always flags_binary Wr any_operation w
              (fun o _ => or_introl Pu) H) as [Seq Sch].
  assert (shown : forall w', on_file flags_binary w' ->
                             adds_up (state_stats (after (loadStats sc) w'))).
  { intros w' (t' & F' & B'). unfold after.
    rewrite (loadStats_run sc db w' t' D F'). simpl.
    now apply flags_binary_adds_up. }
  split.
  - intros ops.
    assert (A : forallb any_operation ops = true)
      by (induction ops; simpl; auto).
    specialize (Seq ops A). split; [now apply shown |].
    destruct Seq as (t' & F' & B').
    rewrite (getStats_run sc db _ t' D F'). simpl.
    eexists. split; [reflexivity | now apply flags_binary_adds_up].
  - intros es. apply shown, Sch.
    induction es as [| e es IH]; simpl; [reflexivity |].
    rewrite IH. destruct e; reflexivity.
Qed.

Lemma displayed_stats_add_up_witness :
  file ready_world = Some empty_tables /\
  flags_binary empty_tables /\
  database ready = Some TrackerDb /\
  adds_up (state_stats
             (after (loadStats ready)
                    (perform_all [SaveLocation ready (fix_at 28.1 77.2 1);
                                  SaveLocation ready (fix_at 28.2 77.3 2);
                                  SyncData ready;
                                  SaveLocation ready (fix_at 28.3 77.4 3)]
                                 ready_world))).
Proof.
  assert (B : flags_binary empty_tables) by (intros r []).
  split; [reflexivity |]. split; [exact B |]. split; [reflexivity |].
  destruct (displayed_stats_add_up ready_world empty_tables ready TrackerDb
              eq_refl B eq_refl) as [S _].
  exact (proj1 (S [SaveLocation ready (fix_at 28.1 77.2 1);
                   SaveLocation ready (fix_at 28.2 77.3 2);
                   SyncData ready;
                   SaveLocation ready (fix_at 28.3 77.4 3)])).
Defined.

(* ================================================================== *)
(** * What is only ever added to *)

Lemma extends_refl {A} (l : list A) : extends l l.
Proof. exists []. now rewrite app_nil_r. Qed.

Lemma extends_app {A} (l l' more : list A) :
  extends l l' -> extends l (l' ++ more).
Proof. intros [a ->]. exists (a ++ more)%list. now rewrite app_assoc. Qed.

Lemma unflagged_set_synced (r : Locations.row) :
  unflagged (Sql.set_synced r) = unflagged r.
Proof. reflexivity. Qed.

Lemma unflagged_update_synced (ids : list Z) (t : tables) :
  map unflagged (locations (Sql.update_synced ids t))
  = map unflagged (locations t).
Proof.
  simpl. rewrite map_map. apply map_ext. intros r.
  destruct (Sql.mem (Locations.id r) ids); reflexivity.
Qed.

Lemma log_continues_kept (t0 : tables) : kept_by_writes (log_continues t0).
Proof.
  unfold kept_by_writes, stable, changes, log_continues. repeat split.
  - intros lat lon acc alt spd hdg ts t x t' E H.
    unfold Sql.insert_location in E.
    destruct (Sql.bind_real lat); [| discriminate].
    destruct (Sql.bind_real lon); [| discriminate].
    destruct ts; [| discriminate]. injection E as _ <-. exact H.
  - intros tn rid op t x t' E H. injection E as _ <-. exact H.
  - intros msg lvl t x t' E H. injection E as _ <-. simpl.
    now apply extends_app.
  - intros ids t x t' E H. injection E as _ <-. exact H.
  - intros tn v t x t' E H. injection E as _ <-. exact H.
Qed.

Lemma samples_continue_kept (t0 : tables) :
  kept_by_writes (samples_continue t0).
Proof.
  unfold kept_by_writes, stable, changes, samples_continue. repeat split.
  - intros lat lon acc alt spd hdg ts t x t' E H.
    unfold Sql.insert_location in E.
    destruct (Sql.bind_real lat); [| discriminate].
    destruct (Sql.bind_real lon); [| discriminate].
    destruct ts; [| discriminate]. injection E as _ <-. simpl.
    rewrite map_app. now apply extends_app.
  - intros tn rid op t x t' E H. injection E as _ <-. exact H.
  - intros msg lvl t x t' E H. injection E as _ <-. exact H.
  - intros ids t x t' E H. injection E as _ <-.
    rewrite unflagged_update_synced. exact H.
  - intros tn v t x t' E H. injection E as _ <-. exact H.
Qed.

(** X2: the audit log is append-only.  Whatever operations other than a
    confirmed purge are performed, one after the other or interleaved in
    any order, the entries the log held are still there, unchanged and in
    the same order, and new entries come after them. *)
Theorem audit_log_append_only :
  forall (w : world) (t : tables),
    file w = Some t ->
    (forall ops : list operation,
        forallb not_purge ops = true ->
        exists t', file (perform_all ops w) = Some t' /\
                   extends (app_logs t) (app_logs t')) /\
    (forall es : list event,
        forallb (event_allowed not_purge) es = true ->
        exists t', file (sys_world (exec es (System w []))) = Some t' /\
                   extends (app_logs t) (app_logs t')).
Proof.
  intros w t F.
  assert (H : on_file (log_continues t) w).
  { exists t. split; [exact F | apply extends_refl]. }
  apply (on_file_always (log_continues t) (log_continues_kept t)
           not_purge w); [| exact H].
  intros o N. right. now apply negb_true_iff.
Qed.

Lemma audit_log_append_only_witness :
  file one_pending
  = Some (Tables [Locations.Row 1 28.1 77.2 None None None None 1 0]
                 [SyncQueue.Row 1 "locations" 1 "INSERT"]
                 [AppLogs.Row 1 [Str "Location saved: "; Fixed6 28.1;
                                 Str ", "; Fixed6 77.2] "info"]
                 1 1 1) /\
  exists t',
    file (perform_all [SyncData ready; ClearDatabase ready Cancel]
                      one_pending) = Some t' /\
    extends [AppLogs.Row 1 [Str "Location saved: "; Fixed6 28.1;
                            Str ", "; Fixed6 77.2] "info"]
            (app_logs t').
Proof.
  assert (F : file one_pending
              = Some (Tables
                        [Locations.Row 1 28.1 77.2 None None None None 1 0]
                        [SyncQueue.Row 1 "locations" 1 "INSERT"]
                        [AppLogs.Row 1 [Str "Location saved: "; Fixed6 28.1;
                                        Str ", "; Fixed6 77.2] "info"]
                        1 1 1))
    by (vm_compute; reflexivity).
  split; [exact F |].
  exact (proj1 (audit_log_append_only one_pending _ F)
               [SyncData ready; ClearDatabase ready Cancel] eq_refl).
Defined.

(** X3: samples are only ever added and flagged.  Whatever operations
    other than a confirmed purge are performed, in any interleaving, the
    samples the store held are still there in the same order with the same
    id, coordinates, readings and timestamp (only their flag may differ),
    and new samples come after them. *)
Theorem samples_append_only :
  forall (w : world) (t : tables),
    file w = Some t ->
    (forall ops : list operation,
        forallb not_purge ops = true ->
        exists t', file (perform_all ops w) = Some t' /\
                   extends (map unflagged (locations t))
                           (map unflagged (locations t'))) /\
    (forall es : list event,
        forallb (event_allowed not_purge) es = true ->
        exists t', file (sys_world (exec es (System w []))) = Some t' /\
                   extends (map unflagged (locations t))
                           (map unflagged (locations t'))).
Proof.
  intros w t F.
  assert (H : on_file (samples_continue t) w).
  { exists t. split; [exact F | apply extends_refl]. }
  apply (on_file_always (samples_continue t) (samples_continue_kept t)
           not_purge w); [| exact H].
  intros o N. right. now apply negb_true_iff.
Qed.

Lemma samples_append_only_witness :
  file (with_file (Some one_synced_one_pending) ready_world)
  = Some one_synced_one_pending /\
  exists t',
    file (perform_all [SyncData ready;
                       SaveLocation ready (fix_at 28.3 77.4 30)]
            (with_file (Some one_synced_one_pending) ready_world))
    = Some t' /\
    extends (map unflagged (locations one_synced_one_pending))
            (map unflagged (locations t')).
Proof.
  split; [reflexivity |].
  exact (proj1 (samples_append_only
                  (with_file (Some one_synced_one_pending) ready_world)
                  one_synced_one_pending eq_refl)
               [SyncData ready; SaveLocation ready (fix_at 28.3 77.4 30)]
               eq_refl).
Defined.

(* ================================================================== *)
(** * Ids are given out once *)

Lemma next_rowid_above (t : tables) :
  ids_issued t ->
  seq_locations t
  < Sql.next_rowid (seq_locations t) (map Locations.id (locations t)) /\
  forall r, In r (locations t) ->
            Locations.id r
            < Sql.next_rowid (seq_locations t)
                             (map Locations.id (locations t)).
Proof.
  intros [B _]. unfold Sql.next_rowid. split; [lia |].
  intros r Hr. specialize (B r Hr). lia.
Qed.

Lemma succeeds_refl (t : tables) : ids_issued t -> succeeds t t.
Proof.
  intros I. split; [lia |]. split; [exact I |].
  intros r Hr _. exists r. auto.
Qed.

Lemma succeeds_same (t0 t t' : tables) :
  locations t' = locations t -> seq_locations t' = seq_locations t ->
  succeeds t0 t -> succeeds t0 t'.
Proof.
  unfold succeeds, ids_issued. intros L S H. rewrite L, S. exact H.
Qed.

Lemma succeeds_kept (t0 : tables) :
  kept_by_writes (succeeds t0) /\ kept_by_purge (succeeds t0).
Proof.
  unfold kept_by_writes, kept_by_purge, stable, changes.
  split; [split; [| split; [| split; [| split]]] |].
  - intros lat lon acc alt spd hdg ts t x t' E (S & I & O).
    unfold Sql.insert_location in E.
    destruct (Sql.bind_real lat); [| discriminate].
    destruct (Sql.bind_real lon); [| discriminate].
    destruct ts; [| discriminate]. injection E as _ <-.
    destruct (next_rowid_above t I) as [Above Fresh].
    destruct I as [B N].
    split; [simpl; lia |]. split; [split |].
    + intros r Hr. simpl in Hr. apply in_app_or in Hr.
      destruct Hr as [Hr | [<- | []]]; simpl.
      * specialize (Fresh r Hr). lia.
      * lia.
    + simpl. rewrite map_app. apply NoDup_app; [exact N | |].
      * constructor; [intros [] | constructor].
      * intros i Hi [Ei | []]. apply in_map_iff in Hi.
        destruct Hi as (r & <- & Hr). specialize (Fresh r Hr).
        simpl in Ei. lia.
    + intros r' Hr' Le. simpl in Hr'. apply in_app_or in Hr'.
      destruct Hr' as [Hr' | [<- | []]].
      * now apply O.
      * simpl in Le. lia.
  - intros tn rid op t x t' E H. injection E as _ <-.
    now apply (succeeds_same t0 t).
  - intros msg lvl t x t' E H. injection E as _ <-.
    now apply (succeeds_same t0 t).
  - intros ids t x t' E (S & [B N] & O). injection E as _ <-.
    split; [exact S |]. split; [split |].
    + intros r Hr. simpl in Hr. apply in_map_iff in Hr.
      destruct Hr as (r0 & <- & Hr0). specialize (B r0 Hr0).
      simpl seq_locations.
      destruct (Sql.mem (Locations.id r0) ids); exact B.
    + rewrite update_synced_ids. exact N.
    + intros r' Hr' Le. simpl in Hr'. apply in_map_iff in Hr'.
      destruct Hr' as (r0 & <- & Hr0).
      destruct (Sql.mem (Locations.id r0) ids).
      * rewrite unflagged_set_synced. apply O; [exact Hr0 | exact Le].
      * now apply O.
  - intros tn v t x t' E H. injection E as _ <-.
    now apply (succeeds_same t0 t).
  - intros t x t' E (S & I & O). injection E as _ <-.
    split; [exact S |]. split; [split |]; simpl.
    + intros r [].
    + constructor.
    + intros r' [].
Qed.

Lemma NoDup_ids_same (l : list Locations.row) (a b : Locations.row) :
  NoDup (map Locations.id l) -> In a l -> In b l ->
  Locations.id a = Locations.id b -> a = b.
Proof.
  induction l as [| x l IH]; simpl; intros N Ha Hb E; [destruct Ha |].
  inversion N as [| i l' Nx Nl]; subst.
  destruct Ha as [-> | Ha], Hb as [-> | Hb].
  - reflexivity.
  - exfalso. apply Nx. rewrite E. now apply in_map.
  - exfalso. apply Nx. rewrite <- E. now apply in_map.
  - now apply IH.
Qed.

(** X4: an id is given out once.  From a store whose ids are unique and
    not above the counter, whatever operations are performed, the purge
    and the background task included, in any interleaving: ids stay unique,
    and a sample that carries the id of a sample of the starting store is
    that sample, its flag apart.  So after a purge the ids do not start
    again: no new sample gets the id of a deleted one. *)
Theorem ids_never_reused :
  forall (w : world) (t : tables),
    file w = Some t -> ids_issued t ->
    (forall ops : list operation,
        exists t',
          file (perform_all ops w) = Some t' /\
          NoDup (map Locations.id (locations t')) /\
          forall r r', In r (locations t) -> In r' (locations t') ->
                       Locations.id r' = Locations.id r ->
                       unflagged r' = unflagged r) /\
    (forall es : list event,
        exists t',
          file (sys_world (exec es (System w []))) = Some t' /\
          NoDup (map Locations.id (locations t')) /\
          forall r r', In r (locations t) -> In r' (locations t') ->
                       Locations.id r' = Locations.id r ->
                       unflagged r' = unflagged r).
Proof.
  intros w t F I.
  destruct (succeeds_kept t) as [Wr Pu].
  assert (H : on_file (succeeds t) w).
  { exists t. split; [exact F | now apply succeeds_refl]. }
  destruct (on_file_always (succeeds t) Wr any_operation w
              (fun o _ => or_introl Pu) H) as [Seq Sch].
  assert (same : forall t', succeeds t t' ->
            NoDup (map Locations.id (locations t')) /\
            forall r r', In r (locations t) -> In r' (locations t') ->
                         Locations.id r' = Locations.id r ->
                         unflagged r' = unflagged r).
  { intros t' (S & [B' N'] & O). split; [exact N' |].
    intros r r' Hr Hr' E. destruct I as [B N].
    destruct (O r' Hr') as (r2 & Hr2 & U).
    - rewrite E. now apply B.
    - rewrite U. f_equal. apply (NoDup_ids_same (locations t)); auto.
      rewrite <- E.
      change (Locations.id (unflagged r2) = Locations.id (unflagged r')).
      now rewrite U. }
  split.
  - intros ops.
    destruct (Seq ops) as (t' & F' & S');
      [induction ops; simpl; auto |].
    exists t'. split; [exact F' | now apply same].
  - intros es.
    destruct (Sch es) as (t' & F' & S').
    { induction es as [| e es IH]; simpl; [reflexivity |].
      rewrite IH. destruct e; reflexivity. }
    exists t'. split; [exact F' | now apply same].
Qed.

Lemma ids_never_reused_witness :
  file (with_file (Some one_synced_one_pending) ready_world)
  = Some one_synced_one_pending /\
  ids_issued one_synced_one_pending /\
  exists t',
    file (perform_all [ClearDatabase ready Clear;
                       SaveLocation ready (fix_at 28.3 77.4 30)]
            (with_file (Some one_synced_one_pending) ready_world))
    = Some t' /\
    NoDup (map Locations.id (locations t')).
Proof.
  assert (I : ids_issued one_synced_one_pending).
  { split.
    - intros r [<- | [<- | []]]; simpl; lia.
    - simpl. repeat constructor; simpl; intuition discriminate. }
  split; [reflexivity |]. split; [exact I |].
  destruct (proj1 (ids_never_reused
                     (with_file (Some one_synced_one_pending) ready_world)
                     one_synced_one_pending eq_refl I)
                  [ClearDatabase ready Clear;
                   SaveLocation ready (fix_at 28.3 77.4 30)])
    as (t' & F' & N' & _).
  exists t'. split; [exact F' | exact N'].
Defined.

(* ================================================================== *)
(** * What one sync marks *)

Lemma filter_length_perm {A} (f : A -> bool) (l l' : list A) :
  Permutation l l' ->
  List.length (filter f l) = List.length (filter f l').
Proof.
  induction 1 as [| x l l' P IH | x y l | l l' l'' P1 IH1 P2 IH2]; simpl.
  - reflexivity.
  - destruct (f x); simpl; now rewrite IH.
  - destruct (f x), (f y); reflexivity.
  - now rewrite IH1.
Qed.

Lemma NoDup_app_disjoint {A} (l l' : list A) :
  NoDup (l ++ l') -> forall a, In a l -> ~ In a l'.
Proof.
  induction l as [| x l IH]; simpl; intros N a Ha; [destruct Ha |].
  inversion N as [| y m Nx Nl]; subst. destruct Ha as [-> | Ha].
  - intros H. apply Nx, in_or_app. now right.
  - now apply IH.
Qed.

Lemma NoDup_map_filter {A B} (g : A -> B) (f : A -> bool) (l : list A) :
  NoDup (map g l) -> NoDup (map g (filter f l)).
Proof.
  induction l as [| x l IH]; simpl; intros N; [constructor |].
  inversion N as [| y m Nx Nl]; subst.
  destruct (f x); simpl; [| now apply IH].
  constructor; [| now apply IH].
  intros H. apply Nx. apply in_map_iff in H.
  destruct H as (z & E & Hz). apply filter_In in Hz.
  rewrite <- E. apply in_map. tauto.
Qed.

Lemma pending_after_update (ids : list Z) (l : list Locations.row) :
  filter Sql.is_unsynced
    (map (fun r => if Sql.mem (Locations.id r) ids
                   then Sql.set_synced r else r) l)
  = filter (fun r => negb (Sql.mem (Locations.id r) ids))
           (filter Sql.is_unsynced l).
Proof.
  induction l as [| r l IH]; simpl; [reflexivity |].
  destruct (Sql.mem (Locations.id r) ids) eqn:M.
  - unfold Sql.is_unsynced at 1. simpl.
    destruct (Sql.is_unsynced r); simpl; rewrite ?M; simpl; exact IH.
  - destruct (Sql.is_unsynced r); simpl; rewrite ?M; simpl;
      now rewrite IH.
Qed.

(** The batch and the pending rows it leaves out. *)
Lemma batch_split (n : nat) (t : tables) :
  exists rest,
    Permutation (Sql.select_unsynced n t ++ rest)
                (filter Sql.is_unsynced (locations t)) /\
    List.length (Sql.select_unsynced n t)
    = Nat.min n (pending_count t).
Proof.
  unfold Sql.select_unsynced, pending_count.
  set (p := filter Sql.is_unsynced (locations t)).
  exists (skipn n (Sql.order_by Sql.timestamp_asc p)). split.
  - rewrite firstn_skipn. apply order_by_perm.
  - rewrite length_firstn.
    now rewrite (Permutation_length (order_by_perm Sql.timestamp_asc p)).
Qed.

Lemma update_synced_pending_count (n : nat) (t : tables) :
  NoDup (map Locations.id (locations t)) ->
  pending_count (Sql.update_synced
                   (map Locations.id (Sql.select_unsynced n t)) t)
  = (pending_count t - n)%nat.
Proof.
  intros N. destruct (batch_split n t) as (rest & P & L).
  set (b := Sql.select_unsynced n t) in *.
  set (ids := map Locations.id b).
  unfold pending_count at 1. simpl locations.
  rewrite pending_after_update.
  rewrite <- (filter_length_perm _ _ _ P), filter_app, length_app.
  assert (Nb : NoDup (map Locations.id (b ++ rest))).
  { eapply Permutation_NoDup.
    - apply Permutation_map, Permutation_sym, P.
    - now apply NoDup_map_filter. }
  rewrite map_app in Nb.
  rewrite (filter_none _ b).
  2: { intros r Hr. apply negb_false_iff, mem_In. now apply in_map. }
  assert (K : filter (fun r => negb (Sql.mem (Locations.id r) ids)) rest
              = rest).
  { rewrite <- (filter_ext_in (fun _ => true)).
    - clear. induction rest as [| x l IH]; simpl; [| rewrite IH];
        reflexivity.
    - intros r Hr. symmetry. apply negb_true_iff.
      destruct (Sql.mem (Locations.id r) ids) eqn:M; [| reflexivity].
      apply mem_In in M. exfalso.
      apply (NoDup_app_disjoint _ _ Nb (Locations.id r) M).
      now apply in_map. }
  rewrite K. simpl.
  pose proof (Permutation_length P) as Len. rewrite length_app in Len.
  fold (pending_count t) in Len. lia.
Qed.

Lemma syncData_pending (sc : scope) (db : handle) (w : world) (t : tables) :
  database sc = Some db -> isOnline sc = true -> file w = Some t ->
  NoDup (map Locations.id (locations t)) ->
  exists t',
    file (after (syncData sc) w) = Some t' /\
    map Locations.id (locations t') = map Locations.id (locations t) /\
    pending_count t' = (pending_count t - batch_limit)%nat.
Proof.
  intros D O F N.
  destruct (syncData_file sc db w t D O F) as (t' & F' & L & _).
  exists t'. split; [exact F' |]. split.
  - rewrite L. apply update_synced_ids.
  - unfold pending_count at 1. rewrite L.
    apply (update_synced_pending_count batch_limit t N).
Qed.

(** The batch is older than the pending rows it leaves out. *)
Lemma batch_oldest (n : nat) (t : tables) :
  exists rest,
    Permutation (Sql.select_unsynced n t ++ rest)
                (filter Sql.is_unsynced (locations t)) /\
    (forall x y, In x (Sql.select_unsynced n t) -> In y rest ->
                 oldest_first x y).
Proof.
  unfold Sql.select_unsynced.
  set (p := filter Sql.is_unsynced (locations t)).
  set (s := Sql.order_by Sql.timestamp_asc p).
  exists (skipn n s). split.
  - rewrite firstn_skipn. apply order_by_perm.
  - pose proof (order_by_asc p) as Ss. fold s in Ss.
    rewrite <- (firstn_skipn n s) in Ss.
    apply StronglySorted_app_inv in Ss. exact (proj2 Ss).
Qed.

Lemma NoDup_map_eq {A B} (f : A -> B) (l : list A) (a b : A) :
  NoDup (map f l) -> In a l -> In b l -> f a = f b -> a = b.
Proof.
  induction l as [| x l IH]; simpl; intros N Ha Hb E; [destruct Ha |].
  inversion N as [| y m Nx Nl]; subst.
  destruct Ha as [-> | Ha], Hb as [-> | Hb].
  - reflexivity.
  - exfalso. apply Nx. rewrite E. now apply in_map.
  - exfalso. apply Nx. rewrite <- E. now apply in_map.
  - now apply IH.
Qed.

(** What the [UPDATE] bound to the batch does to each row. *)
Lemma update_batch_rows (n : nat) (t : tables) :
  NoDup (map Locations.id (locations t)) ->
  let marked :=
    locations (Sql.update_synced
                 (map Locations.id (Sql.select_unsynced n t)) t) in
  (forall x, In x (locations t) ->
             In x marked \/ In (Sql.set_synced x) marked) /\
  (forall y, In y marked -> Sql.is_unsynced y = true ->
             In y (locations t) /\ ~ In y (Sql.select_unsynced n t)) /\
  (forall x, In x (locations t) -> ~ In x marked ->
             In x (Sql.select_unsynced n t)).
Proof.
  intros N marked. unfold marked. simpl locations.
  set (b := Sql.select_unsynced n t).
  set (ids := map Locations.id b).
  assert (Sub : forall r, In r b -> In r (locations t)).
  { intros r Hr. destruct (batch_split n t) as (rest & P & _).
    fold b in P.
    assert (Hp : In r (filter Sql.is_unsynced (locations t))).
    { eapply Permutation_in; [exact P |]. apply in_or_app. now left. }
    apply filter_In in Hp. tauto. }
  conjuncts.
  - intros x Hx. destruct (Sql.mem (Locations.id x) ids) eqn:M.
    + right. apply in_map_iff. exists x. rewrite M. auto.
    + left. apply in_map_iff. exists x. rewrite M. auto.
  - intros y Hy U. apply in_map_iff in Hy. destruct Hy as (r & E & Hr).
    destruct (Sql.mem (Locations.id r) ids) eqn:M.
    + subst y. discriminate U.
    + subst y. split; [exact Hr |]. intros Hb.
      assert (M' : Sql.mem (Locations.id r) ids = true)
        by (apply mem_In; now apply in_map).
      congruence.
  - intros x Hx Nx. destruct (Sql.mem (Locations.id x) ids) eqn:M.
    + apply mem_In, in_map_iff in M. destruct M as (r & E & Hr).
      rewrite (NoDup_map_eq Locations.id (locations t) x r N Hx
                 (Sub r Hr) (eq_sym E)).
      exact Hr.
    + exfalso. apply Nx. apply in_map_iff. exists x. rewrite M. auto.
Qed.

(** X5: what syncs mark.  With the handle set, online, and unique ids,
    [k] syncs in a row leave [pending - 100 k] samples pending (none once
    [100 k] reaches the number pending) and never change how many samples
    there are.  Every sample is still there, as it was or marked synced;
    a sample still pending afterwards is a row the syncs did not touch;
    and the samples the syncs marked are the oldest: a sample that was
    pending and no longer is was captured no later than any sample that
    is still pending. *)
Theorem syncs_drain_pending :
  forall (k : nat) (sc : scope) (db : handle) (w : world) (t : tables),
    database sc = Some db -> isOnline sc = true -> file w = Some t ->
    NoDup (map Locations.id (locations t)) ->
    exists t',
      file (perform_all (repeat (SyncData sc) k) w) = Some t' /\
      pending_count t' = (pending_count t - k * 100)%nat /\
      List.length (locations t') = List.length (locations t) /\
      (forall x, In x (locations t) ->
                 In x (locations t') \/
                 In (Sql.set_synced x) (locations t')) /\
      (forall y, In y (locations t') -> Sql.is_unsynced y = true ->
                 In y (locations t)) /\
      (forall x y,
          In x (locations t) -> Sql.is_unsynced x = true ->
          ~ In x (locations t') ->
          In y (locations t') -> Sql.is_unsynced y = true ->
          oldest_first x y).
Proof.
  induction k as [| k IH]; intros sc db w t D O F N.
  - exists t. simpl. split; [exact F |]. split; [lia |].
    split; [reflexivity |]. split; [intros x Hx; now left |].
    split; [intros y Hy _; exact Hy |].
    intros x y Hx _ Nx. contradiction.
  - destruct (syncData_pending sc db w t D O F N) as (t1 & F1 & I1 & P1).
    destruct (syncData_file sc db w t D O F) as (t1' & F1' & L1 & _).
    rewrite F1 in F1'. injection F1' as <-.
    assert (N1 : NoDup (map Locations.id (locations t1)))
      by now rewrite I1.
    destruct (IH sc db (after (syncData sc) w) t1 D O F1 N1)
      as (t' & F' & P' & L' & A' & U' & Q').
    destruct (update_batch_rows batch_limit t N) as (A1 & U1 & Q1).
    rewrite <- L1 in A1, U1, Q1.
    exists t'. split; [exact F' |]. split.
    { rewrite P', P1. unfold batch_limit. lia. }
    split.
    { rewrite L'. rewrite <- (length_map Locations.id (locations t1)), I1.
      apply length_map. }
    split.
    { intros x Hx. destruct (A1 x Hx) as [H | H].
      - exact (A' x H).
      - destruct (A' _ H) as [H' | H']; [now right |].
        rewrite set_synced_idem in H'. now right. }
    split.
    { intros y Hy Uy. exact (proj1 (U1 y (U' y Hy Uy) Uy)). }
    intros x y Hx Ux Nx Hy Uy.
    pose proof (U' y Hy Uy) as Hy1.
    destruct (U1 y Hy1 Uy) as [Hy0 Nb].
    destruct (batch_oldest batch_limit t) as (rest & P & Older).
    destruct (Sql.mem (Locations.id x)
                (map Locations.id (Sql.select_unsynced batch_limit t)))
      eqn:M.
    + assert (Hb : In x (Sql.select_unsynced batch_limit t)).
      { apply Q1; [exact Hx |]. intros H1. rewrite L1 in H1.
        simpl locations in H1. apply in_map_iff in H1.
        destruct H1 as (r & E & Hr).
        destruct (Sql.mem (Locations.id r)
                    (map Locations.id
                         (Sql.select_unsynced batch_limit t))) eqn:Mr.
        - rewrite <- E in Ux. discriminate Ux.
        - subst r. congruence. }
      apply Older; [exact Hb |].
      assert (Hp : In y (filter Sql.is_unsynced (locations t)))
        by (apply filter_In; split; assumption).
      apply (Permutation_in _ (Permutation_sym P)) in Hp.
      apply in_app_or in Hp. destruct Hp as [Hp | Hp];
        [contradiction | exact Hp].
    + apply Q'; try assumption.
      rewrite L1. simpl locations. apply in_map_iff. exists x.
      rewrite M. auto.
Qed.

Lemma syncs_drain_pending_witness :
  database ready = Some TrackerDb /\
  isOnline ready = true /\
  file (with_file (Some one_synced_one_pending) ready_world)
  = Some one_synced_one_pending /\
  NoDup (map Locations.id (locations one_synced_one_pending)) /\
  exists t',
    file (perform_all (repeat (SyncData ready) 1)
            (with_file (Some one_synced_one_pending) ready_world))
    = Some t' /\
    pending_count t' = 0%nat /\
    (In (Locations.Row 2 28.2 77.3 None None None None 20 0)
        (locations t') \/
     In (Locations.Row 2 28.2 77.3 None None None None 20 1)
        (locations t')).
Proof.
  assert (N : NoDup (map Locations.id (locations one_synced_one_pending))).
  { simpl. repeat constructor; simpl; intuition discriminate. }
  split; [reflexivity |]. split; [reflexivity |]. split; [reflexivity |].
  split; [exact N |].
  destruct (syncs_drain_pending 1 ready TrackerDb
              (with_file (Some one_synced_one_pending) ready_world)
              one_synced_one_pending eq_refl eq_refl eq_refl N)
    as (t' & F' & P' & _ & A' & _).
  exists t'. split; [exact F' |]. split; [exact P' |].
  apply (A' (Locations.Row 2 28.2 77.3 None None None None 20 0)).
  simpl. right. left. reflexivity.
Defined.

Lemma select_unsynced_none (n : nat) (t : tables) :
  pending_count t = 0%nat -> Sql.select_unsynced n t = [].
Proof.
  unfold pending_count, Sql.select_unsynced. intros H.
  apply length_zero_iff_nil in H. rewrite H. simpl. apply firstn_nil.
Qed.

(** X6: a sync with nothing pending.  With the handle set and online, if
    no sample is pending, [syncData] leaves samples and queue as they are,
    adds the one entry "No data to sync" to the audit log, shows the alert
    "Sync", and returns at once: the displayed list and statistics are not
    refreshed. *)
Theorem sync_with_nothing_pending :
  forall (sc : scope) (db : handle) (w : world) (t : tables),
    database sc = Some db -> isOnline sc = true -> file w = Some t ->
    pending_count t = 0%nat ->
    run (syncData sc) w
    = (Resolved tt,
       push_alert (Alert "Sync" [Str "No data to sync"])
         (with_file
            (Some (Tables (locations t) (sync_queue t)
                     (app_logs t ++
                        [AppLogs.Row
                           (Sql.next_rowid (seq_app_logs t)
                              (map AppLogs.id (app_logs t)))
                           [Str "No data to sync"] "info"])
                     (seq_locations t) (seq_sync_queue t)
                     (Sql.next_rowid (seq_app_logs t)
                        (map AppLogs.id (app_logs t)))))
            w)).
Proof.
  intros sc db w t D O F P. unfold syncData. rewrite D, O.
  simpl negb. cbv iota.
  rewrite run_try_catch, run_bind, run_await.
  unfold getAllAsync. rewrite F, (select_unsynced_none _ t P).
  cbv beta iota.
  rewrite run_bind, (logToDatabase_run sc db _ _ w t D F), run_effect.
  reflexivity.
Qed.

Lemma sync_with_nothing_pending_witness :
  database ready = Some TrackerDb /\
  isOnline ready = true /\
  file ready_world = Some empty_tables /\
  pending_count empty_tables = 0%nat /\
  logged (after (syncData ready) ready_world) = [[Str "No data to sync"]] /\
  state_stats (after (syncData ready) ready_world)
  = state_stats ready_world.
Proof.
  split; [reflexivity |]. split; [reflexivity |]. split; [reflexivity |].
  split; [reflexivity |].
  unfold after.
  rewrite (sync_with_nothing_pending ready TrackerDb ready_world
             empty_tables eq_refl eq_refl eq_refl eq_refl).
  split; reflexivity.
Defined.

(** X7: the handle is set but the schema is missing (the state between
    [setDatabase] and the end of the [CREATE TABLE] statements).  Every
    call still returns normally and the file stays without schema.  The
    sync shows "Sync Failed" with SQLite's message; the confirmed purge
    shows "Failed to clear database"; [saveLocation] loses the fix without
    any sign, its error log entry failing too; [testLocation] shows "Test
    location added successfully" although nothing was stored; the displays
    are left as they were and [getStats] answers zeros. *)
Theorem calls_without_schema :
  forall (sc : scope) (db : handle) (w : world),
    database sc = Some db -> file w = None ->
    (isOnline sc = true ->
     run (syncData sc) w
     = (Resolved tt,
        push_alert (Alert "Sync Failed" [Str "no such table: locations"])
                   w)) /\
    run (clearDatabase sc Clear) w
    = (Resolved tt,
       push_alert (Alert "Error" [Str "Failed to clear database"])
         (push_alert
            (Alert "Clear Database"
               [Str "Are you sure you want to delete all location data?"])
            w)) /\
    (forall location, run (saveLocation sc location) w = (Resolved tt, w)) /\
    (forall r1 r2 now,
        run (testLocation sc r1 r2 now) w
        = (Resolved tt,
           push_alert
             (Alert "Test" [Str "Test location added successfully"]) w)) /\
    run (loadStats sc) w = (Resolved tt, w) /\
    run (loadLocations sc) w = (Resolved tt, w) /\
    run (getStats sc) w = (Resolved (Some zero_stats), w).
Proof.
  intros sc db w D F.
  destruct w as [f n d o st l a]. simpl in F. subst f.
  unfold syncData, clearDatabase, testLocation, getStats, saveLocation,
    loadStats, loadLocations, logToDatabase.
  rewrite D. conjuncts; try reflexivity.
  intros O. rewrite O. reflexivity.
Qed.

Lemma calls_without_schema_witness :
  database ready = Some TrackerDb /\
  file (sys_world (exec [Call (InitDatabase first_render);
                         Resume 0; Resume 0]
                        (System (mount_world None true) []))) = None /\
  state_database (sys_world (exec [Call (InitDatabase first_render);
                                   Resume 0; Resume 0]
                                  (System (mount_world None true) [])))
  = Some TrackerDb /\
  alerts (after (testLocation ready 0.5 0.5 1)
            (sys_world (exec [Call (InitDatabase first_render);
                              Resume 0; Resume 0]
                             (System (mount_world None true) []))))
  = [Alert "Test" [Str "Test location added successfully"]].
Proof.
  split; [reflexivity |]. split; [reflexivity |]. split; [reflexivity |].
  destruct (calls_without_schema ready TrackerDb
              (sys_world (exec [Call (InitDatabase first_render);
                                Resume 0; Resume 0]
                               (System (mount_world None true) [])))
              eq_refl eq_refl) as (_ & _ & _ & T & _).
  unfold after. rewrite T. reflexivity.
Defined.

(** X8: a sync of a single pending sample clears its queue entries.  With
    the handle set and online, if exactly one sample [r] is pending, the
    sync marks it and removes from [sync_queue] exactly the entries that
    refer to it; every other entry stays, in order. *)
Theorem sync_of_single_sample :
  forall (sc : scope) (db : handle) (w : world) (t : tables)
         (r : Locations.row),
    database sc = Some db -> isOnline sc = true -> file w = Some t ->
    filter Sql.is_unsynced (locations t) = [r] ->
    exists t',
      file (after (syncData sc) w) = Some t' /\
      locations t' = locations (markSynced [Locations.id r] t) /\
      sync_queue t'
      = filter (fun q => negb (references r q)) (sync_queue t) /\
      entries_for r t' = [].
Proof.
  intros sc db w t r D O F P.
  destruct (syncData_file sc db w t D O F) as (t' & F' & L & _ & Q).
  assert (B : Sql.select_unsynced batch_limit t = [r]).
  { unfold Sql.select_unsynced. rewrite P. reflexivity. }
  rewrite B in L, Q. simpl map in L, Q.
  rewrite delete_sync_queue_batch in Q.
  exists t'. split; [exact F' |]. split; [exact L |]. split; [exact Q |].
  unfold entries_for. rewrite Q. apply filter_none.
  intros q Hq. apply filter_In in Hq. destruct Hq as [_ Hq].
  now apply negb_true_iff in Hq.
Qed.

Lemma sync_of_single_sample_witness :
  database ready = Some TrackerDb /\
  isOnline ready = true /\
  file (with_file (Some one_synced_one_pending) ready_world)
  = Some one_synced_one_pending /\
  filter Sql.is_unsynced (locations one_synced_one_pending)
  = [Locations.Row 2 28.2 77.3 None None None None 20 0] /\
  outbox (after (syncData ready)
            (with_file (Some one_synced_one_pending) ready_world)) = [].
Proof.
  split; [reflexivity |]. split; [reflexivity |]. split; [reflexivity |].
  split; [reflexivity |].
  destruct (sync_of_single_sample ready TrackerDb
              (with_file (Some one_synced_one_pending) ready_world)
              one_synced_one_pending
              (Locations.Row 2 28.2 77.3 None None None None 20 0)
              eq_refl eq_refl eq_refl eq_refl) as (t' & F' & _ & Q & _).
  unfold outbox. rewrite F', Q. reflexivity.
Defined.

(* ================================================================== *)
(** * Where errors end up *)

Lemma resolves_try_catch (t : task unit) (h : js_error -> task unit) :
  (forall e w, fst (run (h e) w) = Resolved tt) ->
  forall w, fst (run (try_catch t h) w) = Resolved tt.
Proof.
  intros H w. rewrite run_try_catch.
  destruct (run t w) as [[[] | e] w']; [reflexivity | apply H].
Qed.

Lemma resolves_bind (t k : task unit) :
  (forall w, fst (run t w) = Resolved tt) ->
  (forall w, fst (run k w) = Resolved tt) ->
  forall w, fst (run (t ;; k)%task w) = Resolved tt.
Proof.
  intros Ht Hk w. rewrite run_bind. specialize (Ht w).
  destruct (run t w) as [[[] | e] w']; [apply Hk | discriminate Ht].
Qed.

Lemma syncData_resolves (sc : scope) (w : world) :
  fst (run (syncData sc) w) = Resolved tt.
Proof.
  unfold syncData. destruct (database sc) as [db |]; [| reflexivity].
  destruct (isOnline sc); [| reflexivity]. simpl negb. cbv iota.
  apply resolves_try_catch. intros e.
  apply resolves_bind; [apply logToDatabase_resolves | reflexivity].
Qed.

Lemma saveLocation_resolves (sc : scope) (location : LocationObject)
      (w : world) :
  fst (run (saveLocation sc location) w) = Resolved tt.
Proof.
  unfold saveLocation. destruct (database sc) as [db |]; [| reflexivity].
  apply resolves_try_catch. intros e. apply logToDatabase_resolves.
Qed.

Lemma clearDatabase_resolves (sc : scope) (choice : button) (w : world) :
  fst (run (clearDatabase sc choice) w) = Resolved tt.
Proof.
  unfold clearDatabase. destruct (database sc) as [db |]; [| reflexivity].
  apply resolves_bind; [reflexivity |].
  destruct choice; [reflexivity |].
  apply resolves_try_catch. reflexivity.
Qed.

(** X9: the component never lets an error out.  Every operation of the
    component ([saveLocation], [syncData], [loadStats], [loadLocations],
    [logToDatabase], [initDatabase], [clearDatabase]), and [testLocation]
    and [getStats] as well, returns normally in every world, whatever the
    file holds and whatever fix it is given: SQLite errors are caught and
    end in the log, an alert or nowhere. *)
Theorem component_never_rejects :
  forall (o : operation) (w : world),
    of_component o = true ->
    fst (run (perform o) w) = Resolved tt /\
    (forall sc r1 r2 now,
        fst (run (testLocation sc r1 r2 now) w) = Resolved tt) /\
    (forall sc, exists row, fst (run (getStats sc) w) = Resolved row).
Proof.
  intros o w C. split; [| split].
  - destruct o as [sc l | ls e | sc | sc | sc | sc m v | sc | sc c];
      simpl perform; try discriminate C.
    + apply saveLocation_resolves.
    + apply syncData_resolves.
    + apply loadStats_file.
    + apply loadLocations_file.
    + apply logToDatabase_resolves.
    + unfold initDatabase. apply resolves_try_catch. reflexivity.
    + apply clearDatabase_resolves.
  - intros sc r1 r2 now. unfold testLocation.
    destruct (database sc); [| reflexivity].
    apply resolves_try_catch. reflexivity.
  - intros sc. unfold getStats.
    destruct (database sc) as [db |]; [| eexists; reflexivity].
    rewrite run_try_catch, run_bind, run_await. unfold getAllAsync.
    destruct (file w); eexists; reflexivity.
Qed.

Lemma component_never_rejects_witness :
  of_component (SaveLocation ready
                  (Build_LocationObject
                     (Build_Coords None None None None None None) None))
  = true /\
  fst (run (saveLocation ready
              (Build_LocationObject
                 (Build_Coords None None None None None None) None))
           ready_world) = Resolved tt.
Proof.
  split; [reflexivity |].
  exact (proj1 (component_never_rejects
                  (SaveLocation ready
                     (Build_LocationObject
                        (Build_Coords None None None None None None) None))
                  ready_world eq_refl)).
Defined.

(* ================================================================== *)
(** * What the background location task stores *)



(* ================================================================== *)
(** * The displayed list *)

Lemma insert_sorted_desc (x : Locations.row) (l : list Locations.row) :
  StronglySorted newest_first l ->
  StronglySorted newest_first (Sql.insert_sorted Sql.timestamp_desc x l).
Proof.
  induction 1 as [| y l S IH F]; simpl.
  - repeat constructor.
  - unfold Sql.timestamp_desc at 1.
    destruct (Z.leb_spec (Locations.timestamp y) (Locations.timestamp x))
      as [L | L].
    + constructor; [constructor; assumption |].
      constructor; [exact L |].
      eapply Forall_impl; [| exact F].
      intros z Hz. unfold newest_first in *. lia.
    + constructor; [exact IH |].
      eapply Permutation_Forall.
      * apply Permutation_sym, insert_sorted_perm.
      * constructor; [unfold newest_first; lia | exact F].
Qed.

Lemma order_by_desc (l : list Locations.row) :
  StronglySorted newest_first (Sql.order_by Sql.timestamp_desc l).
Proof.
  induction l as [| x l IH]; simpl.
  - constructor.
  - apply insert_sorted_desc, IH.
Qed.

Lemma loadLocations_run (sc : scope) (db : handle) (w : world) (t : tables) :
  database sc = Some db -> file w = Some t ->
  run (loadLocations sc) w
  = (Resolved tt, setLocations (Sql.select_recent t) w).
Proof.
  intros D F. unfold loadLocations. rewrite D.
  rewrite run_try_catch, run_bind, run_await.
  unfold getAllAsync. rewrite F. reflexivity.
Qed.

(** X11: the list [loadLocations] puts on screen.  With the handle set on
    an existing schema it is sorted by capture time, newest first; it holds
    20 samples, or all of them if they are fewer; its samples are samples
    of the table, and every sample left out was captured no later than
    every sample shown.  Nothing but the displayed list changes. *)
Theorem loadLocations_newest_twenty :
  forall (sc : scope) (db : handle) (w : world) (t : tables),
    database sc = Some db -> file w = Some t ->
    after (loadLocations sc) w
    = setLocations (state_locations (after (loadLocations sc) w)) w /\
    StronglySorted newest_first (state_locations (after (loadLocations sc) w)) /\
    List.length (state_locations (after (loadLocations sc) w))
    = Nat.min 20 (List.length (locations t)) /\
    exists rest,
      Permutation (state_locations (after (loadLocations sc) w) ++ rest)%list
                  (locations t) /\
      forall x y, In x (state_locations (after (loadLocations sc) w)) ->
                  In y rest -> newest_first x y.
Proof.
  intros sc db w t D F. unfold after.
  rewrite (loadLocations_run sc db w t D F). simpl.
  unfold Sql.select_recent.
  set (s := Sql.order_by Sql.timestamp_desc (locations t)).
  assert (Ps : Permutation s (locations t)) by apply order_by_perm.
  assert (Ss : StronglySorted newest_first s) by apply order_by_desc.
  assert (E : (firstn 20 s ++ skipn 20 s)%list = s) by apply firstn_skipn.
  rewrite <- E in Ss. apply StronglySorted_app_inv in Ss.
  destruct Ss as [S1 C].
  split; [reflexivity |]. split; [exact S1 |]. split.
  - rewrite length_firstn. now rewrite (Permutation_length Ps).
  - exists (skipn 20 s). split; [rewrite E; exact Ps | exact C].
Qed.

Lemma loadLocations_newest_twenty_witness :
  database ready = Some TrackerDb /\
  file (with_file (Some one_synced_one_pending) ready_world)
  = Some one_synced_one_pending /\
  state_locations (after (loadLocations ready)
                     (with_file (Some one_synced_one_pending) ready_world))
  = [Locations.Row 2 28.2 77.3 None None None None 20 0;
     Locations.Row 1 28.1 77.2 None None None None 10 1] /\
  List.length (state_locations
                 (after (loadLocations ready)
                    (with_file (Some one_synced_one_pending) ready_world)))
  = 2%nat.
Proof.
  split; [reflexivity |]. split; [reflexivity |]. split; [reflexivity |].
  destruct (loadLocations_newest_twenty ready TrackerDb
              (with_file (Some one_synced_one_pending) ready_world)
              one_synced_one_pending eq_refl eq_refl) as (_ & _ & L & _).
  exact L.
Defined.

(* ================================================================== *)
(** * Counting pending samples and live entries *)

Lemma filter_or_length {A} (a b : A -> bool) (l : list A) :
  (forall x, In x l -> a x = true -> b x = false) ->
  List.length (filter (fun x => a x || b x) l)
  = (List.length (filter a l) + List.length (filter b l))%nat.
Proof.
  induction l as [| x l IH]; simpl; intros H; [reflexivity |].
  assert (IH' := IH (fun y Hy => H y (or_intror Hy))).
  destruct (a x) eqn:Ax; simpl.
  - rewrite (H x (or_introl eq_refl) Ax). simpl. now rewrite IH'.
  - destruct (b x); simpl; rewrite IH'; lia.
Qed.

Lemma pending_count_live (l : list Locations.row) (Q : list SyncQueue.row) :
  NoDup (map Locations.id l) ->
  (forall r, In r l -> Locations.synced r = 0 ->
             List.length (filter (references r) Q) = 1%nat) ->
  List.length (filter Sql.is_unsynced l)
  = List.length
      (filter (fun q => existsb (fun r => Sql.is_unsynced r && references r q)
                                l) Q).
Proof.
  induction l as [| r l IH]; intros N P.
  - simpl. rewrite (filter_none _ Q); reflexivity.
  - inversion N as [| i m Nr Nl]; subst.
    assert (IH' := IH Nl (fun x Hx => P x (or_intror Hx))).
    simpl existsb.
    rewrite (filter_or_length
               (fun q => Sql.is_unsynced r && references r q)
               (fun q => existsb
                           (fun r0 => Sql.is_unsynced r0 && references r0 q)
                           l)).
    + rewrite <- IH'. simpl filter.
      destruct (Sql.is_unsynced r) eqn:U.
      * simpl. f_equal.
        rewrite (filter_ext _ (references r)); [| reflexivity].
        rewrite (P r (or_introl eq_refl)); [reflexivity |].
        now apply Z.eqb_eq.
      * rewrite (filter_none (fun q => false && references r q));
          [reflexivity | reflexivity].
    + intros q _ A. apply andb_true_iff in A. destruct A as [_ A].
      destruct (existsb (fun r0 => Sql.is_unsynced r0 && references r0 q) l)
        eqn:E; [| reflexivity].
      exfalso. apply existsb_exists in E. destruct E as (r' & Hr' & E).
      apply andb_true_iff in E. destruct E as [_ E].
      unfold references in A, E.
      apply andb_true_iff in A. apply andb_true_iff in E.
      destruct A as [_ A], E as [_ E].
      apply Z.eqb_eq in A. apply Z.eqb_eq in E.
      apply Nr. rewrite <- A, E. now apply in_map.
Qed.

(** X12: pairing, counted, for the component's own operations.  From a
    store where every pending sample has exactly one queue entry (ids
    unique, no entry for an id not yet given out), after any sequence of
    completed operations of the component (inserts through [saveLocation],
    syncs, purges, reads, logging) every pending sample still has exactly
    one entry, and the number of pending samples equals the number of queue
    entries that refer to a pending sample.  The background task is not
    among these operations. *)
Theorem component_pairing_counts :
  forall (ops : list operation) (w : world) (t : tables),
    forallb of_component ops = true ->
    file w = Some t -> well_paired t ->
    exists t',
      file (perform_all ops w) = Some t' /\
      paired t' /\
      pending_count t' = List.length (live_entries t').
Proof.
  intros ops w t C F G.
  destruct (component_keeps_pairing ops C w t F G) as (t' & F' & P & N & _).
  exists t'. split; [exact F' |]. split; [exact P |].
  unfold pending_count, live_entries.
  apply pending_count_live; [exact N | exact P].
Qed.

Lemma component_pairing_counts_witness :
  forallb of_component
    [SaveLocation ready (fix_at 28.1 77.2 1);
     SaveLocation ready (fix_at 28.2 77.3 2); SyncData ready;
     SaveLocation ready (fix_at 28.3 77.4 3)] = true /\
  file ready_world = Some empty_tables /\
  well_paired empty_tables /\
  exists t',
    file (perform_all
            [SaveLocation ready (fix_at 28.1 77.2 1);
             SaveLocation ready (fix_at 28.2 77.3 2); SyncData ready;
             SaveLocation ready (fix_at 28.3 77.4 3)] ready_world)
    = Some t' /\
    pending_count t' = List.length (live_entries t').
Proof.
  split; [reflexivity |]. split; [reflexivity |].
  split; [apply empty_tables_well_paired |].
  destruct (component_pairing_counts
              [SaveLocation ready (fix_at 28.1 77.2 1);
               SaveLocation ready (fix_at 28.2 77.3 2); SyncData ready;
               SaveLocation ready (fix_at 28.3 77.4 3)]
              ready_world empty_tables eq_refl eq_refl
              empty_tables_well_paired) as (t' & F' & _ & K).
  exists t'. split; [exact F' | exact K].
Defined.

(* ================================================================== *)
(** * What happens without a manual request *)

Lemma connectivity_apart_refl (w : world) : connectivity_apart w w.
Proof. repeat split. Qed.

Lemma safe_backgroundSyncTask_any (P : world -> Prop) :
  safe P (backgroundSyncTask ;; ret tt).
Proof.
  unfold backgroundSyncTask. apply safe_bind; [| constructor].
  apply safe_bind; [apply safe_await; intros w H; exact H |].
  intros [|]; [| constructor].
  apply safe_bind; [apply safe_await; intros w H; exact H | constructor].
Qed.

Lemma automatic_step (P : world -> Prop) (e : event) (s : system) :
  (forall c w, P w -> P (setIsOnline c (set_connected c w))) ->
  automatic e = true ->
  Forall (safe P) (calls s) -> P (sys_world s) ->
  Forall (safe P) (calls (step e s)) /\ P (sys_world (step e s)).
Proof.
  intros Sn A Sl H.
  destruct e as [| c | | o | i]; try discriminate A;
    cbv beta iota delta [step].
  - unfold networkListener. simpl sys_world. simpl calls.
    specialize (Sn c (sys_world s) H).
    destruct c; simpl; auto.
  - apply safe_spawn; auto using safe_backgroundSyncTask_any.
  - destruct (safe_resume_nth P i (calls s) (sys_world s) Sl H) as [S' H'].
    destruct (resume_nth i (calls s) (sys_world s)) as [l w].
    simpl in *. auto.
Qed.

(** X13: nothing is synced without a manual request.  Whatever
    connectivity changes and periodic wakes occur, and however what they
    start is scheduled, the file, the displayed list and statistics, the
    alerts and the handle stay exactly as they were: going online marks no
    sample, although the listener calls [syncData], because that
    [syncData] still has the unset handle of the first render. *)
Theorem no_sync_without_manual_request :
  forall (es : list event) (w : world),
    forallb automatic es = true ->
    connectivity_apart w (sys_world (exec es (System w []))) /\
    samples (sys_world (exec es (System w []))) = samples w /\
    outbox (sys_world (exec es (System w []))) = outbox w /\
    logged (sys_world (exec es (System w []))) = logged w.
Proof.
  intros es w A.
  assert (K : forall s,
             Forall (safe (connectivity_apart w)) (calls s) ->
             connectivity_apart w (sys_world s) ->
             connectivity_apart w (sys_world (exec es s))).
  { unfold exec. induction es as [| e es IH]; simpl; intros s Sl H; [exact H |].
    simpl in A. apply andb_true_iff in A. destruct A as [Ae Aes].
    destruct (automatic_step (connectivity_apart w) e s
                (fun c w0 H0 => H0) Ae Sl H) as [Sl' H'].
    now apply IH. }
  specialize (K (System w []) (Forall_nil _) (connectivity_apart_refl w)).
  split; [exact K |].
  destruct K as (F & _). unfold samples, outbox, logged. rewrite F. auto.
Qed.

Lemma no_sync_without_manual_request_witness :
  forallb automatic [Connectivity false; Connectivity true; PeriodicWake;
                     Resume 0; Resume 0; Connectivity true] = true /\
  samples (sys_world
             (exec [Connectivity false; Connectivity true; PeriodicWake;
                    Resume 0; Resume 0; Connectivity true]
                   (System one_pending [])))
  = samples one_pending.
Proof.
  split; [reflexivity |].
  exact (proj1 (proj2 (no_sync_without_manual_request
                         [Connectivity false; Connectivity true;
                          PeriodicWake; Resume 0; Resume 0;
                          Connectivity true]
                         one_pending eq_refl))).
Defined.

(* ================================================================== *)
(** * The test button *)

Lemma saveLocation_run (sc : scope) (db : handle)
      (location : LocationObject) (w : world) (t : tables)
      (lat lon : float) (ts : Z) :
  database sc = Some db -> file w = Some t ->
  Sql.bind_real (latitude (coords location)) = Some lat ->
  Sql.bind_real (longitude (coords location)) = Some lon ->
  timestamp location = Some ts ->
  run (saveLocation sc location) w
  = (Resolved tt, with_file (Some (saved location lat lon ts t)) w).
Proof.
  intros D F Hlat Hlon Hts. unfold saveLocation. rewrite D.
  destruct w as [f n d o st l a]. simpl in F. subst f.
  rewrite run_try_catch, run_bind, run_await.
  erewrite runAsync_ok;
    [| reflexivity
     | unfold Sql.insert_location; rewrite Hlat, Hlon, Hts; reflexivity].
  cbv beta iota. rewrite run_bind, run_await.
  erewrite runAsync_ok; [| reflexivity | reflexivity].
  cbv beta iota.
  apply bind_real_Some in Hlat. apply bind_real_Some in Hlon.
  rewrite (proj1 Hlat), (proj1 Hlon). unfold toFixed6.
  rewrite run_bind. simpl (run (ret _) _). cbv beta iota.
  rewrite run_bind. simpl (run (ret _) _). cbv beta iota.
  erewrite logToDatabase_run; [| exact D | reflexivity].
  reflexivity.
Qed.

(** Binary64 arithmetic on numbers: rounding never makes a NaN. *)
Lemma shr_1_nonneg (mrs : SpecFloat.shr_record) :
  0 <= SpecFloat.shr_m mrs -> 0 <= SpecFloat.shr_m (SpecFloat.shr_1 mrs).
Proof.
  destruct mrs as [m r s]. simpl.
  destruct m as [| p | p]; [simpl; lia | | intros H; exfalso; lia].
  intros _. destruct p; simpl; lia.
Qed.

Lemma iter_shr_1_nonneg (p : positive) (mrs : SpecFloat.shr_record) :
  0 <= SpecFloat.shr_m mrs ->
  0 <= SpecFloat.shr_m (SpecFloat.iter_pos SpecFloat.shr_1 p mrs).
Proof.
  revert mrs. induction p as [p IH | p IH |]; intros mrs H; simpl.
  - apply IH, IH, shr_1_nonneg, H.
  - apply IH, IH, H.
  - apply shr_1_nonneg, H.
Qed.

Lemma shr_fexp_nonneg (prec emax m e : Z) (l : SpecFloat.location) :
  0 <= m ->
  0 <= SpecFloat.shr_m (fst (SpecFloat.shr_fexp prec emax m e l)).
Proof.
  intros H. unfold SpecFloat.shr_fexp, SpecFloat.shr.
  assert (R : 0 <= SpecFloat.shr_m (SpecFloat.shr_record_of_loc m l))
    by (destruct l as [| []]; exact H).
  destruct (SpecFloat.fexp prec emax (SpecFloat.Zdigits2 m + e) - e);
    simpl; try exact R.
  apply iter_shr_1_nonneg, R.
Qed.

Lemma round_nearest_even_nonneg (m : Z) (l : SpecFloat.location) :
  0 <= m -> 0 <= SpecFloat.round_nearest_even m l.
Proof.
  intros H. unfold SpecFloat.round_nearest_even.
  destruct l as [| []]; try destruct (Z.even m); lia.
Qed.

Lemma binary_round_aux_number (prec emax : Z) (sx : bool) (mx ex : Z)
      (lx : SpecFloat.location) :
  0 <= mx ->
  SpecFloat.binary_round_aux prec emax sx mx ex lx <> SpecFloat.S754_nan.
Proof.
  intros H. unfold SpecFloat.binary_round_aux.
  pose proof (shr_fexp_nonneg prec emax mx ex lx H) as H1.
  destruct (SpecFloat.shr_fexp prec emax mx ex lx) as [mrs' e'].
  simpl in H1.
  pose proof (shr_fexp_nonneg prec emax _ e' SpecFloat.loc_Exact
                (round_nearest_even_nonneg
                   _ (SpecFloat.loc_of_shr_record mrs') H1))
    as H2.
  destruct (SpecFloat.shr_fexp prec emax
              (SpecFloat.round_nearest_even
                 (SpecFloat.shr_m mrs')
                 (SpecFloat.loc_of_shr_record mrs'))
              e' SpecFloat.loc_Exact) as [mrs'' e''].
  simpl in H2.
  destruct (SpecFloat.shr_m mrs'') as [| m | m];
    [discriminate | | exfalso; lia].
  destruct (e'' <=? emax - prec); discriminate.
Qed.

Lemma binary_normalize_number (prec emax m e : Z) (szero : bool) :
  SpecFloat.binary_normalize prec emax m e szero <> SpecFloat.S754_nan.
Proof.
  unfold SpecFloat.binary_normalize, SpecFloat.binary_round.
  destruct m as [| p | p]; [discriminate | |];
    destruct (SpecFloat.shl_align _ _ _) as [mz ez];
    apply binary_round_aux_number; lia.
Qed.

Lemma SFadd_number (prec emax : Z) (x y : SpecFloat.spec_float) :
  x <> SpecFloat.S754_nan -> is_finite_SF y = true ->
  SpecFloat.SFadd prec emax y x <> SpecFloat.S754_nan.
Proof.
  intros Hx Hy.
  destruct x as [sx | sx | | sx mx ex], y as [sy | sy | | sy my ey];
    try discriminate Hy; try (now exfalso; apply Hx);
    simpl; try discriminate;
    try (destruct sx, sy; discriminate);
    apply binary_normalize_number.
Qed.

Lemma SFsub_number (prec emax : Z) (x y : SpecFloat.spec_float) :
  x <> SpecFloat.S754_nan -> is_finite_SF y = true ->
  SpecFloat.SFsub prec emax x y <> SpecFloat.S754_nan.
Proof.
  intros Hx Hy.
  destruct x as [sx | sx | | sx mx ex], y as [sy | sy | | sy my ey];
    try discriminate Hy; try (now exfalso; apply Hx);
    simpl; try discriminate;
    try (destruct sx, sy; discriminate);
    apply binary_normalize_number.
Qed.

Lemma SFmul_number (prec emax : Z) (x y : SpecFloat.spec_float) :
  x <> SpecFloat.S754_nan -> is_nonzero_SF y = true ->
  SpecFloat.SFmul prec emax x y <> SpecFloat.S754_nan.
Proof.
  intros Hx Hy.
  destruct x as [sx | sx | | sx mx ex], y as [sy | sy | | sy my ey];
    try discriminate Hy; try (now exfalso; apply Hx);
    simpl; try discriminate.
  apply binary_round_aux_number. lia.
Qed.

Lemma SFcompare_refl (x : SpecFloat.spec_float) :
  x <> SpecFloat.S754_nan -> SpecFloat.SFcompare x x = Some Eq.
Proof.
  intros Hx. destruct x as [s | s | | s m e]; simpl.
  - reflexivity.
  - destruct s; reflexivity.
  - now exfalso; apply Hx.
  - rewrite Z.compare_refl.
    change (Pos.compare_cont Eq m m) with (Pos.compare m m).
    rewrite Pos.compare_refl. destruct s; reflexivity.
Qed.

Lemma is_nan_Prim2SF (x : float) :
  PrimFloat.is_nan x = false <-> FloatOps.Prim2SF x <> SpecFloat.S754_nan.
Proof.
  unfold PrimFloat.is_nan. rewrite FloatAxioms.eqb_spec.
  unfold SpecFloat.SFeqb. split.
  - intros H E. rewrite E in H. discriminate H.
  - intros H. now rewrite (SFcompare_refl _ H).
Qed.

(** [a + (r - b) * c] is a number whenever [r] is, for finite [a] and [b]
    and finite non-zero [c]. *)
Lemma affine_number (a b c r : float) :
  is_finite_SF (FloatOps.Prim2SF a) = true ->
  is_finite_SF (FloatOps.Prim2SF b) = true ->
  is_nonzero_SF (FloatOps.Prim2SF c) = true ->
  PrimFloat.is_nan r = false ->
  PrimFloat.is_nan (PrimFloat.add a (PrimFloat.mul (PrimFloat.sub r b) c))
  = false.
Proof.
  intros Ha Hb Hc Hr. apply is_nan_Prim2SF in Hr. apply is_nan_Prim2SF.
  rewrite FloatAxioms.add_spec, FloatAxioms.mul_spec, FloatAxioms.sub_spec.
  apply SFadd_number; [| exact Ha].
  apply SFmul_number; [| exact Hc].
  apply SFsub_number; [exact Hr | exact Hb].
Qed.

(** The made-up fix of [testLocation] is complete whenever the two random
    draws are numbers. *)
Lemma mockLocation_complete (random1 random2 : float) (now : Z) :
  PrimFloat.is_nan random1 = false -> PrimFloat.is_nan random2 = false ->
  is_complete (mockLocation random1 random2 now) = true.
Proof.
  intros N1 N2. unfold is_complete, mockLocation, Sql.bind_real.
  cbv beta iota delta [latitude longitude coords timestamp].
  rewrite (affine_number 28.6139 0.5 0.01 random1
             eq_refl eq_refl eq_refl N1).
  rewrite (affine_number 77.209 0.5 0.01 random2
             eq_refl eq_refl eq_refl N2).
  reflexivity.
Qed.

Lemma sum_case_pending_app (l : list Locations.row) (r : Locations.row) :
  Locations.synced r = 0 ->
  Sql.sum_case Sql.is_unsynced (l ++ [r])
  = Some (Z.of_nat (List.length (filter Sql.is_unsynced l)) + 1).
Proof.
  intros S. unfold Sql.sum_case.
  destruct (l ++ [r])%list as [| x m] eqn:E.
  - apply app_eq_nil in E. destruct E as [_ E]. discriminate E.
  - rewrite <- E, filter_app, length_app. simpl.
    unfold Sql.is_unsynced at 2. rewrite S. simpl. f_equal. lia.
Qed.

(** X14: [testLocation].  With the handle set on an existing schema, and
    the two random draws being numbers (not NaN, as every value of
    [Math.random] is; from a NaN draw the made-up coordinate would be NaN
    and the table would refuse it), it stores one pending sample with accuracy 10, altitude 200, speed 5, heading 90,
    the timestamp of the call and coordinates made of the two random
    values, together with its queue entry and log entry; then the
    displayed list and statistics are those of the new tables, so the
    displayed total is one more than the number of samples before; and the
    alert "Test" is shown. *)
Theorem testLocation_adds_one_sample :
  forall (sc : scope) (db : handle) (random1 random2 : float) (now : Z)
         (w : world) (t : tables),
    database sc = Some db -> file w = Some t ->
    PrimFloat.is_nan random1 = false -> PrimFloat.is_nan random2 = false ->
    run (testLocation sc random1 random2 now) w
    = (Resolved tt,
       push_alert (Alert "Test" [Str "Test location added successfully"])
         (setStats
            (stats_of
               (saved (mockLocation random1 random2 now)
                  (PrimFloat.add 28.6139
                     (PrimFloat.mul (PrimFloat.sub random1 0.5) 0.01))
                  (PrimFloat.add 77.209
                     (PrimFloat.mul (PrimFloat.sub random2 0.5) 0.01))
                  now t))
            (setLocations
               (Sql.select_recent
                  (saved (mockLocation random1 random2 now)
                     (PrimFloat.add 28.6139
                        (PrimFloat.mul (PrimFloat.sub random1 0.5) 0.01))
                     (PrimFloat.add 77.209
                        (PrimFloat.mul (PrimFloat.sub random2 0.5) 0.01))
                     now t))
               (with_file
                  (Some
                     (saved (mockLocation random1 random2 now)
                        (PrimFloat.add 28.6139
                           (PrimFloat.mul (PrimFloat.sub random1 0.5) 0.01))
                        (PrimFloat.add 77.209
                           (PrimFloat.mul (PrimFloat.sub random2 0.5) 0.01))
                        now t))
                  w)))) /\
    total (state_stats (after (testLocation sc random1 random2 now) w))
    = Z.of_nat (List.length (locations t)) + 1 /\
    pending (state_stats (after (testLocation sc random1 random2 now) w))
    = Some (Z.of_nat (pending_count t) + 1) /\
    exists i lat lon,
      samples (after (testLocation sc random1 random2 now) w)
      = (locations t ++
           [Locations.Row i lat lon (Some 10%float) (Some 200%float)
                          (Some 5%float) (Some 90%float) now 0])%list.
Proof.
  intros sc db r1 r2 now w t D F N1 N2.
  pose proof (mockLocation_complete r1 r2 now N1 N2) as C.
  set (lat := PrimFloat.add 28.6139 (PrimFloat.mul (PrimFloat.sub r1 0.5) 0.01)).
  set (lon := PrimFloat.add 77.209 (PrimFloat.mul (PrimFloat.sub r2 0.5) 0.01)).
  set (t' := saved (mockLocation r1 r2 now) lat lon now t).
  assert (B : Sql.bind_real (Some lat) = Some lat /\
              Sql.bind_real (Some lon) = Some lon).
  { unfold is_complete in C. simpl latitude in C. simpl longitude in C.
    fold lat lon in C. unfold Sql.bind_real in *.
    destruct (PrimFloat.is_nan lat); [discriminate C |].
    destruct (PrimFloat.is_nan lon); [discriminate C |]. auto. }
  destruct B as [Bla Blo].
  assert (R : run (testLocation sc r1 r2 now) w
              = (Resolved tt,
                 push_alert
                   (Alert "Test" [Str "Test location added successfully"])
                   (setStats (stats_of t')
                      (setLocations (Sql.select_recent t')
                         (with_file (Some t') w))))).
  { unfold testLocation. rewrite D.
    rewrite run_try_catch, run_bind.
    rewrite (saveLocation_run sc db (mockLocation r1 r2 now) w t
               lat lon now D F Bla Blo eq_refl).
    fold t'. cbv beta iota. rewrite run_bind.
    rewrite (loadLocations_run sc db (with_file (Some t') w) t' D eq_refl).
    cbv beta iota. rewrite run_bind.
    rewrite (loadStats_run sc db
               (setLocations (Sql.select_recent t') (with_file (Some t') w))
               t' D eq_refl).
    cbv beta iota. rewrite run_effect. reflexivity. }
  split; [exact R |]. unfold after. rewrite R.
  split; [| split].
  - change (Z.of_nat
              (List.length
                 (locations t ++
                    [new_location lat lon now (mockLocation r1 r2 now) t]))
            = Z.of_nat (List.length (locations t)) + 1).
    rewrite length_app. simpl. lia.
  - change (Sql.sum_case Sql.is_unsynced
              (locations t ++
                 [new_location lat lon now (mockLocation r1 r2 now) t])
            = Some (Z.of_nat (pending_count t) + 1)).
    now apply sum_case_pending_app.
  - eexists. eexists. eexists. reflexivity.
Qed.

Lemma testLocation_adds_one_sample_witness :
  database ready = Some TrackerDb /\
  PrimFloat.is_nan 0.5 = false /\
  file one_pending
  = Some (Tables [Locations.Row 1 28.1 77.2 None None None None 1 0]
                 [SyncQueue.Row 1 "locations" 1 "INSERT"]
                 [AppLogs.Row 1 [Str "Location saved: "; Fixed6 28.1;
                                 Str ", "; Fixed6 77.2] "info"]
                 1 1 1) /\
  total (state_stats (after (testLocation ready 0.5 0.5 7) one_pending)) = 2.
Proof.
  assert (F : file one_pending
              = Some (Tables
                        [Locations.Row 1 28.1 77.2 None None None None 1 0]
                        [SyncQueue.Row 1 "locations" 1 "INSERT"]
                        [AppLogs.Row 1 [Str "Location saved: "; Fixed6 28.1;
                                        Str ", "; Fixed6 77.2] "info"]
                        1 1 1))
    by (vm_compute; reflexivity).
  split; [reflexivity |]. split; [reflexivity |]. split; [exact F |].
  exact (proj1 (proj2 (testLocation_adds_one_sample
                         ready TrackerDb 0.5 0.5 7 one_pending _
                         eq_refl F eq_refl eq_refl))).
Defined.

(* ================================================================== *)
(** * Inserts followed by a sync *)

Lemma saves_count (sc : scope) (db : handle) (fixes : list LocationObject) :
  database sc = Some db -> forallb is_complete fixes = true ->
  forall (w : world) (t : tables),
    file w = Some t ->
    exists t',
      file (perform_all (map (SaveLocation sc) fixes) w) = Some t' /\
      List.length (locations t')
      = (List.length (locations t) + List.length fixes)%nat /\
      pending_count t' = (pending_count t + List.length fixes)%nat.
Proof.
  intros D. induction fixes as [| x fixes IH]; simpl; intros C w t F.
  - exists t. split; [exact F |]. split; lia.
  - apply andb_true_iff in C. destruct C as [Cx Cf].
    unfold is_complete in Cx.
    destruct (Sql.bind_real (latitude (coords x))) as [lat |] eqn:Hlat;
      [| discriminate Cx].
    destruct (Sql.bind_real (longitude (coords x))) as [lon |] eqn:Hlon;
      [| discriminate Cx].
    destruct (timestamp x) as [ts |] eqn:Hts; [| discriminate Cx].
    rewrite (saveLocation_run sc db x w t lat lon ts D F Hlat Hlon Hts).
    destruct (IH Cf (with_file (Some (saved x lat lon ts t)) w)
                 (saved x lat lon ts t) eq_refl) as (t' & F' & L' & P').
    exists t'. split; [exact F' |]. split.
    + rewrite L'. simpl. rewrite length_app. simpl. lia.
    + rewrite P'. unfold pending_count. simpl.
      rewrite filter_app, length_app. simpl. lia.
Qed.

Lemma all_operations (ops : list operation) :
  forallb any_operation ops = true.
Proof. induction ops; simpl; auto. Qed.

(** X15: inserts followed by one sync.  With the handle set, online, on a
    store with unique ids and flags 0 or 1: after saving any fixes that are
    complete (latitude and longitude present and not NaN, timestamp
    present), at least one, such that no more than 100 samples are
    pending, one sync leaves no sample pending, and the statistics it puts
    on screen are [{total: N, synced: N, pending: 0}] for the [N] samples
    the store now holds, the former ones and one for each fix. *)
Theorem saves_then_sync_shows_all_synced :
  forall (sc : scope) (db : handle) (fixes : list LocationObject)
         (w : world) (t : tables),
    database sc = Some db -> isOnline sc = true -> file w = Some t ->
    ids_issued t -> flags_binary t ->
    forallb is_complete fixes = true ->
    fixes <> [] ->
    (pending_count t + List.length fixes <= 100)%nat ->
    state_stats
      (perform_all (map (SaveLocation sc) fixes ++ [SyncData sc]) w)
    = Stats (Z.of_nat (List.length (locations t) + List.length fixes))
            (Some (Z.of_nat (List.length (locations t)
                             + List.length fixes)))
            (Some 0) /\
    exists t',
      file (perform_all (map (SaveLocation sc) fixes ++ [SyncData sc]) w)
      = Some t' /\
      pending_count t' = 0%nat.
Proof.
  intros sc db fixes w t D O F I B C NE Le.
  unfold perform_all. rewrite fold_left_app. fold (perform_all
    (map (SaveLocation sc) fixes) w). simpl fold_left.
  destruct (saves_count sc db fixes D C w t F) as (t1 & F1 & L1 & P1).
  destruct flags_binary_kept as [Wb Pb].
  destruct (succeeds_kept t) as [Ws Ps].
  destruct (proj1 (on_file_always flags_binary Wb any_operation w
                     (fun o _ => or_introl Pb)
                     (ex_intro _ t (conj F B)))
                  (map (SaveLocation sc) fixes) (all_operations _))
    as (t1' & F1' & B1).
  destruct (proj1 (on_file_always (succeeds t) Ws any_operation w
                     (fun o _ => or_introl Ps)
                     (ex_intro _ t (conj F (succeeds_refl t I))))
                  (map (SaveLocation sc) fixes) (all_operations _))
    as (t1'' & F1'' & _ & [_ N1] & _).
  rewrite F1 in F1', F1''. injection F1' as <-. injection F1'' as <-.
  set (w1 := perform_all (map (SaveLocation sc) fixes) w) in *.
  destruct (Sql.select_unsynced batch_limit t1) as [| r b] eqn:Bt.
  { exfalso. destruct (batch_split batch_limit t1) as (rest & _ & Len).
    rewrite Bt, P1 in Len. unfold batch_limit in Len.
    destruct fixes as [| x xs]; [now apply NE |].
    simpl List.length in Len. lia. }
  change (snd (run (perform (SyncData sc)) w1))
    with (snd (run (syncData sc) w1)).
  rewrite (syncData_run sc db w1 t1 r b D O F1 Bt).
  assert (P2 : pending_count (synced_batch (r :: b) t1) = 0%nat).
  { change (pending_count (synced_batch (r :: b) t1))
      with (pending_count
              (Sql.update_synced (map Locations.id (r :: b)) t1)).
    rewrite <- Bt.
    rewrite (update_synced_pending_count batch_limit t1 N1).
    unfold batch_limit. lia. }
  assert (B2 : flags_binary (synced_batch (r :: b) t1)).
  { intros x Hx.
    change (In x (locations
                    (Sql.update_synced (map Locations.id (r :: b)) t1)))
      in Hx.
    unfold Sql.update_synced in Hx. cbv beta iota delta [locations] in Hx.
    apply in_map_iff in Hx. destruct Hx as (x0 & E & Hx0).
    destruct (Sql.mem (Locations.id x0) (map Locations.id (r :: b)));
      subst x; [right; reflexivity | now apply B1]. }
  assert (L2 : List.length (locations (synced_batch (r :: b) t1))
               = (List.length (locations t) + List.length fixes)%nat).
  { simpl locations. rewrite length_map. exact L1. }
  split.
  - simpl state_stats. unfold stats_of.
    pose proof (flags_count _ B2) as Cn.
    fold (pending_count (synced_batch (r :: b) t1)) in Cn.
    rewrite P2 in Cn. unfold pending_count in P2.
    unfold Sql.sum_case.
    destruct (locations (synced_batch (r :: b) t1)) as [| x l] eqn:E.
    + exfalso. simpl in L2. destruct fixes; [now apply NE |].
      simpl in L2. lia.
    + rewrite P2. rewrite <- L2. simpl Z.of_nat at 3.
      f_equal. f_equal. lia.
  - eexists. split; [reflexivity | exact P2].
Qed.

Lemma saves_then_sync_shows_all_synced_witness :
  database ready = Some TrackerDb /\
  isOnline ready = true /\
  file ready_world = Some empty_tables /\
  ids_issued empty_tables /\
  flags_binary empty_tables /\
  state_stats
    (perform_all
       (map (SaveLocation ready)
            [fix_at 28.1 77.2 1; fix_at 28.2 77.3 2; fix_at 28.3 77.4 3]
        ++ [SyncData ready])
       ready_world)
  = Stats 3 (Some 3) (Some 0).
Proof.
  assert (I : ids_issued empty_tables).
  { split; [intros r [] | constructor]. }
  assert (B : flags_binary empty_tables) by (intros r []).
  split; [reflexivity |]. split; [reflexivity |]. split; [reflexivity |].
  split; [exact I |]. split; [exact B |].
  refine (proj1 (saves_then_sync_shows_all_synced
                   ready TrackerDb
                   [fix_at 28.1 77.2 1; fix_at 28.2 77.3 2;
                    fix_at 28.3 77.4 3]
                   ready_world empty_tables
                   eq_refl eq_refl eq_refl I B eq_refl _ _)).
  - discriminate.
  - simpl. lia.
Defined.

(* ================================================================== *)
(** * What the purge shows *)

(** X16: the screen after a purge.  With the handle set on an existing
    schema, a confirmed purge refreshes the displays from the emptied
    tables: the displayed list is empty and the displayed statistics are
    total 0 with both sums NULL; the dialog and then the alert "Success"
    are shown; the [AUTOINCREMENT] counters are kept, so the next fix
    whose latitude and longitude are numbers (not NaN, which SQLite binds
    as NULL) and whose timestamp is present gets the id after the last
    one given out before the purge.  A cancelled purge only shows the
    dialog. *)
Theorem clearDatabase_refreshes_display :
  forall (sc : scope) (db : handle) (w : world) (t : tables),
    database sc = Some db -> file w = Some t ->
    state_locations (after (clearDatabase sc Clear) w) = [] /\
    state_stats (after (clearDatabase sc Clear) w) = Stats 0 None None /\
    alerts (after (clearDatabase sc Clear) w)
    = (alerts w ++
         [Alert "Clear Database"
            [Str "Are you sure you want to delete all location data?"];
          Alert "Success" [Str "Database cleared successfully"]])%list /\
    (forall location lat lon ts,
        latitude (coords location) = Some lat ->
        longitude (coords location) = Some lon ->
        timestamp location = Some ts ->
        PrimFloat.is_nan lat = false ->
        PrimFloat.is_nan lon = false ->
        map Locations.id
            (samples (after (saveLocation sc location)
                            (after (clearDatabase sc Clear) w)))
        = [Z.max (seq_locations t) 0 + 1]) /\
    after (clearDatabase sc Cancel) w
    = push_alert
        (Alert "Clear Database"
           [Str "Are you sure you want to delete all location data?"])
        w.
Proof.
  intros sc db w t D F.
  assert (R : after (clearDatabase sc Clear) w
              = push_alert
                  (Alert "Success" [Str "Database cleared successfully"])
                  (setStats (Stats 0 None None)
                     (setLocations []
                        (with_file
                           (Some (Tables [] []
                                    [AppLogs.Row
                                       (Sql.next_rowid (seq_app_logs t) [])
                                       [Str "Database cleared"] "info"]
                                    (seq_locations t) (seq_sync_queue t)
                                    (Sql.next_rowid (seq_app_logs t) [])))
                           (push_alert
                              (Alert "Clear Database"
                                 [Str "Are you sure you want to delete all location data?"])
                              w))))).
  { unfold after, clearDatabase, logToDatabase, loadLocations, loadStats.
    rewrite D. destruct w as [f n d o st l a]. simpl in F. subst f.
    reflexivity. }
  conjuncts.
  - rewrite R. reflexivity.
  - rewrite R. reflexivity.
  - rewrite R. simpl. rewrite <- app_assoc. reflexivity.
  - intros location lat lon ts Hlat Hlon Hts Nlat Nlon. rewrite R.
    unfold after.
    erewrite saveLocation_run;
      [| exact D | reflexivity
       | apply bind_real_Some; split; [exact Hlat | exact Nlat]
       | apply bind_real_Some; split; [exact Hlon | exact Nlon]
       | exact Hts].
    reflexivity.
  - unfold after, clearDatabase. rewrite D. reflexivity.
Qed.

Lemma clearDatabase_refreshes_display_witness :
  database ready = Some TrackerDb /\
  file (with_file (Some one_synced_one_pending) ready_world)
  = Some one_synced_one_pending /\
  state_stats (after (clearDatabase ready Clear)
                 (with_file (Some one_synced_one_pending) ready_world))
  = Stats 0 None None /\
  map Locations.id
      (samples (after (saveLocation ready (fix_at 28.3 77.4 30))
                  (after (clearDatabase ready Clear)
                     (with_file (Some one_synced_one_pending)
                                ready_world))))
  = [3].
Proof.
  split; [reflexivity |]. split; [reflexivity |].
  destruct (clearDatabase_refreshes_display ready TrackerDb
              (with_file (Some one_synced_one_pending) ready_world)
              one_synced_one_pending eq_refl eq_refl)
    as (_ & S & _ & N & _).
  split; [exact S |].
  exact (N (fix_at 28.3 77.4 30) 28.3%float 77.4%float 30
           eq_refl eq_refl eq_refl eq_refl eq_refl).
Defined.
